(** * Omni-Visual: response cache, retrying fetch and view orchestration

    A shallow embedding of [omni_visual/cache.py], [omni_visual/tools/vision.py]
    and the cache-aware wrappers of [omni_visual/agent.py].

    Conventions.
    - Python [float]s that are only stored, compared and subtracted
      (coordinates, clock readings) are rationals [Q].
    - Python [float]s whose rounding decides the result (the angles of
      [get_relative_direction], the hit rate of [stats]) are IEEE 754
      doubles, with NaN and the infinities: module [Float].
    - Python [int]s are [Z].
    - A [dict] is an association list in insertion order with unique keys.
    - Dicts that are shared between the cache and its callers live in a heap
      and are referred to by [VRef]; dicts that are built and returned
      without being shared are plain values.
    - A function that can raise returns an [outcome]. *)

From Stdlib Require Import ZArith QArith Qround Qabs Qpower String Ascii List Lia Lqa DecimalString.
From Stdlib Require SpecFloat.
From stdpp Require Import list strings.

Open Scope string_scope.
Open Scope Z_scope.

(** ** Python values *)

Set Warnings "-register-all".

Definition loc := nat.

Inductive pyval : Type :=
| VNone
| VBool (b : bool)
| VInt (z : Z)
| VFloat (q : Q)
| VStr (s : string)
| VList (vs : list pyval)
| VDict (items : list (string * pyval))
| VRef (l : loc).

Inductive exn : Type :=
| ValueError (msg : string)
| TypeError (msg : string)
| TimeoutException (msg : string)
| NetworkError (msg : string)
| HTTPStatusError (status_code : Z) (text : string)
| OtherException (msg : string).

Inductive outcome (A : Type) : Type :=
| Returned (a : A)
| Raised (e : exn).

Arguments Returned {A} a.
Arguments Raised {A} e.

(** ** Insertion-ordered dictionaries *)

Module PyDict.
Section Dict.
Context {A : Type}.

Definition t := list (string * A).

(** [d.get(k)] *)
Fixpoint get (k : string) (d : t) : option A :=
  match d with
  | [] => None
  | (k', v) :: r => if String.eqb k k' then Some v else get k r
  end.

(** [k in d] *)
Definition mem (k : string) (d : t) : bool :=
  match get k d with Some _ => true | None => false end.

(** [d[k] = v]: overwrite in place, or append a new key at the end. *)
Fixpoint set (k : string) (v : A) (d : t) : t :=
  match d with
  | [] => [(k, v)]
  | (k', v') :: r =>
      if String.eqb k k' then (k, v) :: r else (k', v') :: set k v r
  end.

(** [del d[k]] for a key that is present. *)
Fixpoint del (k : string) (d : t) : t :=
  match d with
  | [] => []
  | (k', v') :: r => if String.eqb k k' then r else (k', v') :: del k r
  end.

Definition keys (d : t) : list string := map fst d.
End Dict.
Arguments t : clear implicits.
End PyDict.

Definition pydict := PyDict.t pyval.

(** [str(z)] for an [int]. *)
Definition str_int (z : Z) : string := NilZero.string_of_int (Z.to_int z).

(** Less-than on rationals as a boolean. *)
Definition Qlt_bool (x y : Q) : bool := negb (Qle_bool y x).

(** ** Python floats

    IEEE 754 binary64 with rounding to nearest, ties to even.  A finite
    double is given by its value, a rational. *)

Module Float.

(** [2 ** k] for any integer [k]. *)
Definition pow2 (k : Z) : Q := (2 ^ k)%Q.

(** The integer nearest to [y], the even one of two that are equally
    near. *)
Definition round_half_even (y : Q) : Z :=
  let f := Qfloor y in
  let twice_rest := ((y - inject_Z f) * 2)%Q in
  if Qlt_bool twice_rest 1 then f
  else if Qlt_bool 1 twice_rest then f + 1
  else if Z.even f then f else f + 1.

(** The integer [k] with [2 ** k <= q < 2 ** (k + 1)], for [q > 0]. *)
Definition ilog2 (q : Q) : Z :=
  if Qle_bool 1 q then Z.log2 (Qfloor q)
  else - Z.log2_up (Qceiling (/ q)).

(** The exponent of the last place of the double nearest to [q]: 53
    significant bits, and no exponent below that of the subnormal
    numbers. *)
Definition ulp_exp (q : Q) : Z := Z.max (ilog2 (Qabs q) - 52) (-1074).

(** The double nearest to [q], ties to even, before the test for
    overflow. *)
Definition rd (q : Q) : Q :=
  if Qeq_bool q 0 then 0%Q
  else (inject_Z (round_half_even (q / pow2 (ulp_exp q))) * pow2 (ulp_exp q))%Q.

(** A Python [float]: a finite double by its value, an infinity by its
    sign, or NaN.  The sign of a zero is not kept: nothing here divides
    by a float or prints one. *)
Inductive pyfloat : Type :=
| Fin (q : Q)
| Inf (negative : bool)
| NaN.

(** Rounding to a double: to nearest, ties to even, and to an infinity
    from [2 ** 1024] on. *)
Definition of_Q (q : Q) : pyfloat :=
  let r := rd q in
  if Qle_bool (pow2 1024) (Qabs r) then Inf (Qlt_bool r 0) else Fin r.

(** [x + y] *)
Definition add (x y : pyfloat) : pyfloat :=
  match x, y with
  | NaN, _ | _, NaN => NaN
  | Inf s, Inf t => if Bool.eqb s t then Inf s else NaN
  | Inf s, Fin _ | Fin _, Inf s => Inf s
  | Fin a, Fin b => of_Q (a + b)
  end.

(** [-x] *)
Definition opp (x : pyfloat) : pyfloat :=
  match x with
  | Fin a => Fin (- a)
  | Inf s => Inf (negb s)
  | NaN => NaN
  end.

(** [x - y] *)
Definition sub (x y : pyfloat) : pyfloat := add x (opp y).

(** [x <= y] and [x < y]; a comparison with NaN is false. *)
Definition leb (x y : pyfloat) : bool :=
  match x, y with
  | NaN, _ | _, NaN => false
  | Inf true, _ => true
  | _, Inf false => true
  | Inf false, _ => false
  | _, Inf true => false
  | Fin a, Fin b => Qle_bool a b
  end.

Definition ltb (x y : pyfloat) : bool :=
  match x, y with
  | NaN, _ | _, NaN => false
  | Inf true, Inf true => false
  | Inf true, _ => true
  | Inf false, _ => false
  | _, Inf false => true
  | _, Inf true => false
  | Fin a, Fin b => Qlt_bool a b
  end.

(** The integer part of [y], rounded towards zero. *)
Definition Qtrunc (y : Q) : Z := if Qle_bool 0 y then Qfloor y else Qceiling y.

(** C's [fmod(a, w)] on finite doubles, [w] not zero: the result is a
    double, so nothing is rounded. *)
Definition fmod (a w : Q) : Q := (a - inject_Z (Qtrunc (a / w)) * w)%Q.

(** [x % w] for a finite divisor [w] other than zero ([float_rem] of
    CPython): [fmod], moved by [w] when its sign is not the sign of
    [w]; NaN for an infinite or NaN [x]. *)
Definition rem (x : pyfloat) (w : Q) : pyfloat :=
  match x with
  | Fin a =>
      let m := fmod a w in
      if Qeq_bool m 0 then Fin 0
      else if xorb (Qlt_bool w 0) (Qlt_bool m 0) then add (Fin m) (Fin w)
      else Fin m
  | _ => NaN
  end.

End Float.

(** ** Primitives supplied by the Python runtime and third-party packages *)

Class Platform := {
  (** [f"{x:.6f}"] *)
  format_6f : Q -> string;
  (** [str(x)] of a float *)
  str_float : Q -> string;
  (** [repr] of a list of [(name, value)] tuples *)
  repr_items : list (string * pyval) -> string;
  (** [hashlib.md5(s.encode()).hexdigest()] *)
  md5_hexdigest : string -> string;
  (** [compress_image]: Pillow re-encoding, the input itself on any failure *)
  compress_image : string -> string;
  (** [base64.b64encode(b).decode("utf-8")] *)
  b64encode : string -> string
}.

(** A platform with transparent primitives, for evaluating the model. *)
Definition plain_platform : Platform := {|
  format_6f := fun q => str_int (Qfloor (q * 1000000)%Q);
  str_float := fun q => str_int (Qnum q) ++ "/" ++ str_int (Z.pos (Qden q));
  repr_items := fun l => String.concat "," (map fst l);
  md5_hexdigest := fun s => s;
  compress_image := fun b => b;
  b64encode := fun b => b
|}.

(** ** cache.py *)

Module Cache.
Section WithPlatform.
Context {P : Platform}.

Record ImageCache : Type := mkImageCache {
  _cache : PyDict.t (Q * pyval);
  _ttl : Z;
  _max_size : Z;
  _hits : Z;
  _misses : Z;
  _name : string
}.

(** [ImageCache.__init__] *)
Definition init (ttl_seconds max_size : Z) : ImageCache :=
  {| _cache := []; _ttl := ttl_seconds; _max_size := max_size;
     _hits := 0; _misses := 0; _name := "unnamed" |}.

Definition set_name (name : string) (c : ImageCache) : ImageCache :=
  {| _cache := _cache c; _ttl := _ttl c; _max_size := _max_size c;
     _hits := _hits c; _misses := _misses c; _name := name |}.

(** [sorted(params.items())]: keyword names are unique, so the order of
    the tuples is the order of the names. *)
Fixpoint insert_item (x : string * pyval) (l : list (string * pyval))
  : list (string * pyval) :=
  match l with
  | [] => [x]
  | y :: r => if String.ltb (fst x) (fst y) then x :: y :: r
              else y :: insert_item x r
  end.

Definition sorted_items (params : list (string * pyval))
  : list (string * pyval) :=
  fold_left (fun acc x => insert_item x acc) params [].

Definition _make_key (lat lng : Q) (params : list (string * pyval)) : string :=
  md5_hexdigest
    (format_6f lat ++ ":" ++ format_6f lng ++ ":"
       ++ repr_items (sorted_items params)).

Definition with_cache (d : PyDict.t (Q * pyval)) (c : ImageCache) : ImageCache :=
  {| _cache := d; _ttl := _ttl c; _max_size := _max_size c;
     _hits := _hits c; _misses := _misses c; _name := _name c |}.

Definition count_hit (c : ImageCache) : ImageCache :=
  {| _cache := _cache c; _ttl := _ttl c; _max_size := _max_size c;
     _hits := _hits c + 1; _misses := _misses c; _name := _name c |}.

Definition count_miss (c : ImageCache) : ImageCache :=
  {| _cache := _cache c; _ttl := _ttl c; _max_size := _max_size c;
     _hits := _hits c; _misses := _misses c + 1; _name := _name c |}.

(** [ImageCache.get]; [now] is the reading of [time.time()].  The
    result is the stored value on a hit and [None] otherwise. *)
Definition get (lat lng : Q) (params : list (string * pyval)) (now : Q)
    (c : ImageCache) : pyval * ImageCache :=
  let key := _make_key lat lng params in
  match PyDict.get key (_cache c) with
  | Some (timestamp, value) =>
      if Qlt_bool (now - timestamp)%Q (inject_Z (_ttl c))
      then (value, count_hit c)
      else (VNone, count_miss (with_cache (PyDict.del key (_cache c)) c))
  | None => (VNone, count_miss c)
  end.

(** [min(d, key=lambda k: d[k][0])] scans the keys in insertion order
    and keeps the first one whose timestamp is smallest. *)
Fixpoint oldest_from (best : string) (best_ts : Q) (d : PyDict.t (Q * pyval))
  : string :=
  match d with
  | [] => best
  | (k, (ts, _)) :: r =>
      if Qlt_bool ts best_ts then oldest_from k ts r
      else oldest_from best best_ts r
  end.

Definition oldest_key (d : PyDict.t (Q * pyval)) : outcome string :=
  match d with
  | [] => Raised (ValueError "min() arg is an empty sequence")
  | (k, (ts, _)) :: r => Returned (oldest_from k ts r)
  end.

(** [ImageCache.set]; [now] is the reading of [time.time()]. *)
Definition set (lat lng : Q) (value : pyval) (params : list (string * pyval))
    (now : Q) (c : ImageCache) : outcome ImageCache :=
  let evicted :=
    if _max_size c <=? Z.of_nat (length (_cache c)) then
      match oldest_key (_cache c) with
      | Returned oldest => Returned (PyDict.del oldest (_cache c))
      | Raised e => Raised e
      end
    else Returned (_cache c) in
  match evicted with
  | Returned d =>
      let key := _make_key lat lng params in
      Returned (with_cache (PyDict.set key (now, value) d) c)
  | Raised e => Raised e
  end.

(** [round(x, 3)] on a double [x] between 0 and 1: the decimal with
    three places nearest to the value of [x], ties to even, read back
    as a double. *)
Definition round3 (x : Q) : Q :=
  Float.rd (inject_Z (Float.round_half_even (x * 1000)) / 1000).

(** [self._hits / total]: the double nearest to the quotient of the two
    [int]s, which lies between 0 and 1 for the counters of an
    instance. *)
Definition hit_ratio (hits total : Z) : Q :=
  Float.rd (inject_Z hits / inject_Z total).

(** [ImageCache.stats] *)
Definition stats (c : ImageCache) : pydict :=
  let total := _hits c + _misses c in
  [ ("name", VStr (_name c));
    ("hits", VInt (_hits c));
    ("misses", VInt (_misses c));
    ("hit_rate", if 0 <? total
                 then VFloat (round3 (hit_ratio (_hits c) total))
                 else VInt 0);
    ("size", VInt (Z.of_nat (length (_cache c))));
    ("max_size", VInt (_max_size c));
    ("ttl_seconds", VInt (_ttl c)) ].

(** [ImageCache.clear] *)
Definition clear (c : ImageCache) : ImageCache :=
  {| _cache := []; _ttl := _ttl c; _max_size := _max_size c;
     _hits := 0; _misses := 0; _name := _name c |}.

(** [ImageCache.invalidate] *)
Definition invalidate (lat lng : Q) (params : list (string * pyval))
    (c : ImageCache) : bool * ImageCache :=
  let key := _make_key lat lng params in
  if PyDict.mem key (_cache c)
  then (true, with_cache (PyDict.del key (_cache c)) c)
  else (false, c).

(** The operations of one cache instance, with the clock readings and
    arguments they receive. *)
Inductive op : Type :=
| OpGet (lat lng : Q) (params : list (string * pyval)) (now : Q)
| OpSet (lat lng : Q) (value : pyval) (params : list (string * pyval)) (now : Q)
| OpInvalidate (lat lng : Q) (params : list (string * pyval))
| OpClear
| OpStats
| OpSetName (name : string).

(** One call; a call that raises leaves the instance as it was, since
    [set] can only raise before its first mutation. *)
Definition step (c : ImageCache) (o : op) : ImageCache :=
  match o with
  | OpGet lat lng params now => snd (get lat lng params now c)
  | OpSet lat lng value params now =>
      match set lat lng value params now c with
      | Returned c' => c'
      | Raised _ => c
      end
  | OpInvalidate lat lng params => snd (invalidate lat lng params c)
  | OpClear => clear c
  | OpStats => c
  | OpSetName name => set_name name c
  end.

Definition run (ops : list op) (c : ImageCache) : ImageCache :=
  fold_left step ops c.

End WithPlatform.
End Cache.

(** ** vision.py: proximity math *)

Module GeoMath.
Import Float.

(** The chain of comparisons of [get_relative_direction] on the
    normalised angle. *)
Definition direction_of_relative (relative : pyfloat) : string :=
  if leb relative (Fin (45 # 2)) || ltb (Fin (675 # 2)) relative
  then "directly AHEAD"
  else if ltb (Fin (45 # 2)) relative && leb relative (Fin (135 # 2))
  then "AHEAD and to your RIGHT (2 o'clock)"
  else if ltb (Fin (135 # 2)) relative && leb relative (Fin (225 # 2))
  then "to your RIGHT (3 o'clock)"
  else if ltb (Fin (225 # 2)) relative && leb relative (Fin (315 # 2))
  then "BEHIND and to your RIGHT (4 o'clock)"
  else if ltb (Fin (315 # 2)) relative && leb relative (Fin (405 # 2))
  then "directly BEHIND you"
  else if ltb (Fin (405 # 2)) relative && leb relative (Fin (495 # 2))
  then "BEHIND and to your LEFT (8 o'clock)"
  else if ltb (Fin (495 # 2)) relative && leb relative (Fin (585 # 2))
  then "to your LEFT (9 o'clock)"
  else "AHEAD and to your LEFT (10 o'clock)".

(** [(bearing_to_dest - user_heading + 360) % 360], each operation
    rounded as Python rounds it; the [int] 360 is the double 360.0. *)
Definition relative_angle (user_heading bearing_to_dest : pyfloat) : pyfloat :=
  rem (add (sub bearing_to_dest user_heading) (Fin 360)) 360.

Definition get_relative_direction (user_heading bearing_to_dest : pyfloat)
  : string :=
  direction_of_relative (relative_angle user_heading bearing_to_dest).

(** The spec's reading of the sectors, to compare the code with: the
    eight labels clockwise from straight ahead, and the sector of the
    [k]-th label, 45 degrees wide and centred on [45 * k]; each sector
    leaves out its lower bound and holds its upper one, and the first
    continues from 337.5 through 0 up to 22.5. *)
Definition labels : list string :=
  [ "directly AHEAD";
    "AHEAD and to your RIGHT (2 o'clock)";
    "to your RIGHT (3 o'clock)";
    "BEHIND and to your RIGHT (4 o'clock)";
    "directly BEHIND you";
    "BEHIND and to your LEFT (8 o'clock)";
    "to your LEFT (9 o'clock)";
    "AHEAD and to your LEFT (10 o'clock)" ].

Definition in_sector (k : nat) (relative : Q) : Prop :=
  match k with
  | 0%nat => (relative <= 45 # 2 \/ 675 # 2 < relative)%Q
  | 1%nat => (45 # 2 < relative /\ relative <= 135 # 2)%Q
  | 2%nat => (135 # 2 < relative /\ relative <= 225 # 2)%Q
  | 3%nat => (225 # 2 < relative /\ relative <= 315 # 2)%Q
  | 4%nat => (315 # 2 < relative /\ relative <= 405 # 2)%Q
  | 5%nat => (405 # 2 < relative /\ relative <= 495 # 2)%Q
  | 6%nat => (495 # 2 < relative /\ relative <= 585 # 2)%Q
  | 7%nat => (585 # 2 < relative /\ relative <= 675 # 2)%Q
  | _ => False
  end.

End GeoMath.

(** ** vision.py: errors and retry *)

Module Fetch.

Record response : Type := mkResponse {
  status_code : Z;
  text : string;
  content : string
}.

(** [str(e)] *)
Definition exn_str (e : exn) : string :=
  match e with
  | ValueError m | TypeError m | TimeoutException m
  | NetworkError m | OtherException m => m
  | HTTPStatusError code body => "HTTP status " ++ str_int code
  end.

(** The three error classes of vision.py. *)
Inductive APIError : Type :=
| RateLimitError (msg : string)
| QuotaExceededError (msg : string)
| GenericAPIError (msg : string).

Definition api_error_str (e : APIError) : string :=
  match e with
  | RateLimitError m | QuotaExceededError m | GenericAPIError m => m
  end.

(** [c.lower()] on one ASCII character. *)
Definition lower_ascii (c : ascii) : ascii :=
  let n := nat_of_ascii c in
  if (65 <=? n)%nat && (n <=? 90)%nat then ascii_of_nat (n + 32) else c.

Fixpoint lower (s : string) : string :=
  match s with
  | EmptyString => EmptyString
  | String c r => String (lower_ascii c) (lower r)
  end.

(** [needle in s] *)
Fixpoint contains (needle s : string) : bool :=
  String.prefix needle s
  || match s with
     | EmptyString => false
     | String _ r => contains needle r
     end.

Definition categorize_http_error (status : Z) (response_text : string)
  : APIError :=
  if status =? 429
  then RateLimitError "Rate limit exceeded. Please wait before retrying."
  else if (status =? 403) && contains "quota" (lower response_text)
  then QuotaExceededError "API quota exceeded. Check your billing."
  else GenericAPIError ("HTTP " ++ str_int status ++ ": " ++ response_text).

(** [response.raise_for_status()]: an [HTTPStatusError] for every
    status outside 2xx. *)
Definition raise_for_status (r : response) : outcome response :=
  if (200 <=? status_code r) && (status_code r <? 300)
  then Returned r
  else Raised (HTTPStatusError (status_code r) (text r)).

(** One attempt of the body of [_fetch_with_retry], given what
    [client.get] did. *)
Definition attempt (got : outcome response) : outcome response :=
  match got with
  | Returned r => raise_for_status r
  | Raised e => Raised e
  end.

(** [retry_if_exception_type((httpx.TimeoutException, httpx.NetworkError))] *)
Definition is_transient (e : exn) : bool :=
  match e with
  | TimeoutException _ | NetworkError _ => true
  | _ => false
  end.

(** Modelled from the spec: the [retry] decorator, [stop_after_attempt]
    and [wait_exponential] belong to the tenacity package, which is not
    among the sources.  The wait after the [n]-th failed attempt is
    [multiplier * 2^(n-1)] seconds kept between [min] and [max]. *)
Definition wait_exponential (multiplier min max : Z) (attempt_number : nat) : Z :=
  Z.max (Z.max 0 min)
        (Z.min (multiplier * 2 ^ (Z.of_nat attempt_number - 1)) max).

Record run : Type := mkRun {
  result : outcome response;
  attempts : nat;
  sleeps : list Z
}.

(** Modelled from the spec: the loop of the tenacity [retry] decorator
    with [reraise=True].  [body n] is the outcome of the [n]-th call of
    the decorated function; after a failure that [retry_on] accepts, and
    while fewer than the allowed attempts were made, the loop sleeps for
    [wait n] and calls again; otherwise the outcome of the last call is
    the outcome of the whole. *)
Fixpoint retry_loop (retry_on : exn -> bool) (wait : nat -> Z)
    (body : nat -> outcome response) (remaining : nat) (n : nat) : run :=
  match body n with
  | Returned r => mkRun (Returned r) n []
  | Raised e =>
      if retry_on e then
        match remaining with
        | O => mkRun (Raised e) n []
        | S remaining' =>
            let rest := retry_loop retry_on wait body remaining' (S n) in
            mkRun (result rest) (attempts rest) (wait n :: sleeps rest)
        end
      else mkRun (Raised e) n []
  end.

(** [_fetch_with_retry] with its decorator arguments:
    [stop_after_attempt(3)], [wait_exponential(multiplier=1, min=1, max=10)].
    [client_get n] is what the [n]-th call of [client.get] does,
    counting from 1. *)
Definition _fetch_with_retry (client_get : nat -> outcome response) : run :=
  retry_loop is_transient (wait_exponential 1 1 10)
             (fun n => attempt (client_get n)) 2 1.

End Fetch.

(** ** vision.py: the view tools *)

(** Truth value of a Python value that holds no reference. *)
Definition is_true (v : pyval) : bool :=
  match v with
  | VNone => false
  | VBool b => b
  | VInt z => negb (z =? 0)
  | VFloat q => negb (Qeq_bool q 0)
  | VStr s => negb (String.eqb s "")
  | VList vs => match vs with [] => false | _ => true end
  | VDict items => match items with [] => false | _ => true end
  | VRef _ => true
  end.

(** [d.get(k)] with [None] for a missing key, and [d.get(k, default)]. *)
Definition get_or (default : pyval) (k : string) (d : pydict) : pyval :=
  match PyDict.get k d with Some v => v | None => default end.

(** What the process sees of its surroundings during one call. *)
Record world : Type := mkWorld {
  (** [os.getenv] *)
  getenv : string -> option string;
  (** [client.get(url, params=params)] at the [n]-th attempt for this
      request, counting from 1 *)
  client_get : string -> pydict -> nat -> outcome Fetch.response;
  (** seconds measured by [time.perf_counter] around the request *)
  elapsed : string -> pydict -> Q
}.

(** Surroundings in which the API key is set and every request is
    answered with status 200. *)
Definition online_world : world := {|
  getenv := fun name =>
    if String.eqb name "GOOGLE_MAPS_API_KEY" then Some "test-key" else None;
  client_get := fun _ _ _ =>
    Returned {| Fetch.status_code := 200; Fetch.text := "OK";
                Fetch.content := "image-bytes" |};
  elapsed := fun _ _ => (1 # 4)%Q
|}.

(** Surroundings in which the API key is set and every request times
    out. *)
Definition offline_world : world := {|
  getenv := fun name =>
    if String.eqb name "GOOGLE_MAPS_API_KEY" then Some "test-key" else None;
  client_get := fun _ _ _ => Raised (TimeoutException "timed out");
  elapsed := fun _ _ => 30%Q
|}.

(** Surroundings in which only the request heading east is refused. *)
Definition east_fails_world : world := {|
  getenv := fun name =>
    if String.eqb name "GOOGLE_MAPS_API_KEY" then Some "test-key" else None;
  client_get := fun _ params _ =>
    match PyDict.get "heading" params with
    | Some (VInt 90) =>
        Returned {| Fetch.status_code := 500; Fetch.text := "boom";
                    Fetch.content := "" |}
    | _ =>
        Returned {| Fetch.status_code := 200; Fetch.text := "OK";
                    Fetch.content := "image-bytes" |}
    end;
  elapsed := fun _ _ => (1 # 4)%Q
|}.

Module Vision.
Section WithPlatform.
Context {P : Platform}.

(** [a or b] on two results of [os.getenv]. *)
Definition getenv_or (a b : option string) : option string :=
  match a with
  | Some s => if String.eqb s "" then b else Some s
  | None => b
  end.

Definition get_maps_api_key (w : world) : outcome string :=
  match getenv_or (getenv w "GOOGLE_MAPS_API_KEY") (getenv w "MAPS_API_KEY") with
  | Some key =>
      if String.eqb key ""
      then Raised (ValueError "GOOGLE_MAPS_API_KEY environment variable is not set")
      else Returned key
  | None => Raised (ValueError "GOOGLE_MAPS_API_KEY environment variable is not set")
  end.

(** The two [except] clauses shared by both tools. *)
Definition failure (e : exn) : pydict :=
  match e with
  | HTTPStatusError code body =>
      [ ("success", VBool false);
        ("error", VStr (Fetch.api_error_str (Fetch.categorize_http_error code body))) ]
  | _ =>
      [ ("success", VBool false); ("error", VStr (Fetch.exn_str e)) ]
  end.

Definition clamp (low high x : Z) : Z := Z.max low (Z.min high x).

Definition get_overhead_view (w : world) (lat lng : Q) (zoom : Z)
    (map_type : string) (compress : bool) : outcome pydict :=
  match get_maps_api_key w with
  | Raised e => Raised e
  | Returned api_key =>
      let zoom := clamp 0 21 zoom in
      let base_url := "https://maps.googleapis.com/maps/api/staticmap" in
      let params : pydict :=
        [ ("center", VStr (str_float lat ++ "," ++ str_float lng));
          ("zoom", VInt zoom);
          ("size", VStr "400x400");
          ("maptype", VStr map_type);
          ("key", VStr api_key) ] in
      match Fetch.result (Fetch._fetch_with_retry (client_get w base_url params)) with
      | Returned response =>
          let image_bytes :=
            if compress then compress_image (Fetch.content response)
            else Fetch.content response in
          Returned
            [ ("success", VBool true);
              ("image_data", VStr (b64encode image_bytes));
              ("mime_type", VStr (if negb compress then "image/png" else "image/jpeg"));
              ("description",
                VStr ("Overhead " ++ map_type ++ " view at (" ++ str_float lat
                      ++ ", " ++ str_float lng ++ "), zoom level " ++ str_int zoom));
              ("parameters",
                VDict [ ("lat", VFloat lat); ("lng", VFloat lng);
                        ("zoom", VInt zoom); ("map_type", VStr map_type) ]);
              ("latency_ms", VFloat (elapsed w base_url params * 1000)%Q) ]
      | Raised e => Returned (failure e)
      end
  end.

(** The table [direction_names], in the order it is written. *)
Definition direction_names : list (Z * Z * string) :=
  [ (0, 45, "North"); (45, 90, "Northeast"); (90, 135, "East");
    (135, 180, "Southeast"); (180, 225, "South"); (225, 270, "Southwest");
    (270, 315, "West"); (315, 360, "Northwest") ].

(** The loop over [direction_names]: the first band that holds the
    heading, [default] when none does. *)
Fixpoint first_band (default : string) (bands : list (Z * Z * string))
    (heading : Z) : string :=
  match bands with
  | [] => default
  | (low, high, name) :: r =>
      if (low <=? heading) && (heading <? high) then name
      else first_band default r heading
  end.

Definition facing_of (heading : Z) : string :=
  first_band "North" direction_names heading.

Definition pitch_desc_of (pitch : Z) : string :=
  if (-15 <=? pitch) && (pitch <=? 15) then "eye level"
  else if 15 <? pitch then "looking up" else "looking down".

(** The degree sign of the description, as its two UTF-8 bytes. *)
Definition degree : string :=
  String (ascii_of_nat 194) (String (ascii_of_nat 176) EmptyString).

(** The request that [get_street_view] sends once the parameters are
    normalised. *)
Definition street_params (api_key : string) (lat lng : Q)
    (heading pitch fov : Z) : pydict :=
  [ ("location", VStr (str_float lat ++ "," ++ str_float lng));
    ("size", VStr "400x400");
    ("heading", VInt heading);
    ("pitch", VInt pitch);
    ("fov", VInt fov);
    ("key", VStr api_key) ].

Definition street_url : string :=
  "https://maps.googleapis.com/maps/api/streetview".

Definition get_street_view (w : world) (lat lng : Q) (heading pitch fov : Z)
    (compress : bool) : outcome pydict :=
  match get_maps_api_key w with
  | Raised e => Raised e
  | Returned api_key =>
      let heading := heading mod 360 in
      let pitch := clamp (-90) 90 pitch in
      let fov := clamp 20 120 fov in
      let params := street_params api_key lat lng heading pitch fov in
      let facing := facing_of heading in
      let pitch_desc := pitch_desc_of pitch in
      match Fetch.result (Fetch._fetch_with_retry (client_get w street_url params)) with
      | Returned response =>
          let image_bytes :=
            if compress then compress_image (Fetch.content response)
            else Fetch.content response in
          Returned
            [ ("success", VBool true);
              ("image_data", VStr (b64encode image_bytes));
              ("mime_type", VStr "image/jpeg");
              ("description",
                VStr ("Street view facing " ++ facing ++ " (" ++ str_int heading
                      ++ degree ++ "), " ++ pitch_desc ++ ", FOV " ++ str_int fov
                      ++ degree));
              ("parameters",
                VDict [ ("lat", VFloat lat); ("lng", VFloat lng);
                        ("heading", VInt heading); ("pitch", VInt pitch);
                        ("fov", VInt fov); ("facing", VStr facing) ]);
              ("latency_ms", VFloat (elapsed w street_url params * 1000)%Q) ]
      | Raised e => Returned (failure e)
      end
  end.

(** The spec's reading of the compass labels, to compare the code
    with: the [k]-th of eight bands of 45 degrees that start at 0. *)
Definition compass_names : list string :=
  [ "North"; "Northeast"; "East"; "Southeast";
    "South"; "Southwest"; "West"; "Northwest" ].

Definition headings : list (Z * string) :=
  [ (0, "North"); (90, "East"); (180, "South"); (270, "West") ].

(** The coroutines handed to [asyncio.gather], one per heading. *)
Definition tasks (w : world) (lat lng : Q) (pitch fov : Z)
  : list (outcome pydict) :=
  map (fun hd => get_street_view w lat lng (fst hd) pitch fov true) headings.

(** One round of the loop over [zip(headings, results)]. *)
Definition collect (acc : list pydict * bool)
    (x : (Z * string) * outcome pydict) : list pydict * bool :=
  let '(views, all_success) := acc in
  let '((_, direction), result) := x in
  match result with
  | Raised e =>
      ((views ++ [ [ ("success", VBool false); ("error", VStr (Fetch.exn_str e));
                     ("direction", VStr direction) ] ])%list,
       false)
  | Returned d =>
      let d' := PyDict.set "direction" (VStr direction) d in
      ((views ++ [d'])%list,
       if negb (is_true (get_or (VBool false) "success" d')) then false
       else all_success)
  end.

(** [explore_panoramic]; [elapsed_all] is the time measured around the
    whole capture.  [gather(..., return_exceptions=True)] hands back one
    result or exception per task, in the order of the tasks. *)
Definition explore_panoramic (w : world) (lat lng : Q) (pitch fov : Z)
    (elapsed_all : Q) : pydict :=
  let results := tasks w lat lng pitch fov in
  let '(views, all_success) :=
    fold_left collect (combine headings results) ([], true) in
  [ ("success", VBool all_success);
    ("views", VList (map VDict views));
    ("description",
      VStr ("360" ++ degree ++ " panoramic capture at (" ++ str_float lat ++ ", "
            ++ str_float lng ++ ")"));
    ("latency_ms", VFloat (elapsed_all * 1000)%Q) ].

(** A leg of the capture succeeded: it returned a dict whose
    ["success"] entry is true. *)
Definition leg_succeeded (leg : outcome pydict) : bool :=
  match leg with
  | Returned d => is_true (get_or (VBool false) "success" d)
  | Raised _ => false
  end.

End WithPlatform.
End Vision.

(** ** agent.py: the cache-aware wrappers *)

Module Agent.
Section WithPlatform.
Context {P : Platform}.

(** A call of one of the two fetching tools. *)
Inductive fetch_call : Type :=
| FetchOverhead (lat lng : Q) (zoom : Z) (map_type : string)
| FetchStreet (lat lng : Q) (heading pitch fov : Z).

(** The two module-level caches, the dict objects they share with the
    callers, and the fetches made so far. *)
Record state : Type := mkState {
  overhead_cache : Cache.ImageCache;
  streetview_cache : Cache.ImageCache;
  heap : list pydict;
  fetches : list fetch_call
}.

(** The caches as cache.py creates them. *)
Definition initial : state :=
  {| overhead_cache := Cache.set_name "overhead" (Cache.init 3600 100);
     streetview_cache := Cache.set_name "streetview" (Cache.init 1800 100);
     heap := [];
     fetches := [] |}.

(** Truth value of a value, looking through references to dicts. *)
Definition truthy (h : list pydict) (v : pyval) : bool :=
  match v with
  | VRef l =>
      match h !! l with
      | Some d => match d with [] => false | _ => true end
      | None => true
      end
  | _ => is_true v
  end.

(** [obj[k] = v]; only a dict object takes the assignment. *)
Definition setitem (h : list pydict) (obj : pyval) (k : string) (v : pyval)
  : outcome (list pydict) :=
  match obj with
  | VRef l =>
      match h !! l with
      | Some d => Returned (<[ l := PyDict.set k v d ]> h)
      | None => Raised (TypeError "object does not support item assignment")
      end
  | _ => Raised (TypeError "object does not support item assignment")
  end.

(** A dict returned by a tool becomes an object of its own. *)
Definition alloc (h : list pydict) (d : pydict) : loc * list pydict :=
  (length h, (h ++ [d])%list).

(** [result.get("success")] as a condition; [result] is a dict that was
    just built. *)
Definition succeeded (d : pydict) : bool := is_true (get_or VNone "success" d).

Definition overhead_key_params (zoom : Z) (map_type : string)
  : list (string * pyval) :=
  [ ("zoom", VInt zoom); ("map_type", VStr map_type) ].

Definition street_key_params (heading pitch fov : Z) : list (string * pyval) :=
  [ ("heading", VInt heading); ("pitch", VInt pitch); ("fov", VInt fov) ].

(** The body shared by the two wrappers, over one cache [c]:
    [t_get] and [t_set] are the readings of [time.time()] inside
    [get] and [set]; [tool] is the outcome of awaiting the tool. *)
Definition cached_call (c : Cache.ImageCache) (h : list pydict)
    (lat lng : Q) (params : list (string * pyval)) (t_get t_set : Q)
    (tool : outcome pydict)
  : outcome pyval * Cache.ImageCache * list pydict * bool :=
  let '(cached, c1) := Cache.get lat lng params t_get c in
  if truthy h cached then
    match setitem h cached "from_cache" (VBool true) with
    | Returned h' => (Returned cached, c1, h', false)
    | Raised e => (Raised e, c1, h, false)
    end
  else
    match tool with
    | Raised e => (Raised e, c1, h, true)
    | Returned d =>
        let '(l, h1) := alloc h d in
        if succeeded d then
          match Cache.set lat lng (VRef l) params t_set c1 with
          | Returned c2 => (Returned (VRef l), c2, h1, true)
          | Raised e => (Raised e, c1, h1, true)
          end
        else (Returned (VRef l), c1, h1, true)
    end.

Definition log (fetched : bool) (call : fetch_call) (l : list fetch_call)
  : list fetch_call :=
  if fetched then (l ++ [call])%list else l.

Definition cached_get_overhead_view (w : world) (t_get t_set : Q)
    (lat lng : Q) (zoom : Z) (map_type : string) (s : state)
  : outcome pyval * state :=
  let '(r, c, h, fetched) :=
    cached_call (overhead_cache s) (heap s) lat lng
      (overhead_key_params zoom map_type) t_get t_set
      (Vision.get_overhead_view w lat lng zoom map_type true) in
  (r, {| overhead_cache := c; streetview_cache := streetview_cache s;
         heap := h;
         fetches := log fetched (FetchOverhead lat lng zoom map_type) (fetches s) |}).

Definition cached_get_street_view (w : world) (t_get t_set : Q)
    (lat lng : Q) (heading pitch fov : Z) (s : state)
  : outcome pyval * state :=
  let '(r, c, h, fetched) :=
    cached_call (streetview_cache s) (heap s) lat lng
      (street_key_params heading pitch fov) t_get t_set
      (Vision.get_street_view w lat lng heading pitch fov true) in
  (r, {| overhead_cache := overhead_cache s; streetview_cache := c;
         heap := h;
         fetches := log fetched (FetchStreet lat lng heading pitch fov) (fetches s) |}).

(** [clear_all_caches] of cache.py, reached from the server. *)
Definition clear_all_caches (s : state) : state :=
  {| overhead_cache := Cache.clear (overhead_cache s);
     streetview_cache := Cache.clear (streetview_cache s);
     heap := heap s; fetches := fetches s |}.

(** The states the process can be in: it starts with the empty caches
    and then serves wrapper calls and cache clears, each wrapper call
    in whatever surroundings it finds. *)
Inductive reachable : state -> Prop :=
| reach_initial : reachable initial
| reach_overhead w t_get t_set lat lng zoom map_type s :
    reachable s ->
    reachable (snd (cached_get_overhead_view w t_get t_set lat lng zoom map_type s))
| reach_street w t_get t_set lat lng heading pitch fov s :
    reachable s ->
    reachable (snd (cached_get_street_view w t_get t_set lat lng heading pitch fov s))
| reach_clear s :
    reachable s -> reachable (clear_all_caches s).

End WithPlatform.
End Agent.

(** ** cache.py: the statistics of both caches *)

(** [get_all_cache_stats] of cache.py, reached from the server. *)
Definition get_all_cache_stats (s : Agent.state) : pydict :=
  [ ("overhead", VDict (Cache.stats (Agent.overhead_cache s)));
    ("streetview", VDict (Cache.stats (Agent.streetview_cache s))) ].

(** ** vision.py: the shared HTTP client *)

Module Pool.

(** The module-level [_http_client] and the client objects made so
    far.  A client is known by the number of its creation; [closed]
    lists the clients on which [aclose] was awaited. *)
Record state : Type := mkPool {
  _http_client : option nat;
  closed : list nat;
  created : nat
}.

(** The module as it is loaded. *)
Definition start : state := mkPool None [] 0.

(** [client.is_closed] *)
Definition is_closed (p : state) (c : nat) : bool := existsb (Nat.eqb c) (closed p).

(** [httpx.AsyncClient(...)]: a new, open client. *)
Definition new_client (p : state) : nat * state :=
  (created p, mkPool (Some (created p)) (closed p) (S (created p))).

Definition get_http_client (p : state) : nat * state :=
  match _http_client p with
  | None => new_client p
  | Some c => if is_closed p c then new_client p else (c, p)
  end.

Definition close_http_client (p : state) : state :=
  match _http_client p with
  | Some c => mkPool None (c :: closed p) (created p)
  | None => p
  end.

(** [await client.aclose()] by a caller that holds the client [c]. *)
Definition aclose (c : nat) (p : state) : state :=
  if (c <? created p)%nat then mkPool (_http_client p) (c :: closed p) (created p)
  else p.

Inductive op : Type := Get | Close | Aclose (c : nat).

Definition step (p : state) (o : op) : state :=
  match o with
  | Get => snd (get_http_client p)
  | Close => close_http_client p
  | Aclose c => aclose c p
  end.

Definition run (ops : list op) : state := fold_left step ops start.

(** Every client made so far is closed, except perhaps the one the
    module holds; and only clients that were made are listed. *)
Definition tidy (p : state) : Prop :=
  (forall c, _http_client p = Some c -> (c < created p)%nat)
  /\ (forall c, is_closed p c = true -> (c < created p)%nat)
  /\ (forall c, (c < created p)%nat -> _http_client p <> Some c ->
        is_closed p c = true).

End Pool.

(** ** agent.py: the environment of the Maps server *)

Module McpEnv.

(** [env[name] = value] when [value] is a non-empty string. *)
Definition pass (name : string) (value : option string)
    (env : PyDict.t string) : PyDict.t string :=
  match value with
  | Some v => if String.eqb v "" then env else PyDict.set name v env
  | None => env
  end.

Definition get_mcp_env (w : world) : PyDict.t string :=
  let env := [] in
  let maps_key := getenv w "GOOGLE_MAPS_API_KEY" in
  let env := pass "GOOGLE_MAPS_API_KEY" maps_key env in
  let project := getenv w "GOOGLE_CLOUD_PROJECT" in
  let env := pass "GOOGLE_CLOUD_PROJECT" project env in
  let env := pass "GCLOUD_PROJECT" project env in
  env.

End McpEnv.

(** ** Further surroundings *)

(** Surroundings without any API key. *)
Definition keyless_world : world := {|
  getenv := fun _ => None;
  client_get := client_get online_world;
  elapsed := elapsed online_world
|}.

(** Surroundings in which the API answers every request with status
    429. *)
Definition throttled_world : world := {|
  getenv := getenv online_world;
  client_get := fun _ _ _ =>
    Returned {| Fetch.status_code := 429; Fetch.text := "slow down";
                Fetch.content := "" |};
  elapsed := elapsed online_world
|}.

(** * Properties *)

(** ** Rationals as booleans *)

Lemma Qlt_bool_iff (x y : Q) : Qlt_bool x y = true <-> (x < y)%Q.
Proof.
  unfold Qlt_bool. rewrite negb_true_iff. split.
  - intros H. apply Qnot_le_lt. intros Hle.
    apply Qle_bool_iff in Hle. congruence.
  - intros H. destruct (Qle_bool y x) eqn:E; [|reflexivity].
    apply Qle_bool_iff in E. exfalso. exact (Qlt_not_le _ _ H E).
Qed.

Lemma Qlt_bool_false_iff (x y : Q) : Qlt_bool x y = false <-> (y <= x)%Q.
Proof.
  unfold Qlt_bool. rewrite negb_false_iff. apply Qle_bool_iff.
Qed.

(** ** Doubles *)

Module FloatFacts.
Import Float.

Lemma Qle_bool_false_iff (x y : Q) : Qle_bool x y = false <-> (y < x)%Q.
Proof.
  rewrite <- Qlt_bool_iff. unfold Qlt_bool.
  destruct (Qle_bool x y); simpl; split; congruence.
Qed.

(** *** Powers of two *)

Lemma two_not_0 : ~ (2 == 0)%Q.
Proof. discriminate. Qed.

Lemma pow2_pos (k : Z) : (0 < pow2 k)%Q.
Proof. apply Qpower_0_lt. reflexivity. Qed.

Lemma pow2_add (a b : Z) : (pow2 (a + b) == pow2 a * pow2 b)%Q.
Proof. apply Qpower_plus, two_not_0. Qed.

Lemma pow2_opp (k : Z) : (pow2 (- k) == / pow2 k)%Q.
Proof. apply Qpower_opp. Qed.

Lemma pow2_le (a b : Z) : a <= b -> (pow2 a <= pow2 b)%Q.
Proof. intros H. apply Qpower_le_compat_l; [exact H | discriminate]. Qed.

Lemma pow2_lt_inv (a b : Z) : (pow2 a < pow2 b)%Q -> a < b.
Proof. intros H. eapply Qpower_lt_compat_l_inv; [exact H | reflexivity]. Qed.

Lemma pow2_Z (k : Z) : 0 <= k -> (pow2 k == inject_Z (2 ^ k))%Q.
Proof. intros H. unfold pow2. now rewrite Zpower_Qpower. Qed.

Lemma pow2_cancel (k : Z) : (pow2 k * pow2 (- k) == 1)%Q.
Proof. rewrite <- pow2_add, Z.add_opp_diag_r. reflexivity. Qed.

(** *** The position of the leading bit *)

Lemma ilog2_spec (q : Q) :
  (0 < q)%Q -> (pow2 (ilog2 q) <= q /\ q < pow2 (ilog2 q + 1))%Q.
Proof.
  intros Hq. unfold ilog2. destruct (Qle_bool 1 q) eqn:E.
  - apply Qle_bool_iff in E.
    assert (Hf : 1 <= Qfloor q).
    { change 1 with (Qfloor 1). now apply Qfloor_resp_le. }
    destruct (Z.log2_spec (Qfloor q)) as [Hlo Hhi]; [lia|].
    pose proof (Z.log2_nonneg (Qfloor q)) as Hk.
    rewrite !pow2_Z by lia. split.
    + apply Qle_trans with (inject_Z (Qfloor q)); [|apply Qfloor_le].
      rewrite <- Zle_Qle. exact Hlo.
    + apply Qlt_le_trans with (inject_Z (Qfloor q + 1)); [apply Qlt_floor|].
      rewrite <- Zle_Qle. rewrite Z.add_1_r. lia.
  - apply Qle_bool_false_iff in E.
    set (a := Qceiling (/ q)).
    assert (Hinv : (1 < / q)%Q).
    { apply Qlt_shift_inv_l; [exact Hq|]. now rewrite Qmult_1_l. }
    assert (Ha : 1 < a).
    { apply Qlt_le_trans with (z := inject_Z a) in Hinv; [|apply Qle_ceiling].
      change 1%Q with (inject_Z 1) in Hinv. now rewrite <- Zlt_Qlt in Hinv. }
    destruct (Z.log2_up_spec a Ha) as [Hlo Hhi].
    pose proof (Z.log2_up_pos a Ha) as Hj.
    set (j := Z.log2_up a) in *.
    assert (Hup : (/ q <= inject_Z (2 ^ j))%Q).
    { apply Qle_trans with (inject_Z a); [apply Qle_ceiling|].
      now rewrite <- Zle_Qle. }
    assert (Hdown : (inject_Z (2 ^ (j - 1)) < / q)%Q).
    { apply Qle_lt_trans with (inject_Z (a - 1)).
      - rewrite <- Zle_Qle. rewrite <- Z.sub_1_r in Hlo. lia.
      - apply Qceiling_lt. }
    rewrite <- pow2_Z in Hup, Hdown by lia.
    assert (Hp1 : (0 < pow2 j)%Q) by apply pow2_pos.
    assert (Hp2 : (0 < pow2 (j - 1))%Q) by apply pow2_pos.
    assert (Hqq : (/ q * q == 1)%Q).
    { rewrite Qmult_comm. apply Qmult_inv_r. lra. }
    split.
    + rewrite pow2_opp. apply Qle_shift_inv_r; [exact Hp1|].
      rewrite <- Hqq. rewrite (Qmult_comm q).
      apply Qmult_le_compat_r; [exact Hup | lra].
    + replace (- j + 1) with (- (j - 1)) by lia. rewrite pow2_opp.
      apply Qlt_shift_inv_l; [exact Hp2|].
      rewrite <- Hqq. rewrite (Qmult_comm q).
      apply Qmult_lt_compat_r; [exact Hq | exact Hdown].
Qed.

Lemma ilog2_lt (q : Q) (k : Z) : (0 < q)%Q -> (q < pow2 k)%Q -> ilog2 q < k.
Proof.
  intros Hq H. destruct (ilog2_spec q Hq) as [Hlo _].
  apply pow2_lt_inv. now apply Qle_lt_trans with q.
Qed.

Lemma ilog2_ge (q : Q) (k : Z) : (pow2 k <= q)%Q -> k <= ilog2 q.
Proof.
  intros H.
  assert (Hq : (0 < q)%Q) by (eapply Qlt_le_trans; [apply pow2_pos | exact H]).
  destruct (ilog2_spec q Hq) as [_ Hhi].
  assert (k < ilog2 q + 1); [|lia].
  apply pow2_lt_inv. now apply Qle_lt_trans with q.
Qed.

(** *** Rounding to an integer *)

Lemma round_half_even_near (y : Q) :
  (inject_Z (round_half_even y) - (1 # 2) <= y
   /\ y <= inject_Z (round_half_even y) + (1 # 2))%Q.
Proof.
  unfold round_half_even.
  pose proof (Qfloor_le y) as Hlo. pose proof (Qlt_floor y) as Hhi.
  rewrite inject_Z_plus in Hhi. change (inject_Z 1) with 1%Q in Hhi.
  set (f := Qfloor y) in *.
  destruct (Qlt_bool ((y - inject_Z f) * 2) 1) eqn:E1.
  { apply Qlt_bool_iff in E1. split; lra. }
  apply Qlt_bool_false_iff in E1.
  destruct (Qlt_bool 1 ((y - inject_Z f) * 2)) eqn:E2.
  { apply Qlt_bool_iff in E2. rewrite inject_Z_plus.
    change (inject_Z 1) with 1%Q. split; lra. }
  apply Qlt_bool_false_iff in E2.
  destruct (Z.even f); [split; lra|].
  rewrite inject_Z_plus. change (inject_Z 1) with 1%Q. split; lra.
Qed.

Lemma round_half_even_Z (y : Q) (n : Z) :
  (y == inject_Z n)%Q -> round_half_even y = n.
Proof.
  intros H. unfold round_half_even.
  assert (Hf : Qfloor y = n) by (rewrite H; apply Qfloor_Z).
  rewrite Hf.
  assert (E : Qlt_bool ((y - inject_Z n) * 2) 1 = true).
  { apply Qlt_bool_iff. rewrite H. lra. }
  now rewrite E.
Qed.

Lemma round_half_even_le (y : Q) (n : Z) :
  (y <= inject_Z n)%Q -> round_half_even y <= n.
Proof.
  intros H. destruct (round_half_even_near y) as [Hlo _].
  destruct (Z_le_gt_dec (round_half_even y) n) as [|Hgt]; [assumption|].
  exfalso. assert (Hz : n + 1 <= round_half_even y) by lia.
  rewrite Zle_Qle, inject_Z_plus in Hz. change (inject_Z 1) with 1%Q in Hz. lra.
Qed.

Lemma round_half_even_ge (y : Q) (n : Z) :
  (inject_Z n <= y)%Q -> n <= round_half_even y.
Proof.
  intros H. destruct (round_half_even_near y) as [_ Hhi].
  destruct (Z_le_gt_dec n (round_half_even y)) as [|Hgt]; [assumption|].
  exfalso. assert (Hz : round_half_even y + 1 <= n) by lia.
  rewrite Zle_Qle, inject_Z_plus in Hz. change (inject_Z 1) with 1%Q in Hz. lra.
Qed.

(** *** Rounding to a double *)

Lemma rd_zero (q : Q) : (q == 0)%Q -> rd q = 0%Q.
Proof. intros H. unfold rd. apply Qeq_bool_iff in H. now rewrite H. Qed.

Lemma rd_unfold (q : Q) :
  ~ (q == 0)%Q ->
  rd q = (inject_Z (round_half_even (q / pow2 (ulp_exp q))) * pow2 (ulp_exp q))%Q.
Proof.
  intros H. unfold rd. destruct (Qeq_bool q 0) eqn:E; [|reflexivity].
  apply Qeq_bool_iff in E. contradiction.
Qed.

Lemma scaled_back (q : Q) (e : Z) : (q / pow2 e * pow2 e == q)%Q.
Proof.
  unfold Qdiv. rewrite <- Qmult_assoc, (Qmult_comm (/ pow2 e)).
  rewrite Qmult_inv_r, Qmult_1_r; [reflexivity|].
  pose proof (pow2_pos e). lra.
Qed.

Lemma rd_nonneg (q : Q) : (0 <= q)%Q -> (0 <= rd q)%Q.
Proof.
  intros H. destruct (Qeq_dec q 0) as [E|E]; [rewrite (rd_zero q E); lra|].
  rewrite (rd_unfold q E). apply Qmult_le_0_compat.
  - change 0%Q with (inject_Z 0). rewrite <- Zle_Qle.
    apply round_half_even_ge. change (inject_Z 0) with 0%Q.
    apply Qle_shift_div_l; [apply pow2_pos | lra].
  - apply Qlt_le_weak, pow2_pos.
Qed.

Lemma rd_nonpos (q : Q) : (q <= 0)%Q -> (rd q <= 0)%Q.
Proof.
  intros H. destruct (Qeq_dec q 0) as [E|E]; [rewrite (rd_zero q E); lra|].
  rewrite (rd_unfold q E).
  assert (Hn : round_half_even (q / pow2 (ulp_exp q)) <= 0).
  { apply round_half_even_le. change (inject_Z 0) with 0%Q.
    apply Qle_shift_div_r; [apply pow2_pos | lra]. }
  rewrite Zle_Qle in Hn. change (inject_Z 0) with 0%Q in Hn.
  pose proof (pow2_pos (ulp_exp q)) as Hp.
  set (n := inject_Z _) in *. set (p := pow2 _) in *.
  assert (0 <= (- n) * p)%Q by (apply Qmult_le_0_compat; lra). lra.
Qed.

Lemma ulp_exp_le (q : Q) (k : Z) :
  ~ (q == 0)%Q -> (Qabs q < pow2 (k + 53))%Q -> -1074 <= k -> ulp_exp q <= k.
Proof.
  intros Hq H Hk. unfold ulp_exp.
  assert (Hpos : (0 < Qabs q)%Q).
  { destruct (Qlt_le_dec 0 (Qabs q)) as [|Hle]; [assumption|].
    exfalso. apply Hq. pose proof (Qabs_nonneg q).
    assert (E : (Qabs q == 0)%Q) by lra.
    revert E. apply Qabs_case; intros; lra. }
  pose proof (ilog2_lt _ _ Hpos H). lia.
Qed.

Lemma ulp_exp_ge (q : Q) (k : Z) :
  (pow2 (k + 52) <= Qabs q)%Q -> k <= ulp_exp q.
Proof.
  intros H. unfold ulp_exp. pose proof (ilog2_ge _ _ H). lia.
Qed.

(** Rounding does not cross a power of two. *)
Lemma rd_bound (q : Q) (k : Z) :
  -1074 <= k -> (Qabs q <= pow2 k)%Q -> (Qabs (rd q) <= pow2 k)%Q.
Proof.
  intros Hk H. destruct (Qeq_dec q 0) as [E|E].
  { rewrite (rd_zero q E). change (Qabs 0) with 0%Q.
    apply Qlt_le_weak, pow2_pos. }
  rewrite (rd_unfold q E).
  assert (He : ulp_exp q <= k).
  { apply ulp_exp_le; [exact E | | exact Hk].
    eapply Qle_lt_trans; [exact H|].
    apply Qpower_lt_compat_l; [lia | reflexivity]. }
  set (e := ulp_exp q) in *.
  assert (Hsplit : (pow2 k == inject_Z (2 ^ (k - e)) * pow2 e)%Q).
  { rewrite <- pow2_Z by lia. rewrite <- pow2_add. now replace (k - e + e) with k by lia. }
  pose proof (pow2_pos e) as Hp.
  apply Qabs_Qle_condition in H. destruct H as [Hlo Hhi].
  assert (Hn1 : round_half_even (q / pow2 e) <= 2 ^ (k - e)).
  { apply round_half_even_le. apply Qle_shift_div_r; [exact Hp|].
    now rewrite <- Hsplit. }
  assert (Hn2 : - 2 ^ (k - e) <= round_half_even (q / pow2 e)).
  { apply round_half_even_ge. apply Qle_shift_div_l; [exact Hp|].
    rewrite inject_Z_opp. rewrite Hsplit in Hlo.
    set (m := inject_Z (2 ^ (k - e))) in *. set (p := pow2 e) in *. lra. }
  rewrite Zle_Qle in Hn1, Hn2. rewrite inject_Z_opp in Hn2.
  apply Qabs_Qle_condition. rewrite Hsplit.
  set (n := inject_Z (round_half_even _)) in *.
  set (m := inject_Z (2 ^ (k - e))) in *. set (p := pow2 e) in *.
  assert (0 <= (m - n) * p)%Q by (apply Qmult_le_0_compat; lra).
  assert (0 <= (n + m) * p)%Q by (apply Qmult_le_0_compat; lra).
  split; lra.
Qed.

(** The rounding error below 2. *)
Lemma rd_error (q : Q) :
  (Qabs q < 2)%Q -> (Qabs (rd q - q) <= pow2 (-53))%Q.
Proof.
  intros H. destruct (Qeq_dec q 0) as [E|E].
  { rewrite (rd_zero q E). rewrite E. vm_compute. discriminate. }
  rewrite (rd_unfold q E).
  assert (He : ulp_exp q <= -52).
  { apply ulp_exp_le; [exact E | exact H | lia]. }
  set (e := ulp_exp q) in *.
  destruct (round_half_even_near (q / pow2 e)) as [Hlo Hhi].
  pose proof (pow2_pos e) as Hp.
  pose proof (scaled_back q e) as Hback.
  assert (Hhalf : (pow2 e * (1 # 2) <= pow2 (-53))%Q).
  { change (1 # 2)%Q with (pow2 (-1)).
    rewrite <- pow2_add. apply pow2_le. lia. }
  apply Qabs_Qle_condition.
  set (n := inject_Z (round_half_even _)) in *.
  set (y := (q / pow2 e)%Q) in *. set (p := pow2 e) in *.
  assert (0 <= (y - n + (1 # 2)) * p)%Q by (apply Qmult_le_0_compat; lra).
  assert (0 <= (n + (1 # 2) - y) * p)%Q by (apply Qmult_le_0_compat; lra).
  split; lra.
Qed.

(** Multiples of [2 ** g]. *)
Definition on_grid (g : Z) (q : Q) : Prop :=
  exists z : Z, (q == inject_Z z * pow2 g)%Q.

Lemma on_grid_plus (g : Z) (a b : Q) :
  on_grid g a -> on_grid g b -> on_grid g (a + b).
Proof.
  intros [x Hx] [y Hy]. exists (x + y).
  rewrite Hx, Hy, inject_Z_plus. ring.
Qed.

Lemma on_grid_Z_mult (g : Z) (n : Z) (a : Q) :
  on_grid g a -> on_grid g (inject_Z n * a).
Proof.
  intros [x Hx]. exists (n * x). rewrite Hx, inject_Z_mult. ring.
Qed.

Lemma on_grid_opp (g : Z) (a : Q) : on_grid g a -> on_grid g (- a).
Proof.
  intros [x Hx]. exists (- x). rewrite Hx, inject_Z_opp. ring.
Qed.

Lemma on_grid_coarser (g e : Z) (n : Z) :
  g <= e -> on_grid g (inject_Z n * pow2 e).
Proof.
  intros H. exists (n * 2 ^ (e - g)).
  rewrite inject_Z_mult, <- pow2_Z by lia.
  rewrite <- Qmult_assoc, <- pow2_add. now replace (e - g + g) with e by lia.
Qed.

(** A double of magnitude [2 ** (g + 52)] or more is a multiple of
    [2 ** g]. *)
Lemma rd_on_grid (g : Z) (v : Q) :
  (pow2 (g + 52) <= Qabs v)%Q -> on_grid g (rd v).
Proof.
  intros H. destruct (Qeq_dec v 0) as [E|E].
  { rewrite (rd_zero v E). exists 0. ring. }
  rewrite (rd_unfold v E). apply on_grid_coarser. now apply ulp_exp_ge.
Qed.

(** A multiple of [2 ** g] below [2 ** (g + 53)] is a double. *)
Lemma rd_exact (g : Z) (v : Q) :
  -1074 <= g -> on_grid g v -> (Qabs v < pow2 (g + 53))%Q -> (rd v == v)%Q.
Proof.
  intros Hg [z Hz] H. destruct (Qeq_dec v 0) as [E|E].
  { rewrite (rd_zero v E). now rewrite E. }
  rewrite (rd_unfold v E).
  assert (He : ulp_exp v <= g) by (apply ulp_exp_le; assumption).
  set (e := ulp_exp v) in *.
  assert (Hy : (v / pow2 e == inject_Z (z * 2 ^ (g - e)))%Q).
  { rewrite Hz, inject_Z_mult, <- pow2_Z by lia.
    apply Qmult_inj_r with (pow2 e); [pose proof (pow2_pos e); lra|].
    rewrite scaled_back. rewrite <- Qmult_assoc, <- pow2_add.
    now replace (g - e + e) with g by lia. }
  rewrite (round_half_even_Z _ _ Hy), <- Hy. apply scaled_back.
Qed.

(** *** Agreement with the Standard Library's binary64

    [SpecFloat] is the library's formalisation of IEEE 754.  On the
    samples below, which hold ties, subnormal numbers and overflow,
    [of_Q], [add] and [sub] give what its division, addition and
    subtraction give at 53 bits of precision. *)

Definition of_spec (x : SpecFloat.spec_float) : pyfloat :=
  match x with
  | SpecFloat.S754_zero _ => Fin 0
  | SpecFloat.S754_infinity s => Inf s
  | SpecFloat.S754_nan => NaN
  | SpecFloat.S754_finite s m e =>
      Fin ((if s then - inject_Z (Z.pos m) else inject_Z (Z.pos m)) * pow2 e)
  end.

Definition same (x y : pyfloat) : bool :=
  match x, y with
  | Fin a, Fin b => Qeq_bool a b
  | Inf s, Inf t => Bool.eqb s t
  | NaN, NaN => true
  | _, _ => false
  end.

(** The binary64 number nearest to [a / b], by the library's division. *)
Definition binary64 (a b : Z) : SpecFloat.spec_float :=
  let b := Z.to_pos b in
  match a with
  | Z0 => SpecFloat.S754_zero false
  | Z.pos p => SpecFloat.SFdiv 53 1024 (SpecFloat.S754_finite false p 0)
                               (SpecFloat.S754_finite false b 0)
  | Z.neg p => SpecFloat.SFdiv 53 1024 (SpecFloat.S754_finite true p 0)
                               (SpecFloat.S754_finite false b 0)
  end.

Definition sample_quotients : list (Z * Z) :=
  [ (1, 10); (226, 10); (1, 3); (2, 3); (1, 2000); (5, 2000); (1, 1000);
    (3, 1000); (333, 1000); (667, 1000); (-7, 9); (123456789, 1000);
    (2 ^ 60 + 1, 1); (1, 2 ^ 1074); (3, 2 ^ 1075); (2 ^ 1024 - 2 ^ 970, 1) ].

Definition sample_pairs : list ((Z * Z) * (Z * Z)) :=
  [ ((226, 10), (1, 10)); ((1, 10), (226, 10)); ((-3600, 10), (1, 3));
    ((1, 3), (2, 3)); ((45, 2), (360, 1)); ((-1, 10 ^ 20), (360, 1));
    ((2 ^ 1023, 1), (2 ^ 1023, 1)); ((1, 2 ^ 1074), (3, 2 ^ 1074)) ].

Lemma agrees_with_binary64_on_samples :
  forallb (fun '(a, b) => same (of_spec (binary64 a b)) (of_Q (a # Z.to_pos b)))
          sample_quotients = true
  /\ forallb (fun '((a, b), (c, d)) =>
                same (of_spec (SpecFloat.SFadd 53 1024 (binary64 a b) (binary64 c d)))
                     (add (of_Q (a # Z.to_pos b)) (of_Q (c # Z.to_pos d)))
                && same (of_spec (SpecFloat.SFsub 53 1024 (binary64 a b) (binary64 c d)))
                        (sub (of_Q (a # Z.to_pos b)) (of_Q (c # Z.to_pos d))))
             sample_pairs = true.
Proof. split; vm_compute; reflexivity. Qed.

End FloatFacts.

(** ** Dictionaries *)

Module PyDictFacts.
Section Facts.
Context {A : Type}.
Implicit Types (d : PyDict.t A) (k : string) (v : A).

Lemma get_set_eq k v d : PyDict.get k (PyDict.set k v d) = Some v.
Proof.
  induction d as [|[k' v'] r IH]; simpl.
  - now rewrite String.eqb_refl.
  - destruct (String.eqb k k') eqn:E; simpl; rewrite ?String.eqb_refl, ?E; auto.
Qed.

Lemma get_set_ne k k' v d :
  k <> k' -> PyDict.get k' (PyDict.set k v d) = PyDict.get k' d.
Proof.
  intros Hne. induction d as [|[k0 v0] r IH]; simpl.
  - destruct (String.eqb k' k) eqn:E; [|reflexivity].
    apply String.eqb_eq in E. congruence.
  - destruct (String.eqb k k0) eqn:E; simpl.
    + apply String.eqb_eq in E. subst k0.
      destruct (String.eqb k' k) eqn:E'; [|reflexivity].
      apply String.eqb_eq in E'. congruence.
    + now rewrite IH.
Qed.

Lemma length_set k v d :
  length (PyDict.set k v d)
  = if PyDict.mem k d then length d else S (length d).
Proof.
  unfold PyDict.mem.
  induction d as [|[k' v'] r IH]; simpl; [reflexivity|].
  destruct (String.eqb k k'); simpl; [reflexivity|].
  rewrite IH. now destruct (PyDict.get k r).
Qed.

Lemma length_set_le k v d : (length (PyDict.set k v d) <= S (length d))%nat.
Proof. rewrite length_set. destruct (PyDict.mem k d); lia. Qed.

Lemma length_del k d :
  PyDict.mem k d = true -> S (length (PyDict.del k d)) = length d.
Proof.
  unfold PyDict.mem.
  induction d as [|[k' v'] r IH]; simpl; [discriminate|].
  destruct (String.eqb k k'); simpl; [reflexivity|].
  intros H. now rewrite IH.
Qed.

Lemma length_del_le k d : (length (PyDict.del k d) <= length d)%nat.
Proof.
  induction d as [|[k' v'] r IH]; simpl; [lia|].
  destruct (String.eqb k k'); simpl; lia.
Qed.

Lemma get_del_ne k k' d :
  k <> k' -> PyDict.get k' (PyDict.del k d) = PyDict.get k' d.
Proof.
  intros Hne. induction d as [|[k0 v0] r IH]; simpl; [reflexivity|].
  destruct (String.eqb k k0) eqn:E; simpl.
  - apply String.eqb_eq in E. subst k0.
    destruct (String.eqb k' k) eqn:E'; [|reflexivity].
    apply String.eqb_eq in E'. congruence.
  - now rewrite IH.
Qed.

Lemma get_Some_In k v d : PyDict.get k d = Some v -> In (k, v) d.
Proof.
  induction d as [|[k' v'] r IH]; simpl; [discriminate|].
  destruct (String.eqb k k') eqn:E.
  - apply String.eqb_eq in E. intros [= ->]. left. congruence.
  - intros H. right. auto.
Qed.

Lemma In_keys k v d : In (k, v) d -> In k (PyDict.keys d).
Proof. intros H. unfold PyDict.keys. apply (in_map fst) in H. exact H. Qed.

Lemma In_get k v d :
  NoDup (PyDict.keys d) -> In (k, v) d -> PyDict.get k d = Some v.
Proof.
  induction d as [|[k' v'] r IH]; simpl; [tauto|].
  intros Hnd [Heq | Hin].
  - injection Heq as -> ->. now rewrite String.eqb_refl.
  - inversion Hnd as [|? ? Hnot Hnd']; subst.
    destruct (String.eqb k k') eqn:E.
    + apply String.eqb_eq in E. subst k'. exfalso. apply Hnot.
      apply list_elem_of_In. exact (In_keys _ _ _ Hin).
    + auto.
Qed.

Lemma keys_del_incl k d x : In x (PyDict.keys (PyDict.del k d)) -> In x (PyDict.keys d).
Proof.
  induction d as [|[k' v'] r IH]; simpl; [tauto|].
  destruct (String.eqb k k'); simpl; tauto.
Qed.

Lemma NoDup_del k d : NoDup (PyDict.keys d) -> NoDup (PyDict.keys (PyDict.del k d)).
Proof.
  induction d as [|[k' v'] r IH]; simpl; [auto|].
  intros Hnd. inversion Hnd as [|? ? Hnot Hnd']; subst.
  destruct (String.eqb k k'); simpl; [assumption|].
  constructor; [|auto].
  rewrite list_elem_of_In in *. intros Hin. apply Hnot.
  exact (keys_del_incl _ _ _ Hin).
Qed.

Lemma keys_set_incl k v d x :
  In x (PyDict.keys (PyDict.set k v d)) -> x = k \/ In x (PyDict.keys d).
Proof.
  induction d as [|[k' v'] r IH]; simpl.
  - intros [H|[]]; auto.
  - destruct (String.eqb k k') eqn:E; simpl.
    + apply String.eqb_eq in E. subst k'. tauto.
    + intros [H|H]; [tauto|]. apply IH in H. tauto.
Qed.

Lemma NoDup_set k v d : NoDup (PyDict.keys d) -> NoDup (PyDict.keys (PyDict.set k v d)).
Proof.
  induction d as [|[k' v'] r IH]; simpl.
  - intros _. constructor; [|constructor]. apply not_elem_of_nil.
  - intros Hnd. inversion Hnd as [|? ? Hnot Hnd']; subst.
    destruct (String.eqb k k') eqn:E; simpl.
    + apply String.eqb_eq in E. subst k'. constructor; assumption.
    + constructor; [|auto].
      rewrite list_elem_of_In in *. intros Hin.
      apply keys_set_incl in Hin. destruct Hin as [-> | Hin]; [|tauto].
      rewrite String.eqb_refl in E. discriminate.
Qed.

Lemma mem_true_iff k d : PyDict.mem k d = true <-> exists v, PyDict.get k d = Some v.
Proof.
  unfold PyDict.mem. destruct (PyDict.get k d); split; eauto; try discriminate.
  intros [v [=]].
Qed.
End Facts.
End PyDictFacts.

(** ** The cache *)

Module CacheFacts.
Section Facts.
Context {P : Platform}.
Import Cache.

Lemma oldest_from_spec (d : PyDict.t (Q * pyval)) : forall best bts,
  let k := oldest_from best bts d in
  (k = best /\ forall k' ts' v', In (k', (ts', v')) d -> (bts <= ts')%Q)
  \/ (exists ts v, In (k, (ts, v)) d /\ (ts <= bts)%Q
        /\ forall k' ts' v', In (k', (ts', v')) d -> (ts <= ts')%Q).
Proof.
  induction d as [|[k0 [t0 v0]] r IH]; intros best bts; simpl.
  - left. split; [reflexivity|]. intros ? ? ? [].
  - destruct (Qlt_bool t0 bts) eqn:E.
    + apply Qlt_bool_iff in E. right.
      destruct (IH k0 t0) as [[Hk Hall] | (ts & v & Hin & Hle & Hall)].
      * exists t0, v0. rewrite Hk. split; [now left|].
        split; [now apply Qlt_le_weak|].
        intros k' ts' v' [Heq | Hin].
        -- injection Heq as _ <- _. apply Qle_refl.
        -- eauto.
      * exists ts, v. split; [now right|].
        split; [apply Qle_trans with t0; [assumption | now apply Qlt_le_weak]|].
        intros k' ts' v' [Heq | Hin'].
        -- injection Heq as _ <- _. assumption.
        -- eauto.
    + apply Qlt_bool_false_iff in E.
      destruct (IH best bts) as [[Hk Hall] | (ts & v & Hin & Hle & Hall)].
      * left. split; [assumption|].
        intros k' ts' v' [Heq | Hin].
        -- injection Heq as _ <- _. assumption.
        -- eauto.
      * right. exists ts, v. split; [now right|]. split; [assumption|].
        intros k' ts' v' [Heq | Hin'].
        -- injection Heq as _ <- _. now apply Qle_trans with bts.
        -- eauto.
Qed.

(** On a non-empty dict with unique keys, [min] finds a key whose
    timestamp no other timestamp undercuts. *)
Lemma oldest_key_spec (d : PyDict.t (Q * pyval)) :
  NoDup (PyDict.keys d) -> d <> [] ->
  exists k ts v,
    oldest_key d = Returned k
    /\ PyDict.get k d = Some (ts, v)
    /\ forall k' ts' v', PyDict.get k' d = Some (ts', v') -> (ts <= ts')%Q.
Proof.
  intros Hnd Hne. destruct d as [|[k0 [t0 v0]] r]; [congruence|].
  simpl oldest_key.
  destruct (oldest_from_spec r k0 t0) as [[Hk Hall] | (ts & v & Hin & Hle & Hall)].
  - exists k0, t0, v0. rewrite Hk. split; [reflexivity|]. split.
    + simpl. now rewrite String.eqb_refl.
    + intros k' ts' v' Hget. apply PyDictFacts.get_Some_In in Hget.
      destruct Hget as [Heq | Hin].
      * injection Heq as _ <- _. apply Qle_refl.
      * eauto.
  - exists (oldest_from k0 t0 r), ts, v. split; [reflexivity|]. split.
    + apply PyDictFacts.In_get; [assumption | now right].
    + intros k' ts' v' Hget. apply PyDictFacts.get_Some_In in Hget.
      destruct Hget as [Heq | Hin'].
      * injection Heq as _ <- _. assumption.
      * eauto.
Qed.

(** What every operation keeps true of an instance. *)
Definition well_formed (max_size : Z) (c : ImageCache) : Prop :=
  _max_size c = max_size
  /\ NoDup (PyDict.keys (_cache c))
  /\ Z.of_nat (length (_cache c)) <= max_size.

Lemma init_well_formed ttl max_size :
  0 <= max_size -> well_formed max_size (init ttl max_size).
Proof.
  intros H. repeat split; simpl; [constructor | assumption].
Qed.

Lemma get_well_formed m lat lng params now c :
  well_formed m c -> well_formed m (snd (get lat lng params now c)).
Proof.
  intros (Hm & Hnd & Hlen). unfold get.
  destruct (PyDict.get _ _) as [[ts v]|]; [|repeat split; assumption].
  destruct (Qlt_bool _ _); [repeat split; assumption|].
  repeat split; simpl; [assumption | now apply PyDictFacts.NoDup_del |].
  pose proof (PyDictFacts.length_del_le (_make_key lat lng params) (_cache c)). lia.
Qed.

Lemma set_well_formed m lat lng value params now c c' :
  1 <= m -> well_formed m c ->
  set lat lng value params now c = Returned c' -> well_formed m c'.
Proof.
  intros Hpos (Hm & Hnd & Hlen). unfold set.
  destruct (_max_size c <=? Z.of_nat (length (_cache c))) eqn:Efull.
  - apply Z.leb_le in Efull.
    destruct (oldest_key_spec (_cache c) Hnd) as (k & ts & v & Hk & Hget & _).
    { intros Hnil. rewrite Hnil in Efull. simpl in Efull. lia. }
    rewrite Hk. intros [= <-]. repeat split; simpl; [assumption | |].
    + apply PyDictFacts.NoDup_set. now apply PyDictFacts.NoDup_del.
    + pose proof (PyDictFacts.length_set_le (_make_key lat lng params) (now, value)
                    (PyDict.del k (_cache c))).
      assert (Hmem : PyDict.mem k (_cache c) = true)
        by (apply PyDictFacts.mem_true_iff; eauto).
      apply PyDictFacts.length_del in Hmem. lia.
  - apply Z.leb_gt in Efull. intros [= <-]. repeat split; simpl; [assumption | |].
    + now apply PyDictFacts.NoDup_set.
    + pose proof (PyDictFacts.length_set_le (_make_key lat lng params) (now, value)
                    (_cache c)). lia.
Qed.

Lemma step_well_formed m c o :
  1 <= m -> well_formed m c -> well_formed m (step c o).
Proof.
  intros Hpos Hwf. destruct o; simpl.
  - now apply get_well_formed.
  - destruct (set lat lng value params now c) eqn:E; [|assumption].
    eapply set_well_formed; eauto.
  - destruct Hwf as (Hm & Hnd & Hlen). unfold invalidate.
    destruct (PyDict.mem _ _); [|repeat split; assumption].
    repeat split; simpl; [assumption | now apply PyDictFacts.NoDup_del |].
    pose proof (PyDictFacts.length_del_le (_make_key lat lng params) (_cache c)). lia.
  - destruct Hwf as (Hm & Hnd & Hlen).
    repeat split; simpl; [assumption | constructor | lia].
  - assumption.
  - destruct Hwf as (Hm & Hnd & Hlen). repeat split; assumption.
Qed.

Lemma run_well_formed m ops : forall c,
  1 <= m -> well_formed m c -> well_formed m (run ops c).
Proof.
  unfold run. induction ops as [|o ops IH]; intros c Hpos Hwf; simpl.
  - assumption.
  - apply IH; [assumption|]. now apply step_well_formed.
Qed.

(** C1, for instances with room for an entry.  Whatever calls an
    instance created with a maximum of at least one has served, it
    holds no more entries than its maximum; and a
    [set] that finds it at capacity first deletes one entry, whose
    timestamp is the smallest of all, keeps every other entry, and
    then stores the new one. *)
Theorem capacity_bound_and_eviction
    (ttl max_size : Z) (ops : list op)
    (lat lng : Q) (value : pyval) (params : list (string * pyval)) (now : Q) :
  1 <= max_size ->
  let c := run ops (init ttl max_size) in
  Z.of_nat (length (_cache c)) <= _max_size c
  /\ (_max_size c <= Z.of_nat (length (_cache c)) ->
      exists oldest ts v,
        PyDict.get oldest (_cache c) = Some (ts, v)
        /\ (forall k ts' v', PyDict.get k (_cache c) = Some (ts', v') -> (ts <= ts')%Q)
        /\ S (length (PyDict.del oldest (_cache c))) = length (_cache c)
        /\ (forall k, k <> oldest ->
              PyDict.get k (PyDict.del oldest (_cache c)) = PyDict.get k (_cache c))
        /\ set lat lng value params now c
           = Returned (with_cache
                         (PyDict.set (_make_key lat lng params) (now, value)
                            (PyDict.del oldest (_cache c))) c)).
Proof.
  intros Hpos c.
  assert (Hwf : well_formed max_size c).
  { apply run_well_formed; [assumption|]. apply init_well_formed. lia. }
  destruct Hwf as (Hm & Hnd & Hlen). split; [lia|].
  intros Hfull.
  destruct (oldest_key_spec (_cache c) Hnd) as (k & ts & v & Hk & Hget & Hmin).
  { intros Hnil. rewrite Hnil in Hfull. simpl in Hfull. lia. }
  exists k, ts, v. split; [assumption|]. split; [assumption|]. split.
  { apply PyDictFacts.length_del. apply PyDictFacts.mem_true_iff. eauto. }
  split.
  { intros k' Hne. apply PyDictFacts.get_del_ne. congruence. }
  unfold set. apply Z.leb_le in Hfull. rewrite Hfull, Hk. reflexivity.
Qed.

(** C2. A [get] that finds an entry younger than the TTL counts a hit
    and returns the payload, leaving the store alone; one that finds an
    entry at least as old as the TTL deletes it, counts a miss and
    returns [None]; one that finds nothing counts a miss and returns
    [None]. *)
Theorem get_hit_expired_absent
    (lat lng : Q) (params : list (string * pyval)) (now : Q) (c : ImageCache) :
  let key := _make_key lat lng params in
  (forall ts v,
      PyDict.get key (_cache c) = Some (ts, v) ->
      (now - ts < inject_Z (_ttl c))%Q ->
      get lat lng params now c = (v, count_hit c)
      /\ _hits (count_hit c) = _hits c + 1
      /\ _misses (count_hit c) = _misses c
      /\ _cache (count_hit c) = _cache c)
  /\ (forall ts v,
      PyDict.get key (_cache c) = Some (ts, v) ->
      (inject_Z (_ttl c) <= now - ts)%Q ->
      let c' := snd (get lat lng params now c) in
      fst (get lat lng params now c) = VNone
      /\ _cache c' = PyDict.del key (_cache c)
      /\ _misses c' = _misses c + 1
      /\ _hits c' = _hits c)
  /\ (PyDict.get key (_cache c) = None ->
      get lat lng params now c = (VNone, count_miss c)
      /\ _misses (count_miss c) = _misses c + 1
      /\ _hits (count_miss c) = _hits c
      /\ _cache (count_miss c) = _cache c).
Proof.
  intros key. split; [|split].
  - intros ts v Hget Hfresh. unfold get. fold key. rewrite Hget.
    apply Qlt_bool_iff in Hfresh. rewrite Hfresh. repeat split.
  - intros ts v Hget Hold. unfold get. fold key. rewrite Hget.
    apply Qlt_bool_false_iff in Hold. rewrite Hold. repeat split.
  - intros Hnone. unfold get. fold key. rewrite Hnone. repeat split.
Qed.

(** C6. After a [set] that returned, a [get] with the same coordinates
    and parameters, made before the TTL has run out on the new entry,
    returns the very value that was stored, as a hit. *)
Theorem get_after_set
    (lat lng : Q) (value : pyval) (params : list (string * pyval))
    (t_set t_get : Q) (c c' : ImageCache) :
  set lat lng value params t_set c = Returned c' ->
  (t_get - t_set < inject_Z (_ttl c))%Q ->
  get lat lng params t_get c' = (value, count_hit c').
Proof.
  intros Hset Hfresh. unfold set in Hset.
  destruct (if _max_size c <=? Z.of_nat (length (_cache c))
            then match oldest_key (_cache c) with
                 | Returned oldest => Returned (PyDict.del oldest (_cache c))
                 | Raised e => Raised e
                 end
            else Returned (_cache c)) as [d|e]; [|discriminate].
  injection Hset as <-. unfold get. simpl.
  rewrite PyDictFacts.get_set_eq.
  apply Qlt_bool_iff in Hfresh. now rewrite Hfresh.
Qed.

Lemma step_counters_nonneg (c : ImageCache) (o : op) :
  0 <= _hits c -> 0 <= _misses c ->
  0 <= _hits (step c o) /\ 0 <= _misses (step c o).
Proof.
  intros Hh Hm. destruct o as [lat lng params now | lat lng value params now
                              | lat lng params | | | name]; simpl.
  - unfold get. destruct (PyDict.get _ (_cache c)) as [[ts v]|]; [|simpl; lia].
    destruct (Qlt_bool _ _); simpl; lia.
  - destruct (set lat lng value params now c) as [c'|e] eqn:E; [|lia].
    unfold set in E.
    destruct (_max_size c <=? Z.of_nat (length (_cache c)));
      [destruct (oldest_key (_cache c)); [|discriminate]|];
      injection E as <-; simpl; lia.
  - unfold invalidate. destruct (PyDict.mem _ (_cache c)); simpl; lia.
  - lia.
  - lia.
  - lia.
Qed.

(** The counters of an instance are never negative. *)
Lemma run_counters_nonneg (ops : list op) : forall c : ImageCache,
  0 <= _hits c -> 0 <= _misses c ->
  0 <= _hits (run ops c) /\ 0 <= _misses (run ops c).
Proof.
  unfold run. induction ops as [|o ops IH]; intros c Hh Hm; simpl.
  - auto.
  - destruct (step_counters_nonneg c o Hh Hm). now apply IH.
Qed.

(** What [round(hits / total, 3)] is for the counters of an instance:
    the double nearest to [n / 1000] for an [n] from 0 to 1000 that is
    no further than 1/2000 from the double nearest to the quotient. *)
Lemma hit_rate_value (hits total : Z) :
  0 <= hits <= total -> 0 < total ->
  let x := (inject_Z hits / inject_Z total)%Q in
  let q := hit_ratio hits total in
  exists n : Z,
    0 <= n <= 1000
    /\ round3 q = Float.rd (inject_Z n / 1000)
    /\ (Qabs (q - x) <= Float.pow2 (-53))%Q
    /\ (Qabs (inject_Z n / 1000 - q) <= 1 # 2000)%Q
    /\ (Qabs (round3 q - inject_Z n / 1000) <= Float.pow2 (-53))%Q
    /\ (0 <= round3 q <= 1)%Q.
Proof.
  intros Hh Ht x q.
  assert (Htq : (0 < inject_Z total)%Q) by (rewrite <- (Zlt_Qlt 0); lia).
  assert (Hx : (0 <= x <= 1)%Q).
  { split.
    - apply Qle_shift_div_l; [exact Htq|]. rewrite Qmult_0_l.
      rewrite <- (Zle_Qle 0). lia.
    - apply Qle_shift_div_r; [exact Htq|]. rewrite Qmult_1_l.
      rewrite <- Zle_Qle. lia. }
  assert (Hunit : forall y : Q, (0 <= y <= 1)%Q ->
             (0 <= Float.rd y <= 1)%Q
             /\ (Qabs (Float.rd y - y) <= Float.pow2 (-53))%Q).
  { intros y [Hy0 Hy1]. split; [split|].
    - now apply FloatFacts.rd_nonneg.
    - assert (Hb : (Qabs (Float.rd y) <= Float.pow2 0)%Q).
      { apply FloatFacts.rd_bound; [lia|].
        change (Float.pow2 0) with 1%Q. apply Qabs_Qle_condition. split; lra. }
      change (Float.pow2 0) with 1%Q in Hb.
      apply Qabs_Qle_condition in Hb. lra.
    - apply FloatFacts.rd_error. apply Qabs_Qlt_condition. split; lra. }
  destruct (Hunit x Hx) as [Hq Hqe].
  change (Float.rd x) with q in Hq, Hqe. clearbody q.
  set (n := Float.round_half_even (q * 1000)).
  destruct (FloatFacts.round_half_even_near (q * 1000)) as [Hlo Hhi].
  fold n in Hlo, Hhi.
  assert (Hn0 : 0 <= n).
  { apply FloatFacts.round_half_even_ge. change (inject_Z 0) with 0%Q. lra. }
  assert (Hn1 : n <= 1000).
  { apply FloatFacts.round_half_even_le. change (inject_Z 1000) with 1000%Q. lra. }
  assert (Hy : (0 <= inject_Z n / 1000 <= 1)%Q).
  { rewrite Zle_Qle in Hn0, Hn1.
    change (inject_Z 0) with 0%Q in Hn0. change (inject_Z 1000) with 1000%Q in Hn1.
    unfold Qdiv. change (/ 1000)%Q with (1 # 1000)%Q. split; lra. }
  destruct (Hunit _ Hy) as [Hv Hve].
  exists n. split; [lia|]. split; [reflexivity|]. split; [exact Hqe|].
  split; [|split; [exact Hve | exact Hv]].
  unfold Qdiv. change (/ 1000)%Q with (1 # 1000)%Q.
  apply Qabs_Qle_condition. split; lra.
Qed.

(** C10, as the code has it.  For every instance, [stats] reports the
    name, the two counters, the number of entries, the maximum and the
    TTL; its [hit_rate] is the integer 0 while no lookup was counted,
    and otherwise [round(hits / total, 3)]: the double nearest to
    [n / 1000] for an [n] from 0 to 1000, where [n / 1000] is within
    1/2000 of the double nearest to [hits / total]; so the rate lies
    between 0 and 1 and within [1/2000 + 2 ** -52] of the quotient. *)
Theorem stats_reports_rounded_hit_rate (ttl max_size : Z) (ops : list op) :
  let c := run ops (init ttl max_size) in
  let total := _hits c + _misses c in
  let quotient := (inject_Z (_hits c) / inject_Z total)%Q in
  PyDict.get "name" (stats c) = Some (VStr (_name c))
  /\ PyDict.get "hits" (stats c) = Some (VInt (_hits c))
  /\ PyDict.get "misses" (stats c) = Some (VInt (_misses c))
  /\ PyDict.get "size" (stats c) = Some (VInt (Z.of_nat (length (_cache c))))
  /\ PyDict.get "max_size" (stats c) = Some (VInt (_max_size c))
  /\ PyDict.get "ttl_seconds" (stats c) = Some (VInt (_ttl c))
  /\ (total <= 0 -> PyDict.get "hit_rate" (stats c) = Some (VInt 0))
  /\ (0 < total ->
      exists (n : Z) (rate : Q),
        PyDict.get "hit_rate" (stats c) = Some (VFloat rate)
        /\ 0 <= n <= 1000
        /\ rate = Float.rd (inject_Z n / 1000)
        /\ (Qabs (inject_Z n / 1000 - Float.rd quotient) <= 1 # 2000)%Q
        /\ (Qabs (Float.rd quotient - quotient) <= Float.pow2 (-53))%Q
        /\ (Qabs (rate - inject_Z n / 1000) <= Float.pow2 (-53))%Q
        /\ (Qabs (rate - quotient) <= (1 # 2000) + Float.pow2 (-52))%Q
        /\ (0 <= rate <= 1)%Q).
Proof.
  intros c total quotient. repeat (split; [reflexivity|]). split.
  - intros Hzero. unfold stats. fold total.
    destruct (0 <? total) eqn:E; [apply Z.ltb_lt in E; lia | reflexivity].
  - intros Hpos.
    destruct (run_counters_nonneg ops (init ttl max_size)) as [Hh Hm];
      [simpl; lia | simpl; lia |].
    fold c in Hh, Hm.
    destruct (hit_rate_value (_hits c) total ltac:(unfold total; lia) Hpos)
      as (n & Hn & Hrate & Hqe & Hnq & Hve & Hrange).
    unfold hit_ratio in Hqe, Hnq.
    change (inject_Z (_hits c) / inject_Z total)%Q with quotient in Hqe, Hnq.
    exists n, (round3 (hit_ratio (_hits c) total)).
    split.
    { unfold stats. fold total. apply Z.ltb_lt in Hpos. now rewrite Hpos. }
    split; [exact Hn|]. split; [exact Hrate|]. split; [exact Hnq|].
    split; [exact Hqe|]. split; [exact Hve|]. split; [|exact Hrange].
    assert (Hp : (Float.pow2 (-52) == Float.pow2 (-53) + Float.pow2 (-53))%Q)
      by reflexivity.
    apply Qabs_Qle_condition in Hqe, Hnq, Hve.
    apply Qabs_Qle_condition. rewrite Hp.
    set (v := round3 _) in *. set (y := (inject_Z n / 1000)%Q) in *.
    set (q := Float.rd quotient) in *. set (e := Float.pow2 (-53)) in *.
    clearbody v y q e quotient. split; lra.
Qed.

End Facts.
End CacheFacts.

(** C1 refuted as the spec words it.  An instance with a maximum of 0
    is at capacity while empty, and [set] then raises without removing
    or storing anything; an instance with a negative maximum holds
    more entries than its maximum from the start. *)
Lemma capacity_fails_without_room :
  let c0 := Cache.init 3600 0 in
  let c1 := Cache.init 3600 (-1) in
  Cache._max_size c0 <= Z.of_nat (length (Cache._cache c0))
  /\ (exists msg,
        Cache.set (P := plain_platform) 1 2 (VStr "A") [] 10 c0
        = Raised (ValueError msg))
  /\ Cache._max_size c1 < Z.of_nat (length (Cache._cache c1)).
Proof.
  intros c0 c1. split; [vm_compute; discriminate|].
  split; [eexists; reflexivity | reflexivity].
Qed.

(** C10 refuted as the spec words it: after one hit and two misses the
    rate reported is the double nearest to 0.333, which is neither the
    quotient 1/3 nor the double nearest to it. *)
Lemma stats_hit_rate_is_not_the_quotient :
  let c := Cache.run (P := plain_platform)
             [ Cache.OpGet 1 2 [] 10; Cache.OpGet 1 2 [] 11;
               Cache.OpSet 1 2 (VStr "payload") [] 12; Cache.OpGet 1 2 [] 13 ]
             (Cache.init 3600 100) in
  let quotient :=
    (inject_Z (Cache._hits c) / inject_Z (Cache._hits c + Cache._misses c))%Q in
  Cache._hits c = 1 /\ Cache._misses c = 2
  /\ exists q, PyDict.get "hit_rate" (Cache.stats c) = Some (VFloat q)
       /\ (q == Float.rd (333 # 1000))%Q
       /\ ~ (q == quotient)%Q
       /\ ~ (q == Float.rd quotient)%Q.
Proof.
  intros c quotient. split; [reflexivity|]. split; [reflexivity|].
  eexists. split; [reflexivity|].
  split; [vm_compute; reflexivity|].
  split; vm_compute; discriminate.
Qed.

(** ** Relative direction *)

Module GeoMathFacts.
Import Float FloatFacts GeoMath.

(** Decide every comparison in the goal and drop the impossible cases. *)
Ltac decide_comparisons :=
  repeat match goal with
    | |- context [Qle_bool ?a ?b] =>
        let E := fresh "E" in
        destruct (Qle_bool a b) eqn:E;
        [ apply Qle_bool_iff in E | apply Qle_bool_false_iff in E ];
        simpl; try reflexivity; try (exfalso; lra)
    end.

(** The label the code gives inside each of the spec's sectors. *)
Lemma direction_in_sector (k : nat) (relative : Q) :
  in_sector k relative ->
  direction_of_relative (Fin relative) = nth k labels "".
Proof.
  do 8 (try destruct k as [|k]); simpl in_sector; try tauto;
    intros H; unfold direction_of_relative, leb, ltb, Qlt_bool; simpl nth.
  - destruct H as [H | H]; decide_comparisons.
  - destruct H as [H1 H2]; decide_comparisons.
  - destruct H as [H1 H2]; decide_comparisons.
  - destruct H as [H1 H2]; decide_comparisons.
  - destruct H as [H1 H2]; decide_comparisons.
  - destruct H as [H1 H2]; decide_comparisons.
  - destruct H as [H1 H2]; decide_comparisons.
  - destruct H as [H1 H2]; decide_comparisons.
Qed.

(** Every angle of [[0, 360)] lies in one of the eight sectors. *)
Lemma sector_exists (relative : Q) :
  (0 <= relative < 360)%Q -> exists k, (k < 8)%nat /\ in_sector k relative.
Proof.
  intros [H0 H360].
  destruct (Qlt_le_dec (45 # 2) relative) as [H1|H1];
    [|exists 0%nat; split; [lia | left; exact H1]].
  destruct (Qlt_le_dec (135 # 2) relative) as [H2|H2];
    [|exists 1%nat; split; [lia | split; assumption]].
  destruct (Qlt_le_dec (225 # 2) relative) as [H3|H3];
    [|exists 2%nat; split; [lia | split; assumption]].
  destruct (Qlt_le_dec (315 # 2) relative) as [H4|H4];
    [|exists 3%nat; split; [lia | split; assumption]].
  destruct (Qlt_le_dec (405 # 2) relative) as [H5|H5];
    [|exists 4%nat; split; [lia | split; assumption]].
  destruct (Qlt_le_dec (495 # 2) relative) as [H6|H6];
    [|exists 5%nat; split; [lia | split; assumption]].
  destruct (Qlt_le_dec (585 # 2) relative) as [H7|H7];
    [|exists 6%nat; split; [lia | split; assumption]].
  destruct (Qlt_le_dec (675 # 2) relative) as [H8|H8];
    [|exists 7%nat; split; [lia | split; assumption]].
  exists 0%nat. split; [lia | right; exact H8].
Qed.

(** No angle lies in two sectors. *)
Lemma sector_unique (j k : nat) (relative : Q) :
  in_sector j relative -> in_sector k relative -> j = k.
Proof.
  do 8 (try destruct j as [|j]); do 8 (try destruct k as [|k]);
    simpl in_sector; intros Hj Hk; try reflexivity; try tauto;
    exfalso; repeat match goal with
                    | H : _ /\ _ |- _ => destruct H
                    | H : _ \/ _ |- _ => destruct H
                    end; lra.
Qed.

(** *** The remainder *)

Lemma fmod_range (a w : Q) :
  (0 < w)%Q ->
  ((0 <= a -> 0 <= fmod a w < w) /\ (a <= 0 -> - w < fmod a w <= 0))%Q.
Proof.
  intros Hw. unfold fmod, Qtrunc.
  assert (Hback : (a / w * w == a)%Q).
  { unfold Qdiv. rewrite <- Qmult_assoc, (Qmult_comm (/ w)).
    rewrite Qmult_inv_r, Qmult_1_r; [reflexivity | lra]. }
  destruct (Qle_bool 0 (a / w)) eqn:E.
  - apply Qle_bool_iff in E.
    pose proof (Qfloor_le (a / w)) as Hlo. pose proof (Qlt_floor (a / w)) as Hhi.
    rewrite inject_Z_plus in Hhi. change (inject_Z 1) with 1%Q in Hhi.
    assert (Hf : (0 <= inject_Z (Qfloor (a / w)))%Q).
    { change 0%Q with (inject_Z 0). rewrite <- Zle_Qle.
      change 0 with (Qfloor 0). now apply Qfloor_resp_le. }
    set (t := inject_Z (Qfloor (a / w))) in *. set (y := (a / w)%Q) in *.
    assert (H1 : (0 <= (y - t) * w)%Q) by (apply Qmult_le_0_compat; lra).
    assert (H2 : (0 < (t + 1 - y) * w)%Q) by (apply Qmult_lt_0_compat; lra).
    assert (H3 : (0 <= t * w)%Q) by (apply Qmult_le_0_compat; lra).
    split; intros Ha; [split; lra|].
    assert (Hy : (0 <= 0 - y * w)%Q) by lra.
    assert (Hy0 : (y * w == 0)%Q).
    { assert (0 <= y * w)%Q by (apply Qmult_le_0_compat; lra). lra. }
    split; lra.
  - apply Qle_bool_false_iff in E.
    pose proof (Qle_ceiling (a / w)) as Hhi. pose proof (Qceiling_lt (a / w)) as Hlo.
    unfold Z.sub in Hlo. rewrite inject_Z_plus, inject_Z_opp in Hlo.
    change (inject_Z 1) with 1%Q in Hlo.
    set (t := inject_Z (Qceiling (a / w))) in *. set (y := (a / w)%Q) in *.
    assert (H1 : (0 <= (t - y) * w)%Q) by (apply Qmult_le_0_compat; lra).
    assert (H2 : (0 < (y - (t - 1)) * w)%Q) by (apply Qmult_lt_0_compat; lra).
    assert (Hneg : (0 < (0 - y) * w)%Q) by (apply Qmult_lt_0_compat; lra).
    split; intros Ha; [exfalso; lra | split; lra].
Qed.

Lemma fmod_on_grid (g : Z) (a w : Q) :
  on_grid g a -> on_grid g w -> on_grid g (fmod a w).
Proof.
  intros Ha Hw. unfold fmod, Qminus.
  apply on_grid_plus; [exact Ha|]. apply on_grid_opp. now apply on_grid_Z_mult.
Qed.

Lemma on_grid_eq (g : Z) (a b : Q) : (a == b)%Q -> on_grid g a -> on_grid g b.
Proof. intros E [z Hz]. exists z. now rewrite <- E. Qed.

Lemma grid_360 : on_grid (-44) 360.
Proof. exists (360 * 2 ^ 44). vm_compute. reflexivity. Qed.

(** *** Results that stay finite *)

Lemma of_Q_Fin (q r : Q) : of_Q q = Fin r -> r = rd q.
Proof.
  unfold of_Q. destruct (Qle_bool _ _); [discriminate|]. now intros [= <-].
Qed.

Lemma of_Q_small (q : Q) (k : Z) :
  -1074 <= k < 1024 -> (Qabs q <= pow2 k)%Q -> of_Q q = Fin (rd q).
Proof.
  intros Hk H. unfold of_Q.
  destruct (Qle_bool (pow2 1024) (Qabs (rd q))) eqn:E; [|reflexivity].
  apply Qle_bool_iff in E. exfalso.
  pose proof (rd_bound q k ltac:(lia) H) as Hb.
  assert (Hlt : (pow2 k < pow2 1024)%Q)
    by (apply Qpower_lt_compat_l; [lia | reflexivity]).
  lra.
Qed.

Lemma add_Fin (x y : pyfloat) (r : Q) :
  add x y = Fin r -> exists a b, x = Fin a /\ y = Fin b /\ r = rd (a + b).
Proof.
  destruct x as [a|s|], y as [b|t|]; simpl; try discriminate.
  - intros H. exists a, b. split; [reflexivity|]. split; [reflexivity|].
    now apply of_Q_Fin.
  - destruct (Bool.eqb s t); discriminate.
Qed.

(** The normalised angle, when it is a number, lies in [[0, 360)]: the
    sum that is reduced is a multiple of [2 ** -44] whenever it is
    negative, so that adding 360 to its remainder is exact. *)
Lemma relative_angle_range (user_heading bearing_to_dest : pyfloat) (r : Q) :
  relative_angle user_heading bearing_to_dest = Fin r -> (0 <= r < 360)%Q.
Proof.
  unfold relative_angle, rem.
  destruct (add (sub bearing_to_dest user_heading) (Fin 360)) as [x| |] eqn:Ex;
    try discriminate.
  apply add_Fin in Ex. destruct Ex as (d & c & Hd & [= <-] & Hx).
  unfold sub in Hd. apply add_Fin in Hd. destruct Hd as (b & h' & _ & _ & Hd).
  destruct (fmod_range x 360 ltac:(reflexivity)) as [Hpos Hneg].
  destruct (Qeq_bool (fmod x 360) 0) eqn:E0.
  { intros [= <-]. split; [lra | reflexivity]. }
  change (Qlt_bool 360 0) with false. cbv beta iota. rewrite xorb_false_l.
  destruct (Qlt_bool (fmod x 360) 0) eqn:Em.
  - apply Qlt_bool_iff in Em. intros Hr.
    assert (Hx0 : (x < 0)%Q).
    { destruct (Qlt_le_dec x 0) as [|Hge]; [assumption|].
      destruct (Hpos Hge). lra. }
    destruct (Hneg (Qlt_le_weak _ _ Hx0)) as [Hm1 Hm2].
    assert (Hsum : (d + 360 < 0)%Q).
    { destruct (Qlt_le_dec (d + 360) 0) as [|Hge]; [assumption|].
      pose proof (rd_nonneg _ Hge). rewrite <- Hx in *. lra. }
    assert (Hgd : on_grid (-44) d).
    { rewrite Hd. apply rd_on_grid.
      destruct (Qlt_le_dec (Qabs (b + h')) (pow2 (-44 + 52))) as [Hlt|]; [|assumption].
      exfalso. pose proof (rd_bound (b + h') 8 ltac:(lia) (Qlt_le_weak _ _ Hlt)) as Hb.
      rewrite <- Hd in Hb. apply Qabs_Qle_condition in Hb.
      change (pow2 8) with 256%Q in Hb. lra. }
    assert (Hgs : on_grid (-44) (d + 360))
      by (apply on_grid_plus; [exact Hgd | exact grid_360]).
    assert (Hgx : on_grid (-44) x).
    { rewrite Hx.
      destruct (Qlt_le_dec (Qabs (d + 360)) (pow2 (-44 + 53))) as [Hlt|Hge].
      - apply on_grid_eq with (d + 360)%Q; [|exact Hgs].
        symmetry. now apply (rd_exact (-44)).
      - apply rd_on_grid. eapply Qle_trans; [|exact Hge].
        apply pow2_le. lia. }
    assert (Hgm : on_grid (-44) (fmod x 360 + 360)).
    { apply on_grid_plus; [|exact grid_360].
      apply fmod_on_grid; [exact Hgx | exact grid_360]. }
    assert (Hexact : (rd (fmod x 360 + 360) == fmod x 360 + 360)%Q).
    { apply (rd_exact (-44)); [lia | exact Hgm |].
      change (pow2 (-44 + 53)) with 512%Q.
      apply Qabs_Qlt_condition. split; lra. }
    simpl in Hr. apply of_Q_Fin in Hr. rewrite Hr, Hexact. split; lra.
  - apply Qlt_bool_false_iff in Em. intros [= <-].
    split; [exact Em|].
    destruct (Qlt_le_dec x 0) as [Hlt|Hge].
    + destruct (Hneg (Qlt_le_weak _ _ Hlt)). lra.
    + destruct (Hpos Hge). assumption.
Qed.

(** The normalised angle is a number or NaN, and it is a number for
    all finite arguments short of overflow. *)
Lemma relative_angle_cases (user_heading bearing_to_dest : pyfloat) :
  relative_angle user_heading bearing_to_dest = NaN
  \/ exists r, relative_angle user_heading bearing_to_dest = Fin r.
Proof.
  unfold relative_angle, rem.
  destruct (add (sub bearing_to_dest user_heading) (Fin 360)) as [x| |];
    [|now left|now left].
  right. destruct (Qeq_bool (fmod x 360) 0); [eauto|].
  destruct (xorb _ _) eqn:E; [|eauto].
  change (Qlt_bool 360 0) with false in E. rewrite xorb_false_l in E.
  apply Qlt_bool_iff in E.
  destruct (Qlt_le_dec x 0) as [Hlt|Hge].
  - destruct (fmod_range x 360 ltac:(reflexivity)) as [_ Hneg].
    destruct (Hneg (Qlt_le_weak _ _ Hlt)) as [Hm1 Hm2].
    simpl. rewrite (of_Q_small _ 9); [eauto | lia |].
    change (pow2 9) with 512%Q. apply Qabs_Qle_condition. split; lra.
  - destruct (fmod_range x 360 ltac:(reflexivity)) as [Hpos _].
    destruct (Hpos Hge). lra.
Qed.

Lemma relative_angle_finite (h b : Q) :
  (Qabs h <= pow2 1000)%Q -> (Qabs b <= pow2 1000)%Q ->
  exists r, relative_angle (Fin h) (Fin b) = Fin r.
Proof.
  intros Hh Hb.
  destruct (relative_angle_cases (Fin h) (Fin b)) as [Hnan|]; [|assumption].
  exfalso. revert Hnan. unfold relative_angle, sub. simpl.
  assert (Hp : (pow2 1001 == pow2 1000 + pow2 1000)%Q).
  { replace 1001 with (1 + 1000) by lia. rewrite pow2_add.
    change (pow2 1) with 2%Q. ring. }
  assert (Hp2 : (pow2 1002 == pow2 1001 + pow2 1001)%Q).
  { replace 1002 with (1 + 1001) by lia. rewrite pow2_add.
    change (pow2 1) with 2%Q. ring. }
  assert (H360 : (360 <= pow2 1000)%Q).
  { change 360%Q with (inject_Z 360). rewrite pow2_Z by lia.
    rewrite <- Zle_Qle. apply Z.le_trans with (2 ^ 9); [lia|].
    apply Z.pow_le_mono_r; lia. }
  apply Qabs_Qle_condition in Hh, Hb.
  assert (Hd : (Qabs (b + - h) <= pow2 1001)%Q).
  { apply Qabs_Qle_condition. split; lra. }
  rewrite (of_Q_small _ 1001 ltac:(lia) Hd).
  pose proof (rd_bound _ 1001 ltac:(lia) Hd) as Hrd.
  apply Qabs_Qle_condition in Hrd. simpl.
  assert (Hs : (Qabs (rd (b + - h) + 360) <= pow2 1002)%Q).
  { apply Qabs_Qle_condition. split; lra. }
  rewrite (of_Q_small _ 1002 ltac:(lia) Hs).
  unfold rem. destruct (Qeq_bool _ 0); [discriminate|].
  destruct (xorb _ _) eqn:E; [|discriminate].
  change (Qlt_bool 360 0) with false in E. rewrite xorb_false_l in E.
  apply Qlt_bool_iff in E.
  set (x := rd (rd (b + - h) + 360)) in *.
  destruct (Qlt_le_dec x 0) as [Hlt|Hge].
  - destruct (fmod_range x 360 ltac:(reflexivity)) as [_ Hneg].
    destruct (Hneg (Qlt_le_weak _ _ Hlt)) as [Hm1 Hm2].
    simpl. rewrite (of_Q_small _ 9); [discriminate | lia |].
    change (pow2 9) with 512%Q. apply Qabs_Qle_condition. split; lra.
  - destruct (fmod_range x 360 ltac:(reflexivity)) as [Hpos _].
    destruct (Hpos Hge). lra.
Qed.

Lemma direction_of_nan :
  direction_of_relative NaN = "AHEAD and to your LEFT (10 o'clock)".
Proof. reflexivity. Qed.

(** C9, as the code computes it.  The eight labels differ.  Whenever
    the normalised angle [(bearing - heading + 360) % 360], computed in
    double precision, is a number, it lies in [[0, 360)] and there in
    exactly one of eight sectors, each 45 degrees wide, open below and
    closed above, the first one wrapping through 0, and the label
    returned is the label of that sector.  It is a number for every
    finite heading and bearing of magnitude up to [2 ** 1000], and only
    for finite ones; otherwise it is NaN, every comparison fails, and
    the label is the last of the eight. *)
Theorem relative_direction_partitions (user_heading bearing_to_dest : pyfloat) :
  let relative := relative_angle user_heading bearing_to_dest in
  let label := get_relative_direction user_heading bearing_to_dest in
  NoDup labels /\ length labels = 8%nat
  /\ (forall r, relative = Fin r ->
        (0 <= r < 360)%Q
        /\ exists k, (k < 8)%nat
             /\ in_sector k r
             /\ label = nth k labels ""
             /\ forall j, in_sector j r -> j = k)
  /\ (forall h b, user_heading = Fin h -> bearing_to_dest = Fin b ->
        (Qabs h <= pow2 1000)%Q -> (Qabs b <= pow2 1000)%Q ->
        exists r, relative = Fin r)
  /\ (forall r, relative = Fin r ->
        exists h b, user_heading = Fin h /\ bearing_to_dest = Fin b)
  /\ (relative = NaN \/ exists r, relative = Fin r)
  /\ (relative = NaN -> label = "AHEAD and to your LEFT (10 o'clock)").
Proof.
  intros relative label. split.
  { apply (bool_decide_unpack _). vm_compute. exact I. }
  split; [reflexivity|]. split.
  { intros r Hr.
    pose proof (relative_angle_range _ _ _ Hr) as Hrange.
    split; [exact Hrange|].
    destruct (sector_exists r Hrange) as (k & Hk & Hin).
    exists k. split; [exact Hk|]. split; [exact Hin|]. split.
    - subst label. unfold get_relative_direction. fold relative. rewrite Hr.
      now apply direction_in_sector.
    - intros j Hj. exact (sector_unique j k r Hj Hin). }
  split.
  { intros h b -> -> Hh Hb. now apply relative_angle_finite. }
  split.
  { subst relative. unfold relative_angle, rem. intros r Hr.
    destruct (add (sub bearing_to_dest user_heading) (Fin 360)) as [x| |] eqn:Ex;
      try discriminate.
    apply add_Fin in Ex. destruct Ex as (d & c & Hd & _ & _).
    unfold sub in Hd. apply add_Fin in Hd. destruct Hd as (b & h' & Hb & Hh & _).
    destruct user_heading as [h| |]; try discriminate. eauto. }
  split; [apply relative_angle_cases|].
  intros Hnan. subst label. unfold get_relative_direction. fold relative.
  now rewrite Hnan.
Qed.

End GeoMathFacts.

(** C9 refuted as the spec words it.  A heading that is not a number
    gets a label although its relative angle is NaN, in no sector; so
    does a pair of finite arguments whose difference overflows.  And
    for the doubles nearest to 0.1 and 22.6 the difference of the two
    arguments lies above 22.5, in the second sector, while the angle
    the code computes is exactly 22.5 and the label is that of the
    first. *)
Lemma relative_direction_leaves_the_sectors :
  let nan_angle := GeoMath.relative_angle Float.NaN (Float.Fin 90) in
  let big := Float.pow2 1023 in
  let h := Float.rd (1 # 10) in
  let b := Float.rd (226 # 10) in
  nan_angle = Float.NaN
  /\ GeoMath.get_relative_direction Float.NaN (Float.Fin 90)
     = "AHEAD and to your LEFT (10 o'clock)"
  /\ GeoMath.relative_angle (Float.Fin (- big)) (Float.Fin big) = Float.NaN
  /\ GeoMath.get_relative_direction (Float.Fin (- big)) (Float.Fin big)
     = "AHEAD and to your LEFT (10 o'clock)"
  /\ GeoMath.in_sector 1 (b - h)
  /\ (exists r, GeoMath.relative_angle (Float.Fin h) (Float.Fin b) = Float.Fin r
                /\ (r == 45 # 2)%Q)
  /\ GeoMath.get_relative_direction (Float.Fin h) (Float.Fin b) = "directly AHEAD".
Proof.
  intros nan_angle big h b.
  split; [reflexivity|]. split; [reflexivity|].
  split; [vm_compute; reflexivity|]. split; [vm_compute; reflexivity|].
  split; [vm_compute; split; [reflexivity | discriminate]|].
  split; [eexists; split; [vm_compute; reflexivity | vm_compute; reflexivity]|].
  vm_compute. reflexivity.
Qed.

(** ** Retrying fetch *)

Module FetchFacts.
Import Fetch.

Lemma attempt_non_2xx (r : response) :
  status_code r < 200 \/ 300 <= status_code r ->
  attempt (Returned r) = Raised (HTTPStatusError (status_code r) (text r)).
Proof.
  intros H. simpl. unfold raise_for_status.
  destruct (200 <=? status_code r) eqn:E1; simpl; [|reflexivity].
  destruct (status_code r <? 300) eqn:E2; [|reflexivity].
  apply Z.leb_le in E1. apply Z.ltb_lt in E2. lia.
Qed.

Lemma attempt_2xx (r : response) :
  200 <= status_code r < 300 -> attempt (Returned r) = Returned r.
Proof.
  intros [H1 H2]. simpl. unfold raise_for_status.
  apply Z.leb_le in H1. apply Z.ltb_lt in H2. now rewrite H1, H2.
Qed.

(** The wait between attempts doubles from one second and stops
    growing at ten. *)
Lemma wait_doubles_to_ten (n : nat) :
  (1 <= n)%nat ->
  wait_exponential 1 1 10 n = Z.min (2 ^ (Z.of_nat n - 1)) 10.
Proof.
  intros Hn. unfold wait_exponential.
  assert (1 <= 2 ^ (Z.of_nat n - 1)) by (apply Z.pow_le_mono_r with (b := 0); lia).
  lia.
Qed.

(** C4. [_fetch_with_retry] makes between one and three attempts; it
    goes on to another attempt only after a timeout or a network
    error, so any response, whatever its status, ends the run, a status
    outside 2xx as an [HTTPStatusError]; the outcome of the run is the
    outcome of its last attempt, and a transient failure is given up on
    only at the third; the waits are one second, then two, following a
    schedule that doubles and is capped at ten.  Two timeouts followed
    by a 2xx response give that response. *)
Theorem fetch_retry_policy (client_get : nat -> outcome response) :
  let r := _fetch_with_retry client_get in
  (1 <= attempts r <= 3)%nat
  /\ (forall n, (1 <= n < attempts r)%nat ->
        exists e, client_get n = Raised e /\ is_transient e = true)
  /\ (forall n resp, (1 <= n <= attempts r)%nat ->
        client_get n = Returned resp -> attempts r = n)
  /\ (forall code body, is_transient (HTTPStatusError code body) = false)
  /\ (forall resp, client_get (attempts r) = Returned resp ->
        (status_code resp < 200 \/ 300 <= status_code resp) ->
        result r = Raised (HTTPStatusError (status_code resp) (text resp)))
  /\ result r = attempt (client_get (attempts r))
  /\ (forall e, result r = Raised e -> is_transient e = true -> attempts r = 3%nat)
  /\ sleeps r = firstn (attempts r - 1) [1; 2]
  /\ (forall n, (1 <= n)%nat ->
        wait_exponential 1 1 10 n = Z.min (2 ^ (Z.of_nat n - 1)) 10)
  /\ (forall m1 m2 resp,
        client_get 1%nat = Raised (TimeoutException m1) ->
        client_get 2%nat = Raised (TimeoutException m2) ->
        client_get 3%nat = Returned resp ->
        200 <= status_code resp < 300 ->
        result r = Returned resp /\ attempts r = 3%nat /\ sleeps r = [1; 2]).
Proof.
  intros r.
  assert (Hshape :
    (attempts r = 1%nat /\ sleeps r = []
       /\ result r = attempt (client_get 1%nat)
       /\ (forall e, result r = Raised e -> is_transient e = false))
    \/ (attempts r = 2%nat /\ sleeps r = [1]
       /\ result r = attempt (client_get 2%nat)
       /\ (forall e, result r = Raised e -> is_transient e = false)
       /\ exists e1, attempt (client_get 1%nat) = Raised e1 /\ is_transient e1 = true)
    \/ (attempts r = 3%nat /\ sleeps r = [1; 2]
       /\ result r = attempt (client_get 3%nat)
       /\ (exists e1, attempt (client_get 1%nat) = Raised e1 /\ is_transient e1 = true)
       /\ exists e2, attempt (client_get 2%nat) = Raised e2 /\ is_transient e2 = true)).
  { subst r. unfold _fetch_with_retry. simpl.
    destruct (attempt (client_get 1%nat)) as [r1|e1] eqn:E1.
    { left. simpl. repeat split; auto. intros e [=]. }
    destruct (is_transient e1) eqn:T1.
    2:{ left. simpl. repeat split; auto. intros e [= <-]. exact T1. }
    simpl. destruct (attempt (client_get 2%nat)) as [r2|e2] eqn:E2.
    { right. left. simpl. repeat split; eauto. intros e [=]. }
    destruct (is_transient e2) eqn:T2.
    2:{ right. left. simpl. repeat split; eauto. intros e [= <-]. exact T2. }
    simpl. right. right.
    destruct (attempt (client_get 3%nat)) as [r3|e3] eqn:E3.
    { simpl. repeat split; eauto. }
    destruct (is_transient e3); simpl; repeat split; eauto. }
  assert (Htransient : forall n e,
            attempt (client_get n) = Raised e -> is_transient e = true ->
            client_get n = Raised e).
  { intros n e Ha Ht. destruct (client_get n) as [resp|e']; [|simpl in Ha; congruence].
    simpl in Ha. unfold raise_for_status in Ha.
    destruct ((200 <=? status_code resp) && (status_code resp <? 300));
      [discriminate|]. injection Ha as <-. discriminate. }
  assert (Hresponse : forall n resp e,
            client_get n = Returned resp -> attempt (client_get n) = Raised e ->
            is_transient e = false).
  { intros n resp e Hg Ha. rewrite Hg in Ha. simpl in Ha. unfold raise_for_status in Ha.
    destruct ((200 <=? status_code resp) && (status_code resp <? 300));
      [discriminate|]. now injection Ha as <-. }
  split.
  { destruct Hshape as [(-> & _) | [(-> & _) | (-> & _)]]; lia. }
  split.
  { intros n Hn.
    destruct Hshape as [(Ha & _) | [(Ha & _ & _ & _ & e1 & H1 & T1)
                                   | (Ha & _ & _ & (e1 & H1 & T1) & e2 & H2 & T2)]];
      rewrite Ha in Hn.
    - lia.
    - assert (n = 1%nat) as -> by lia. eauto.
    - assert (n = 1%nat \/ n = 2%nat) as [-> | ->] by lia; eauto. }
  split.
  { intros n resp Hn Hg.
    destruct Hshape as [(Ha & _) | [(Ha & _ & _ & _ & e1 & H1 & T1)
                                   | (Ha & _ & _ & (e1 & H1 & T1) & e2 & H2 & T2)]];
      rewrite Ha in *.
    - lia.
    - assert (n = 1%nat \/ n = 2%nat) as [-> | ->] by lia; [|reflexivity].
      rewrite (Hresponse _ _ _ Hg H1) in T1. discriminate.
    - assert (n = 1%nat \/ n = 2%nat \/ n = 3%nat) as [-> | [-> | ->]] by lia;
        [| |reflexivity].
      + rewrite (Hresponse _ _ _ Hg H1) in T1. discriminate.
      + rewrite (Hresponse _ _ _ Hg H2) in T2. discriminate. }
  split; [reflexivity|].
  assert (Hlast : result r = attempt (client_get (attempts r))).
  { destruct Hshape as [(-> & _ & H & _) | [(-> & _ & H & _) | (-> & _ & H & _)]];
      exact H. }
  split.
  { intros resp Hg Hbad. rewrite Hlast, Hg. now apply attempt_non_2xx. }
  split; [exact Hlast|].
  split.
  { intros e He Ht.
    destruct Hshape as [(_ & _ & _ & Hn) | [(_ & _ & _ & Hn & _) | (Ha & _)]].
    - rewrite (Hn e He) in Ht. discriminate.
    - rewrite (Hn e He) in Ht. discriminate.
    - exact Ha. }
  split.
  { destruct Hshape as [(-> & -> & _) | [(-> & -> & _) | (-> & -> & _)]]; reflexivity. }
  split; [exact wait_doubles_to_ten|].
  intros m1 m2 resp H1 H2 H3 Hok.
  subst r. unfold _fetch_with_retry. simpl. rewrite H1. simpl. rewrite H2. simpl.
  rewrite H3. rewrite (attempt_2xx resp Hok). simpl. auto.
Qed.

End FetchFacts.

(** ** The view tools *)

Module VisionFacts.
Section Facts.
Context {P : Platform}.
Import Vision.

Lemma clamp_range (low high x : Z) :
  low <= high ->
  low <= clamp low high x <= high
  /\ (low <= x <= high -> clamp low high x = x)
  /\ (x < low -> clamp low high x = low)
  /\ (high < x -> clamp low high x = high).
Proof. unfold clamp. lia. Qed.

(** Inside the [k]-th band the loop over [direction_names] stops at the
    [k]-th name. *)
Lemma facing_in_band (k h : Z) :
  0 <= k < 8 -> 45 * k <= h < 45 * (k + 1) ->
  facing_of h = nth (Z.to_nat k) compass_names "".
Proof.
  intros Hk Hh.
  assert (k = 0 \/ k = 1 \/ k = 2 \/ k = 3 \/ k = 4 \/ k = 5 \/ k = 6 \/ k = 7)
    as Hcases by lia.
  unfold facing_of, direction_names, first_band.
  repeat match goal with
    | |- context [?a <=? ?b] => destruct (Z.leb_spec a b); simpl
    | |- context [?a <? ?b] => destruct (Z.ltb_spec a b); simpl
    end;
    repeat destruct Hcases as [-> | Hcases]; try subst k; try reflexivity; lia.
Qed.

Lemma pitch_desc_cases (pitch : Z) :
  let p := clamp (-90) 90 pitch in
  (Z.abs pitch <= 15 -> pitch_desc_of p = "eye level")
  /\ (15 < pitch -> pitch_desc_of p = "looking up")
  /\ (pitch < -15 -> pitch_desc_of p = "looking down").
Proof.
  unfold pitch_desc_of, clamp.
  repeat split; intros H;
    repeat match goal with
      | |- context [?a <=? ?b] => destruct (Z.leb_spec a b); simpl
      | |- context [?a <? ?b] => destruct (Z.ltb_spec a b); simpl
      end; try reflexivity; lia.
Qed.

(** What [get_street_view] can return: the annotated success dict, or
    a failure dict that carries an error message. *)
Lemma street_view_shape (w : world) (lat lng : Q) (heading pitch fov : Z)
    (compress : bool) (d : pydict) :
  get_street_view w lat lng heading pitch fov compress = Returned d ->
  (PyDict.get "success" d = Some (VBool true) /\ PyDict.get "error" d = None
   /\ PyDict.get "parameters" d
      = Some (VDict [ ("lat", VFloat lat); ("lng", VFloat lng);
                      ("heading", VInt (heading mod 360));
                      ("pitch", VInt (clamp (-90) 90 pitch));
                      ("fov", VInt (clamp 20 120 fov));
                      ("facing", VStr (facing_of (heading mod 360))) ])
   /\ PyDict.get "description" d
      = Some (VStr ("Street view facing " ++ facing_of (heading mod 360) ++ " ("
                    ++ str_int (heading mod 360) ++ degree ++ "), "
                    ++ pitch_desc_of (clamp (-90) 90 pitch) ++ ", FOV "
                    ++ str_int (clamp 20 120 fov) ++ degree)))
  \/ (PyDict.get "success" d = Some (VBool false)
      /\ exists msg, PyDict.get "error" d = Some (VStr msg)).
Proof.
  unfold get_street_view.
  destruct (get_maps_api_key w) as [key|e]; [|discriminate].
  destruct (Fetch.result _) as [response|e]; intros [= <-].
  - left. repeat split; reflexivity.
  - right. unfold failure. destruct e; (split; [reflexivity | eexists; reflexivity]).
Qed.

(** C8. [get_street_view] brings the heading into [[0, 360)] by the
    modulo, the pitch into [[-90, 90]] and the field of view into
    [[20, 120]] by clamping; the compass label is the name of the band
    of 45 degrees, counted from 0, that holds the normalised heading;
    the pitch descriptor is eye level for a pitch of at most 15 either
    way, looking up above and looking down below; a successful result
    carries the normalised values, the label and the descriptor, and
    the call is a success, asked for with the normalised values,
    whenever the key is set and the API answers that request with a
    2xx status.  A heading of 370 becomes 10, labelled North. *)
Theorem street_view_normalises_and_annotates
    (w : world) (lat lng : Q) (heading pitch fov : Z) (compress : bool) :
  let h := heading mod 360 in
  let p := clamp (-90) 90 pitch in
  let f := clamp 20 120 fov in
  (0 <= h < 360 /\ exists turns, heading = 360 * turns + h)
  /\ (-90 <= p <= 90 /\ (-90 <= pitch <= 90 -> p = pitch)
      /\ (pitch < -90 -> p = -90) /\ (90 < pitch -> p = 90))
  /\ (20 <= f <= 120 /\ (20 <= fov <= 120 -> f = fov)
      /\ (fov < 20 -> f = 20) /\ (120 < fov -> f = 120))
  /\ (0 <= h / 45 < 8 /\ 45 * (h / 45) <= h < 45 * (h / 45 + 1)
      /\ facing_of h = nth (Z.to_nat (h / 45)) compass_names "")
  /\ ((Z.abs pitch <= 15 -> pitch_desc_of p = "eye level")
      /\ (15 < pitch -> pitch_desc_of p = "looking up")
      /\ (pitch < -15 -> pitch_desc_of p = "looking down"))
  /\ (forall d,
        get_street_view w lat lng heading pitch fov compress = Returned d ->
        PyDict.get "success" d = Some (VBool true) ->
        PyDict.get "parameters" d
        = Some (VDict [ ("lat", VFloat lat); ("lng", VFloat lng);
                        ("heading", VInt h); ("pitch", VInt p); ("fov", VInt f);
                        ("facing", VStr (facing_of h)) ])
        /\ PyDict.get "description" d
           = Some (VStr ("Street view facing " ++ facing_of h ++ " ("
                         ++ str_int h ++ degree ++ "), " ++ pitch_desc_of p
                         ++ ", FOV " ++ str_int f ++ degree)))
  /\ (forall key response,
        get_maps_api_key w = Returned key ->
        client_get w street_url (street_params key lat lng h p f) 1%nat
        = Returned response ->
        200 <= Fetch.status_code response < 300 ->
        exists d,
          get_street_view w lat lng heading pitch fov compress = Returned d
          /\ PyDict.get "success" d = Some (VBool true)
          /\ PyDict.get "parameters" d
             = Some (VDict [ ("lat", VFloat lat); ("lng", VFloat lng);
                             ("heading", VInt h); ("pitch", VInt p); ("fov", VInt f);
                             ("facing", VStr (facing_of h)) ])
          /\ PyDict.get "description" d
             = Some (VStr ("Street view facing " ++ facing_of h ++ " ("
                           ++ str_int h ++ degree ++ "), " ++ pitch_desc_of p
                           ++ ", FOV " ++ str_int f ++ degree))
          /\ PyDict.get "image_data" d
             = Some (VStr (b64encode
                             (if compress
                              then compress_image (Fetch.content response)
                              else Fetch.content response))))
  /\ (heading = 370 -> h = 10 /\ facing_of h = "North").
Proof.
  intros h p f.
  assert (Hh : 0 <= h < 360) by (apply Z.mod_pos_bound; lia).
  split.
  { split; [exact Hh|]. exists (heading / 360). subst h.
    apply Z.div_mod. lia. }
  split.
  { pose proof (clamp_range (-90) 90 pitch) as H. subst p. intuition lia. }
  split.
  { pose proof (clamp_range 20 120 fov) as H. subst f. intuition lia. }
  assert (Hband : 0 <= h / 45 < 8 /\ 45 * (h / 45) <= h < 45 * (h / 45 + 1)).
  { pose proof (Z.div_mod h 45) as Hdm. pose proof (Z.mod_pos_bound h 45) as Hm.
    split; [|lia]. split; [apply Z.div_pos; lia|].
    apply Z.div_lt_upper_bound; lia. }
  split.
  { destruct Hband as [Hk Hin]. repeat split; try lia.
    now apply facing_in_band. }
  split; [apply pitch_desc_cases|].
  split.
  { intros d Hd Hok.
    destruct (street_view_shape _ _ _ _ _ _ _ _ Hd) as [(_ & _ & Hp & Hdesc) | (Hf & _)].
    - split; assumption.
    - congruence. }
  split.
  { intros key response Hkey Hget Hcode.
    unfold get_street_view. rewrite Hkey. cbv zeta. fold h p f.
    assert (Hres : Fetch.result
                     (Fetch._fetch_with_retry
                        (client_get w street_url (street_params key lat lng h p f)))
                   = Returned response).
    { unfold Fetch._fetch_with_retry. simpl. rewrite Hget.
      now rewrite (FetchFacts.attempt_2xx _ Hcode). }
    rewrite Hres. eexists. split; [reflexivity|]. repeat split. }
  intros ->. subst h. split; reflexivity.
Qed.

(** The entry that the loop of [explore_panoramic] appends for one leg. *)
Definition entry_of (direction : string) (leg : outcome pydict) : pydict :=
  match leg with
  | Raised e =>
      [ ("success", VBool false); ("error", VStr (Fetch.exn_str e));
        ("direction", VStr direction) ]
  | Returned d => PyDict.set "direction" (VStr direction) d
  end.

Lemma collect_step (views : list pydict) (ok : bool) (hd : Z * string)
    (leg : outcome pydict) :
  collect (views, ok) (hd, leg)
  = ((views ++ [entry_of (snd hd) leg])%list, ok && leg_succeeded leg).
Proof.
  destruct hd as [h direction]. destruct leg as [d|e]; simpl.
  - unfold get_or. rewrite PyDictFacts.get_set_ne by discriminate.
    destruct (is_true _); simpl; now rewrite ?andb_true_r, ?andb_false_r.
  - now rewrite andb_false_r.
Qed.

Lemma collect_all (hs : list (Z * string)) : forall (legs : list (outcome pydict))
    (views : list pydict) (ok : bool),
  length hs = length legs ->
  fold_left collect (combine hs legs) (views, ok)
  = ((views ++ map (fun x => entry_of (snd (fst x)) (snd x)) (combine hs legs))%list,
     ok && forallb leg_succeeded legs).
Proof.
  induction hs as [|hd hs IH]; intros [|leg legs] views ok Hlen;
    simpl in Hlen; try discriminate.
  - simpl. now rewrite app_nil_r, andb_true_r.
  - change (fold_left collect (combine (hd :: hs) (leg :: legs)) (views, ok))
      with (fold_left collect (combine hs legs) (collect (views, ok) (hd, leg))).
    rewrite collect_step, IH by lia. simpl.
    now rewrite <- app_assoc, andb_assoc.
Qed.

Lemma entry_direction (direction : string) (leg : outcome pydict) :
  PyDict.get "direction" (entry_of direction leg) = Some (VStr direction).
Proof.
  destruct leg as [d|e]; simpl; [apply PyDictFacts.get_set_eq | reflexivity].
Qed.

(** The entry of a leg of [explore_panoramic]: a failed leg leaves a
    false ["success"] and an error message, a successful one a true
    ["success"] and no error. *)
Lemma entry_of_street_view (w : world) (lat lng : Q) (heading pitch fov : Z)
    (direction : string) :
  let leg := get_street_view w lat lng heading pitch fov true in
  let v := entry_of direction leg in
  (leg_succeeded leg = true ->
     PyDict.get "success" v = Some (VBool true) /\ PyDict.get "error" v = None)
  /\ (leg_succeeded leg = false ->
     PyDict.get "success" v = Some (VBool false)
     /\ exists msg, PyDict.get "error" v = Some (VStr msg)).
Proof.
  intros leg v. subst v.
  destruct leg as [d|e] eqn:E; simpl.
  - rewrite !PyDictFacts.get_set_ne by discriminate. unfold get_or.
    destruct (street_view_shape _ _ _ _ _ _ _ _ E) as [(Hs & He & _) | (Hs & He)];
      rewrite Hs; simpl; split; intros H; try discriminate; auto.
  - split; [discriminate|]. intros _. split; [reflexivity|]. eexists. reflexivity.
Qed.

(** C5. [explore_panoramic] starts four calls of [get_street_view], at
    the headings 0, 90, 180 and 270 with the shared pitch and field of
    view; whatever each of them does, the result lists four entries in
    that order, tagged North, East, South and West; the entry of a leg
    that failed holds a false ["success"] and an error message, the
    entry of a leg that succeeded a true ["success"] and no error; and
    the overall ["success"] is true exactly when all four legs
    succeeded. *)
Theorem panoramic_reports_each_direction
    (w : world) (lat lng : Q) (pitch fov : Z) (elapsed_all : Q) :
  let legs := tasks w lat lng pitch fov in
  let r := explore_panoramic w lat lng pitch fov elapsed_all in
  legs = [ get_street_view w lat lng 0 pitch fov true;
           get_street_view w lat lng 90 pitch fov true;
           get_street_view w lat lng 180 pitch fov true;
           get_street_view w lat lng 270 pitch fov true ]
  /\ exists views,
       PyDict.get "views" r = Some (VList (map VDict views))
       /\ length views = 4%nat
       /\ (forall i leg direction,
             legs !! i = Some leg ->
             [ "North"; "East"; "South"; "West" ] !! i = Some direction ->
             exists v,
               views !! i = Some v
               /\ PyDict.get "direction" v = Some (VStr direction)
               /\ (leg_succeeded leg = true ->
                     PyDict.get "success" v = Some (VBool true)
                     /\ PyDict.get "error" v = None)
               /\ (leg_succeeded leg = false ->
                     PyDict.get "success" v = Some (VBool false)
                     /\ exists msg, PyDict.get "error" v = Some (VStr msg)))
       /\ PyDict.get "success" r = Some (VBool (forallb leg_succeeded legs))
       /\ (forallb leg_succeeded legs = true
           <-> forall leg, In leg legs -> leg_succeeded leg = true).
Proof.
  intros legs r. split; [reflexivity|].
  exists (map (fun x => entry_of (snd (fst x)) (snd x)) (combine headings legs)).
  assert (Hr : r = [ ("success", VBool (forallb leg_succeeded legs));
                     ("views", VList (map VDict
                        (map (fun x => entry_of (snd (fst x)) (snd x))
                             (combine headings legs))));
                     ("description",
                       VStr ("360" ++ degree ++ " panoramic capture at ("
                             ++ str_float lat ++ ", " ++ str_float lng ++ ")"));
                     ("latency_ms", VFloat (elapsed_all * 1000)%Q) ]).
  { subst r. unfold explore_panoramic. fold legs.
    rewrite (collect_all headings legs [] true) by reflexivity. reflexivity. }
  split; [rewrite Hr; reflexivity|].
  split; [reflexivity|].
  split.
  { intros i leg direction Hleg Hdir.
    do 4 (try destruct i as [|i]); simpl in Hleg, Hdir; try discriminate;
      injection Hleg as <-; injection Hdir as <-;
      (eexists; split; [reflexivity|]; split; [apply entry_direction|];
       apply entry_of_street_view). }
  split; [rewrite Hr; reflexivity|].
  rewrite forallb_forall. reflexivity.
Qed.

End Facts.
End VisionFacts.

(** ** The cache-aware wrappers *)

Module AgentFacts.
Section Facts.
Context {P : Platform}.
Import Agent.

(** Every value a cache holds is a reference to a non-empty dict of the
    heap; the keys are unique and the maximum is at least one. *)
Definition cache_refs_ok (h : list pydict) (c : Cache.ImageCache) : Prop :=
  1 <= Cache._max_size c
  /\ NoDup (PyDict.keys (Cache._cache c))
  /\ forall k ts v, In (k, (ts, v)) (Cache._cache c) ->
       exists l d, v = VRef l /\ h !! l = Some d /\ d <> [].

Definition state_ok (s : state) : Prop :=
  cache_refs_ok (heap s) (overhead_cache s)
  /\ cache_refs_ok (heap s) (streetview_cache s).

(** The heap [h'] still holds a non-empty dict wherever [h] did. *)
Definition keeps_dicts (h h' : list pydict) : Prop :=
  forall l d, h !! l = Some d -> d <> [] -> exists d', h' !! l = Some d' /\ d' <> [].

Lemma In_del {A : Type} (k : string) (d : PyDict.t A) (x : string * A) :
  In x (PyDict.del k d) -> In x d.
Proof.
  induction d as [|[k' v'] r IH]; simpl; [tauto|].
  destruct (String.eqb k k'); simpl; tauto.
Qed.

Lemma In_set {A : Type} (k : string) (v : A) (d : PyDict.t A) (x : string * A) :
  In x (PyDict.set k v d) -> x = (k, v) \/ In x d.
Proof.
  induction d as [|[k' v'] r IH]; simpl.
  - intros [H|[]]; auto.
  - destruct (String.eqb k k'); simpl; intros [H|H]; auto.
    apply IH in H. tauto.
Qed.

Lemma get_del_eq {A : Type} (k : string) (d : PyDict.t A) :
  NoDup (PyDict.keys d) -> PyDict.get k (PyDict.del k d) = None.
Proof.
  induction d as [|[k' v'] r IH]; simpl; [reflexivity|].
  intros Hnd. inversion Hnd as [|? ? Hnot Hnd']; subst.
  destruct (String.eqb k k') eqn:E; simpl.
  - apply String.eqb_eq in E. subst k'.
    destruct (PyDict.get k r) eqn:G; [|reflexivity].
    exfalso. apply Hnot. apply list_elem_of_In.
    exact (PyDictFacts.In_keys _ _ _ (PyDictFacts.get_Some_In _ _ _ G)).
  - rewrite E. auto.
Qed.

Lemma set_not_empty {A : Type} (k : string) (v : A) (d : PyDict.t A) :
  PyDict.set k v d <> [].
Proof.
  destruct d as [|[k' v'] r]; simpl; [discriminate|].
  destruct (String.eqb k k'); discriminate.
Qed.

Lemma keeps_dicts_refl (h : list pydict) : keeps_dicts h h.
Proof. intros l d H Hne. eauto. Qed.

Lemma keeps_dicts_alloc (h : list pydict) (d : pydict) : keeps_dicts h (h ++ [d]).
Proof.
  intros l d0 H Hne. exists d0. split; [|assumption].
  rewrite lookup_app_l; [assumption|]. now apply lookup_lt_Some in H.
Qed.

Lemma keeps_dicts_mark (h : list pydict) (l : loc) (d : pydict) (k : string) (v : pyval) :
  h !! l = Some d -> keeps_dicts h (<[ l := PyDict.set k v d ]> h).
Proof.
  intros Hl l0 d0 H Hne.
  destruct (decide (l = l0)) as [<- | Hneq].
  - exists (PyDict.set k v d). split; [|apply set_not_empty].
    apply list_lookup_insert_eq. now apply lookup_lt_Some in Hl.
  - exists d0. split; [|assumption]. now rewrite list_lookup_insert_ne.
Qed.

Lemma cache_refs_ok_heap (h h' : list pydict) (c : Cache.ImageCache) :
  keeps_dicts h h' -> cache_refs_ok h c -> cache_refs_ok h' c.
Proof.
  intros Hk (Hmax & Hnd & Hrefs). repeat split; [assumption | assumption |].
  intros k ts v Hin. destruct (Hrefs k ts v Hin) as (l & d & -> & Hl & Hne).
  destruct (Hk l d Hl Hne) as (d' & Hl' & Hne'). eauto.
Qed.

Lemma cache_refs_ok_get (h : list pydict) (c : Cache.ImageCache)
    (lat lng : Q) (params : list (string * pyval)) (now : Q) :
  cache_refs_ok h c -> cache_refs_ok h (snd (Cache.get lat lng params now c)).
Proof.
  intros (Hmax & Hnd & Hrefs). unfold Cache.get.
  destruct (PyDict.get _ _) as [[ts v]|]; [|repeat split; assumption].
  destruct (Qlt_bool _ _); [repeat split; assumption|].
  repeat split; simpl; [assumption | now apply PyDictFacts.NoDup_del |].
  intros k ts' v' Hin. apply In_del in Hin. eauto.
Qed.

(** With a maximum of at least one, [set] returns. *)
Lemma set_returns (c : Cache.ImageCache) (lat lng : Q) (value : pyval)
    (params : list (string * pyval)) (now : Q) :
  1 <= Cache._max_size c ->
  exists c', Cache.set lat lng value params now c = Returned c'
    /\ Cache._max_size c' = Cache._max_size c
    /\ PyDict.get (Cache._make_key lat lng params) (Cache._cache c') = Some (now, value)
    /\ (NoDup (PyDict.keys (Cache._cache c)) -> NoDup (PyDict.keys (Cache._cache c')))
    /\ forall x, In x (Cache._cache c') ->
         x = (Cache._make_key lat lng params, (now, value)) \/ In x (Cache._cache c).
Proof.
  intros Hmax. unfold Cache.set.
  destruct (Cache._max_size c <=? Z.of_nat (length (Cache._cache c))) eqn:Efull.
  - apply Z.leb_le in Efull.
    destruct (Cache.oldest_key (Cache._cache c)) as [oldest|e] eqn:Eo.
    2:{ exfalso. destruct (Cache._cache c) as [|[k0 [t0 v0]] r];
          [simpl in Efull; lia | discriminate]. }
    eexists. split; [reflexivity|]. simpl.
    split; [reflexivity|]. split; [apply PyDictFacts.get_set_eq|]. split.
    + intros Hnd. apply PyDictFacts.NoDup_set. now apply PyDictFacts.NoDup_del.
    + intros x Hin. apply In_set in Hin. destruct Hin as [-> | Hin]; [now left|].
      right. eapply In_del. exact Hin.
  - eexists. split; [reflexivity|]. simpl.
    split; [reflexivity|]. split; [apply PyDictFacts.get_set_eq|]. split.
    + intros Hnd. now apply PyDictFacts.NoDup_set.
    + intros x Hin. apply In_set in Hin. tauto.
Qed.

(** The two ways a [get] can go. *)
Lemma get_cases (c : Cache.ImageCache) (lat lng : Q)
    (params : list (string * pyval)) (now : Q) :
  NoDup (PyDict.keys (Cache._cache c)) ->
  let key := Cache._make_key lat lng params in
  (exists ts v,
      PyDict.get key (Cache._cache c) = Some (ts, v)
      /\ (now - ts < inject_Z (Cache._ttl c))%Q
      /\ Cache.get lat lng params now c = (v, Cache.count_hit c))
  \/ ((PyDict.get key (Cache._cache c) = None
       \/ exists ts v, PyDict.get key (Cache._cache c) = Some (ts, v)
            /\ (inject_Z (Cache._ttl c) <= now - ts)%Q)
      /\ fst (Cache.get lat lng params now c) = VNone
      /\ PyDict.get key (Cache._cache (snd (Cache.get lat lng params now c))) = None).
Proof.
  intros Hnd key. unfold Cache.get. fold key.
  destruct (PyDict.get key (Cache._cache c)) as [[ts v]|] eqn:G.
  - destruct (Qlt_bool (now - ts) (inject_Z (Cache._ttl c))) eqn:F.
    + left. apply Qlt_bool_iff in F. eauto.
    + right. apply Qlt_bool_false_iff in F. split; [right; eauto|].
      split; [reflexivity|]. simpl. now apply get_del_eq.
  - right. split; [now left|]. split; [reflexivity | exact G].
Qed.

Lemma succeeded_not_empty (d : pydict) : succeeded d = true -> d <> [].
Proof. intros H ->. discriminate. Qed.

(** What the spec asks of one call of a cache-aware wrapper, from the
    cache [c], heap [h] and fetch log [log] it starts with to the
    result [r] and the cache, heap and log it leaves.  On a hit the
    stored value is returned, marked ["from_cache"], and nothing is
    fetched.  On a miss the tool is called; its dict becomes an object
    that is returned, and it is stored under the key exactly when it
    reports success; otherwise, and when the tool raises, the cache
    holds nothing under the key. *)
Definition serves
    (c : Cache.ImageCache) (h : list pydict) (log : list fetch_call)
    (lat lng : Q) (params : list (string * pyval)) (t_get t_set : Q)
    (tool : outcome pydict) (call : fetch_call)
    (r : outcome pyval) (c' : Cache.ImageCache) (h' : list pydict)
    (log' : list fetch_call) : Prop :=
  let key := Cache._make_key lat lng params in
  (forall ts v,
      PyDict.get key (Cache._cache c) = Some (ts, v) ->
      (t_get - ts < inject_Z (Cache._ttl c))%Q ->
      r = Returned v /\ log' = log /\ c' = Cache.count_hit c
      /\ exists l d, v = VRef l /\ h !! l = Some d
           /\ h' = <[ l := PyDict.set "from_cache" (VBool true) d ]> h)
  /\ ((PyDict.get key (Cache._cache c) = None
       \/ exists ts v, PyDict.get key (Cache._cache c) = Some (ts, v)
            /\ (inject_Z (Cache._ttl c) <= t_get - ts)%Q) ->
      let c1 := snd (Cache.get lat lng params t_get c) in
      log' = (log ++ [call])%list
      /\ match tool with
         | Raised e =>
             r = Raised e /\ h' = h /\ c' = c1
             /\ PyDict.get key (Cache._cache c') = None
         | Returned d =>
             r = Returned (VRef (length h)) /\ h' = (h ++ [d])%list
             /\ (succeeded d = true ->
                   Cache.set lat lng (VRef (length h)) params t_set c1 = Returned c'
                   /\ PyDict.get key (Cache._cache c')
                      = Some (t_set, VRef (length h)))
             /\ (succeeded d = false ->
                   c' = c1 /\ PyDict.get key (Cache._cache c') = None)
         end).

Lemma cached_call_serves
    (c : Cache.ImageCache) (h : list pydict) (log : list fetch_call)
    (lat lng : Q) (params : list (string * pyval)) (t_get t_set : Q)
    (tool : outcome pydict) (call : fetch_call)
    (r : outcome pyval) (c' : Cache.ImageCache) (h' : list pydict) (fetched : bool) :
  cache_refs_ok h c ->
  cached_call c h lat lng params t_get t_set tool = (r, c', h', fetched) ->
  serves c h log lat lng params t_get t_set tool call r c' h'
         (Agent.log fetched call log)
  /\ cache_refs_ok h' c' /\ keeps_dicts h h'.
Proof.
  intros Hok. pose proof Hok as (Hmax & Hnd & Hrefs).
  unfold cached_call.
  destruct (get_cases c lat lng params t_get Hnd)
    as [(ts & v & G & Hfresh & Hget) | (Hmiss & Hnone & Hgone)].
  - (* hit *)
    rewrite Hget.
    destruct (Hrefs _ ts v (PyDictFacts.get_Some_In _ _ _ G)) as (l & d & -> & Hl & Hne).
    unfold truthy, setitem. unfold pydict, PyDict.t in *. rewrite !Hl.
    assert (Ht : match d with [] => false | _ :: _ => true end = true)
      by (destruct d; congruence).
    rewrite Ht. cbv beta iota. intros [= <- <- <- <-]. split; [|split].
    + split.
      * intros ts0 v0 G0 _. rewrite G in G0. injection G0 as <- <-.
        repeat split. exists l, d. auto.
      * intros [G0 | (ts0 & v0 & G0 & Hold)].
        -- congruence.
        -- rewrite G in G0. injection G0 as <- <-.
           exfalso. exact (Qlt_not_le _ _ Hfresh Hold).
    + apply cache_refs_ok_heap with h; [now apply keeps_dicts_mark|].
      repeat split; assumption.
    + now apply keeps_dicts_mark.
  - (* miss *)
    pose proof (cache_refs_ok_get h c lat lng params t_get Hok) as Hok1.
    destruct (Cache.get lat lng params t_get c) as [cached c1] eqn:Hget.
    simpl in Hnone, Hgone, Hok1. subst cached. simpl truthy. cbv iota.
    assert (Hnohit : forall ts v,
               PyDict.get (Cache._make_key lat lng params) (Cache._cache c) = Some (ts, v) ->
               (t_get - ts < inject_Z (Cache._ttl c))%Q -> False).
    { intros ts v G Hfresh. destruct Hmiss as [G0 | (ts0 & v0 & G0 & Hold)].
      - congruence.
      - rewrite G in G0. injection G0 as <- <-. exact (Qlt_not_le _ _ Hfresh Hold). }
    destruct tool as [d|e].
    + unfold alloc. destruct (succeeded d) eqn:Hs.
      * destruct Hok1 as (Hmax1 & Hnd1 & Hrefs1).
        destruct (set_returns c1 lat lng (VRef (length h)) params t_set Hmax1)
          as (c2 & Hset & Hmax2 & Hstored & Hnd2 & Hin2).
        rewrite Hset. intros [= <- <- <- <-]. split; [|split].
        -- split; [intros ts v G Hf; destruct (Hnohit ts v G Hf)|].
           intros _. simpl. rewrite Hget. simpl. split; [reflexivity|].
           split; [reflexivity|]. split; [reflexivity|].
           split; [intros _; split; assumption | intros Hf; congruence].
        -- repeat split; [lia | auto |].
           intros k ts v Hin. apply Hin2 in Hin. destruct Hin as [Heq | Hin].
           ++ injection Heq as _ _ ->. exists (length h), d.
              split; [reflexivity|]. split; [|now apply succeeded_not_empty].
              now apply list_lookup_middle.
           ++ destruct (Hrefs1 k ts v Hin) as (l & d0 & -> & Hl & Hne).
              destruct (keeps_dicts_alloc h d l d0 Hl Hne) as (d' & Hl' & Hne'). eauto.
        -- apply keeps_dicts_alloc.
      * intros [= <- <- <- <-]. split; [|split].
        -- split; [intros ts v G Hf; destruct (Hnohit ts v G Hf)|].
           intros _. simpl. rewrite Hget. simpl. split; [reflexivity|].
           split; [reflexivity|]. split; [reflexivity|].
           split; [intros Hf; congruence | intros _; split; [reflexivity | assumption]].
        -- apply cache_refs_ok_heap with h; [apply keeps_dicts_alloc | assumption].
        -- apply keeps_dicts_alloc.
    + intros [= <- <- <- <-]. split; [|split].
      * split; [intros ts v G Hf; destruct (Hnohit ts v G Hf)|].
        intros _. simpl. rewrite Hget. simpl. repeat split; auto.
      * assumption.
      * apply keeps_dicts_refl.
Qed.

Lemma initial_ok : state_ok initial.
Proof.
  split; (split; [simpl; lia|]; split; [constructor|]; intros k ts v []).
Qed.

Lemma clear_refs_ok (h : list pydict) (c : Cache.ImageCache) :
  cache_refs_ok h c -> cache_refs_ok h (Cache.clear c).
Proof.
  intros (Hmax & _ & _). split; [exact Hmax|]. split; [constructor|].
  intros k ts v [].
Qed.

Lemma overhead_step (w : world) (t_get t_set lat lng : Q) (zoom : Z)
    (map_type : string) (s : state) :
  state_ok s ->
  let r := cached_get_overhead_view w t_get t_set lat lng zoom map_type s in
  serves (overhead_cache s) (heap s) (fetches s) lat lng
         (overhead_key_params zoom map_type) t_get t_set
         (Vision.get_overhead_view w lat lng zoom map_type true)
         (FetchOverhead lat lng zoom map_type)
         (fst r) (overhead_cache (snd r)) (heap (snd r)) (fetches (snd r))
  /\ streetview_cache (snd r) = streetview_cache s
  /\ state_ok (snd r).
Proof.
  intros [Ho Hs] r. subst r. unfold cached_get_overhead_view.
  destruct (cached_call _ _ _ _ _ _ _ _) as [[[r c'] h'] fetched] eqn:E.
  destruct (cached_call_serves _ _ (fetches s) _ _ _ _ _ _
              (FetchOverhead lat lng zoom map_type) _ _ _ _ Ho E)
    as (Hserves & Hok & Hkeep).
  simpl. split; [exact Hserves|]. split; [reflexivity|].
  split; [exact Hok|]. now apply cache_refs_ok_heap with (heap s).
Qed.

Lemma street_step (w : world) (t_get t_set lat lng : Q) (heading pitch fov : Z)
    (s : state) :
  state_ok s ->
  let r := cached_get_street_view w t_get t_set lat lng heading pitch fov s in
  serves (streetview_cache s) (heap s) (fetches s) lat lng
         (street_key_params heading pitch fov) t_get t_set
         (Vision.get_street_view w lat lng heading pitch fov true)
         (FetchStreet lat lng heading pitch fov)
         (fst r) (streetview_cache (snd r)) (heap (snd r)) (fetches (snd r))
  /\ overhead_cache (snd r) = overhead_cache s
  /\ state_ok (snd r).
Proof.
  intros [Ho Hs] r. subst r. unfold cached_get_street_view.
  destruct (cached_call _ _ _ _ _ _ _ _) as [[[r c'] h'] fetched] eqn:E.
  destruct (cached_call_serves _ _ (fetches s) _ _ _ _ _ _
              (FetchStreet lat lng heading pitch fov) _ _ _ _ Hs E)
    as (Hserves & Hok & Hkeep).
  simpl. split; [exact Hserves|]. split; [reflexivity|].
  split; [|exact Hok]. now apply cache_refs_ok_heap with (heap s).
Qed.

Lemma reachable_ok (s : state) : reachable s -> state_ok s.
Proof.
  induction 1 as [| w t_get t_set lat lng zoom map_type s _ IH
                  | w t_get t_set lat lng heading pitch fov s _ IH
                  | s _ IH].
  - exact initial_ok.
  - now apply overhead_step.
  - now apply street_step.
  - destruct IH as [Ho Hs]. split; now apply clear_refs_ok.
Qed.


(** What serving a hit does to the stored payload: the caller gets the
    very object the cache holds; the cache keeps its entries as they
    are; the object gains a true ["from_cache"] and keeps every other
    key; no other object changes. *)
Definition marks_shared_payload
    (c : Cache.ImageCache) (h : list pydict) (v : pyval)
    (r : outcome pyval) (c' : Cache.ImageCache) (h' : list pydict) : Prop :=
  exists l d d',
    v = VRef l /\ h !! l = Some d /\ r = Returned (VRef l)
    /\ Cache._cache c' = Cache._cache c
    /\ h' !! l = Some d'
    /\ PyDict.get "from_cache" d' = Some (VBool true)
    /\ (forall k, k <> "from_cache" -> PyDict.get k d' = PyDict.get k d)
    /\ (forall l', l' <> l -> h' !! l' = h !! l').

Lemma serves_hit_marks
    (c : Cache.ImageCache) (h : list pydict) (log : list fetch_call)
    (lat lng : Q) (params : list (string * pyval)) (t_get t_set : Q)
    (tool : outcome pydict) (call : fetch_call)
    (r : outcome pyval) (c' : Cache.ImageCache) (h' : list pydict)
    (log' : list fetch_call) (ts : Q) (v : pyval) :
  serves c h log lat lng params t_get t_set tool call r c' h' log' ->
  PyDict.get (Cache._make_key lat lng params) (Cache._cache c) = Some (ts, v) ->
  (t_get - ts < inject_Z (Cache._ttl c))%Q ->
  marks_shared_payload c h v r c' h'.
Proof.
  intros [Hhit _] G Hfresh.
  destruct (Hhit ts v G Hfresh) as (-> & _ & -> & l & d & -> & Hl & ->).
  exists l, d, (PyDict.set "from_cache" (VBool true) d).
  split; [reflexivity|]. split; [exact Hl|]. split; [reflexivity|].
  split; [reflexivity|]. split.
  { apply list_lookup_insert_eq. now apply lookup_lt_Some in Hl. }
  split; [apply PyDictFacts.get_set_eq|]. split.
  { intros k Hk. apply PyDictFacts.get_set_ne. congruence. }
  intros l' Hl'. apply list_lookup_insert_ne. congruence.
Qed.

(** C7, as the code has it. The payload is an object shared by the
    cache and its callers: serving a hit hands out the stored object
    itself and sets ["from_cache"] on it, so what the cache holds from
    then on is the payload as set plus that mark; the entry itself and
    all other keys and objects stay as they were. *)
Theorem hit_marks_the_shared_payload
    (s : state) (w : world) (t_get t_set lat lng : Q)
    (zoom : Z) (map_type : string) (heading pitch fov : Z) :
  reachable s ->
  (forall ts v,
      PyDict.get (Cache._make_key lat lng (overhead_key_params zoom map_type))
                 (Cache._cache (overhead_cache s)) = Some (ts, v) ->
      (t_get - ts < inject_Z (Cache._ttl (overhead_cache s)))%Q ->
      let r := cached_get_overhead_view w t_get t_set lat lng zoom map_type s in
      marks_shared_payload (overhead_cache s) (heap s) v
                           (fst r) (overhead_cache (snd r)) (heap (snd r)))
  /\ (forall ts v,
      PyDict.get (Cache._make_key lat lng (street_key_params heading pitch fov))
                 (Cache._cache (streetview_cache s)) = Some (ts, v) ->
      (t_get - ts < inject_Z (Cache._ttl (streetview_cache s)))%Q ->
      let r := cached_get_street_view w t_get t_set lat lng heading pitch fov s in
      marks_shared_payload (streetview_cache s) (heap s) v
                           (fst r) (streetview_cache (snd r)) (heap (snd r))).
Proof.
  intros Hreach. apply reachable_ok in Hreach. split; intros ts v G Hfresh r.
  - destruct (overhead_step w t_get t_set lat lng zoom map_type s Hreach)
      as (H1 & _ & _). exact (serves_hit_marks _ _ _ _ _ _ _ _ _ _ _ _ _ _ _ _ H1 G Hfresh).
  - destruct (street_step w t_get t_set lat lng heading pitch fov s Hreach)
      as (H1 & _ & _). exact (serves_hit_marks _ _ _ _ _ _ _ _ _ _ _ _ _ _ _ _ H1 G Hfresh).
Qed.

End Facts.
End AgentFacts.

(** C7, as the spec words it, fails: a payload is stored by a first
    call and served by a second; after that the dict the cache holds,
    which a later [get] returns, carries the mark and is no longer the
    dict that was stored. *)
Lemma stored_payload_gets_marked :
  let params := Agent.overhead_key_params 18 "satellite" in
  let s1 := snd (Agent.cached_get_overhead_view (P := plain_platform)
                   online_world 10 11 (1 # 2) (1 # 3) 18 "satellite" Agent.initial) in
  let s2 := snd (Agent.cached_get_overhead_view (P := plain_platform)
                   online_world 20 21 (1 # 2) (1 # 3) 18 "satellite" s1) in
  exists l d1 d2,
    fst (Cache.get (P := plain_platform) (1 # 2) (1 # 3) params 12
           (Agent.overhead_cache s1)) = VRef l
    /\ Agent.heap s1 !! l = Some d1
    /\ PyDict.get "from_cache" d1 = None
    /\ fst (Cache.get (P := plain_platform) (1 # 2) (1 # 3) params 22
              (Agent.overhead_cache s2)) = VRef l
    /\ Agent.heap s2 !! l = Some d2
    /\ PyDict.get "from_cache" d2 = Some (VBool true)
    /\ d2 <> d1.
Proof.
  exists 0%nat. eexists. eexists.
  split; [vm_compute; reflexivity|].
  split; [vm_compute; reflexivity|].
  split; [vm_compute; reflexivity|].
  split; [vm_compute; reflexivity|].
  split; [vm_compute; reflexivity|].
  split; [vm_compute; reflexivity|].
  intros H. apply (f_equal (PyDict.get "from_cache")) in H.
  vm_compute in H. discriminate.
Qed.

(** * Worked instances *)

(** C1 at a cache of two entries that has served two writes. *)
Lemma capacity_bound_and_eviction_witness :
  1 <= 2
  /\ Z.of_nat (length (Cache._cache
        (Cache.run (P := plain_platform)
           [ Cache.OpSet 1 0 (VStr "A") [] 1; Cache.OpSet 2 0 (VStr "B") [] 2 ]
           (Cache.init 3600 2)))) <= 2.
Proof.
  split; [lia|].
  exact (proj1 (CacheFacts.capacity_bound_and_eviction (P := plain_platform)
                  3600 2
                  [ Cache.OpSet 1 0 (VStr "A") [] 1; Cache.OpSet 2 0 (VStr "B") [] 2 ]
                  3 0 (VStr "C") [] 3 ltac:(lia))).
Defined.

(** C2 at a cache that holds one entry written at time 100. *)
Lemma get_hit_expired_absent_witness :
  let c := Cache.run (P := plain_platform)
             [ Cache.OpSet 1 2 (VStr "payload") [] 100 ] (Cache.init 3600 10) in
  fst (Cache.get (P := plain_platform) 1 2 [] 200 c) = VStr "payload"
  /\ fst (Cache.get (P := plain_platform) 1 2 [] 3700 c) = VNone
  /\ fst (Cache.get (P := plain_platform) 5 6 [] 200 c) = VNone.
Proof.
  intros c. split; [|split].
  - destruct (CacheFacts.get_hit_expired_absent (P := plain_platform) 1 2 [] 200 c)
      as (Hhit & _ & _).
    destruct (Hhit 100%Q (VStr "payload")) as (H & _);
      [reflexivity | vm_compute; reflexivity |].
    now rewrite H.
  - destruct (CacheFacts.get_hit_expired_absent (P := plain_platform) 1 2 [] 3700 c)
      as (_ & Hold & _).
    destruct (Hold 100%Q (VStr "payload")) as (H & _);
      [reflexivity | vm_compute; discriminate |].
    exact H.
  - destruct (CacheFacts.get_hit_expired_absent (P := plain_platform) 5 6 [] 200 c)
      as (_ & _ & Hnone).
    destruct Hnone as (H & _); [reflexivity|]. now rewrite H.
Defined.

(** C6 at an empty cache. *)
Lemma get_after_set_witness :
  exists c',
    Cache.set (P := plain_platform) 1 2 (VStr "payload") [] 100 (Cache.init 3600 10)
    = Returned c'
    /\ Cache.get (P := plain_platform) 1 2 [] 200 c'
       = (VStr "payload", Cache.count_hit c').
Proof.
  eexists. split; [reflexivity|].
  apply (CacheFacts.get_after_set (P := plain_platform) 1 2 (VStr "payload") []
           100 200 (Cache.init 3600 10)); [reflexivity | vm_compute; reflexivity].
Defined.

(** C10's theorem after one hit and two misses. *)
Lemma stats_reports_rounded_hit_rate_witness :
  let ops := [ Cache.OpGet 1 2 [] 10; Cache.OpGet 1 2 [] 11;
               Cache.OpSet 1 2 (VStr "payload") [] 12; Cache.OpGet 1 2 [] 13 ] in
  let c := Cache.run (P := plain_platform) ops (Cache.init 3600 100) in
  Cache._hits c = 1 /\ Cache._misses c = 2
  /\ exists (n : Z) (rate : Q),
       PyDict.get "hit_rate" (Cache.stats c) = Some (VFloat rate)
       /\ 0 <= n <= 1000
       /\ rate = Float.rd (inject_Z n / 1000)
       /\ (Qabs (rate - (1 # 3)) <= (1 # 2000) + Float.pow2 (-52))%Q.
Proof.
  intros ops c.
  split; [reflexivity|]. split; [reflexivity|].
  destruct (CacheFacts.stats_reports_rounded_hit_rate (P := plain_platform)
              3600 100 ops) as (_ & _ & _ & _ & _ & _ & _ & Hrate).
  destruct Hrate as (n & rate & Hget & Hn & Hnear & _ & _ & _ & Hclose & _);
    [reflexivity|].
  exists n, rate. split; [exact Hget|]. split; [exact Hn|].
  split; [exact Hnear | exact Hclose].
Defined.

(** C9 at a heading of 0 with a bearing of 90, and at the doubles
    nearest to 0.1 and 22.6. *)
Lemma relative_direction_partitions_witness :
  GeoMath.get_relative_direction (Float.Fin 0) (Float.Fin 90)
  = "to your RIGHT (3 o'clock)"
  /\ exists r,
       GeoMath.relative_angle (Float.Fin (Float.rd (1 # 10)))
                              (Float.Fin (Float.rd (226 # 10))) = Float.Fin r
       /\ (0 <= r < 360)%Q
       /\ GeoMath.get_relative_direction (Float.Fin (Float.rd (1 # 10)))
                                         (Float.Fin (Float.rd (226 # 10)))
          = "directly AHEAD".
Proof.
  split.
  - destruct (GeoMathFacts.relative_direction_partitions (Float.Fin 0) (Float.Fin 90))
      as (_ & _ & Hnum & _).
    edestruct Hnum as (_ & k & Hk & Hin & Hlabel & Huniq);
      [vm_compute; reflexivity|].
    rewrite Hlabel, <- (Huniq 2%nat); [reflexivity|].
    vm_compute. split; [reflexivity | discriminate].
  - destruct (GeoMathFacts.relative_direction_partitions
                (Float.Fin (Float.rd (1 # 10))) (Float.Fin (Float.rd (226 # 10))))
      as (_ & _ & Hnum & _).
    edestruct Hnum as (Hrange & k & Hk & Hin & Hlabel & Huniq);
      [vm_compute; reflexivity|].
    eexists. split; [vm_compute; reflexivity|]. split; [exact Hrange|].
    rewrite Hlabel, <- (Huniq 0%nat); [reflexivity|].
    vm_compute. left. discriminate.
Defined.

(** C4 for two timeouts followed by a 200 response. *)
Lemma fetch_retry_policy_witness :
  let answer := {| Fetch.status_code := 200; Fetch.text := "OK";
                   Fetch.content := "image-bytes" |} in
  let client_get := fun n : nat =>
    match n with
    | 1%nat | 2%nat => Raised (TimeoutException "timed out")
    | _ => Returned answer
    end in
  Fetch.result (Fetch._fetch_with_retry client_get) = Returned answer
  /\ Fetch.attempts (Fetch._fetch_with_retry client_get) = 3%nat
  /\ Fetch.sleeps (Fetch._fetch_with_retry client_get) = [1; 2].
Proof.
  intros answer client_get.
  destruct (FetchFacts.fetch_retry_policy client_get)
    as (_ & _ & _ & _ & _ & _ & _ & _ & _ & H).
  apply (H "timed out" "timed out" answer); [reflexivity | reflexivity | reflexivity |].
  simpl. lia.
Defined.

(** C8 for a heading of 370, a pitch of 100 and a field of view of 10
    while the API answers. *)
Lemma street_view_normalises_and_annotates_witness :
  Vision.get_maps_api_key online_world = Returned "test-key"
  /\ exists d,
       Vision.get_street_view (P := plain_platform) online_world 0 0 370 100 10 true
       = Returned d
       /\ PyDict.get "success" d = Some (VBool true)
       /\ PyDict.get "parameters" d
          = Some (VDict [ ("lat", VFloat 0); ("lng", VFloat 0);
                          ("heading", VInt 10); ("pitch", VInt 90); ("fov", VInt 20);
                          ("facing", VStr "North") ]).
Proof.
  split; [reflexivity|].
  destruct (VisionFacts.street_view_normalises_and_annotates (P := plain_platform)
              online_world 0 0 370 100 10 true)
    as (_ & _ & _ & _ & _ & _ & Hcall & _).
  destruct (Hcall "test-key"
              {| Fetch.status_code := 200; Fetch.text := "OK";
                 Fetch.content := "image-bytes" |} eq_refl eq_refl
              ltac:(simpl; lia))
    as (d & Hd & Hok & Hparams & _).
  exists d. split; [exact Hd|]. split; [exact Hok | exact Hparams].
Defined.

(** C5 when only the leg heading east fails. *)
Lemma panoramic_reports_each_direction_witness :
  PyDict.get "success"
    (Vision.explore_panoramic (P := plain_platform) east_fails_world 0 0 0 90 1)
  = Some (VBool false)
  /\ map Vision.leg_succeeded
       (Vision.tasks (P := plain_platform) east_fails_world 0 0 0 90)
     = [true; false; true; true].
Proof.
  destruct (VisionFacts.panoramic_reports_each_direction (P := plain_platform)
              east_fails_world 0 0 0 90 1)
    as (_ & views & _ & _ & _ & Hsuccess & _).
  split; [exact Hsuccess | vm_compute; reflexivity].
Defined.


(** C7's theorem for a second call that hits what the first stored. *)
Lemma hit_marks_the_shared_payload_witness :
  AgentFacts.marks_shared_payload
    (Agent.overhead_cache
       (snd (Agent.cached_get_overhead_view (P := plain_platform)
               online_world 10 11 (1 # 2) (1 # 3) 18 "satellite" Agent.initial)))
    (Agent.heap
       (snd (Agent.cached_get_overhead_view (P := plain_platform)
               online_world 10 11 (1 # 2) (1 # 3) 18 "satellite" Agent.initial)))
    (VRef 0%nat)
    (fst (Agent.cached_get_overhead_view (P := plain_platform)
            online_world 20 21 (1 # 2) (1 # 3) 18 "satellite"
            (snd (Agent.cached_get_overhead_view (P := plain_platform)
                    online_world 10 11 (1 # 2) (1 # 3) 18 "satellite" Agent.initial))))
    (Agent.overhead_cache
       (snd (Agent.cached_get_overhead_view (P := plain_platform)
               online_world 20 21 (1 # 2) (1 # 3) 18 "satellite"
               (snd (Agent.cached_get_overhead_view (P := plain_platform)
                       online_world 10 11 (1 # 2) (1 # 3) 18 "satellite" Agent.initial)))))
    (Agent.heap
       (snd (Agent.cached_get_overhead_view (P := plain_platform)
               online_world 20 21 (1 # 2) (1 # 3) 18 "satellite"
               (snd (Agent.cached_get_overhead_view (P := plain_platform)
                       online_world 10 11 (1 # 2) (1 # 3) 18 "satellite" Agent.initial))))).
Proof.
  apply (proj1 (AgentFacts.hit_marks_the_shared_payload (P := plain_platform)
                  _ online_world 20 21 (1 # 2) (1 # 3) 18 "satellite" 0 0 90
                  (Agent.reach_overhead online_world 10 11 (1 # 2) (1 # 3) 18 "satellite"
                     Agent.initial Agent.reach_initial))
           11%Q (VRef 0%nat)); [vm_compute; reflexivity | vm_compute; reflexivity].
Defined.

(** * Further properties *)

(** ** More about one cache instance *)

Module CacheMore.
Section Facts.
Context {P : Platform}.
Import Cache.

Lemma set_keeps_unique_keys (lat lng : Q) (value : pyval)
    (params : list (string * pyval)) (now : Q) (c c' : ImageCache) :
  NoDup (PyDict.keys (_cache c)) ->
  set lat lng value params now c = Returned c' ->
  NoDup (PyDict.keys (_cache c')).
Proof.
  intros Hnd. unfold set.
  destruct (_max_size c <=? Z.of_nat (length (_cache c))).
  - destruct (oldest_key (_cache c)) as [k|e]; [|discriminate].
    intros [= <-]. simpl. apply PyDictFacts.NoDup_set. now apply PyDictFacts.NoDup_del.
  - intros [= <-]. simpl. now apply PyDictFacts.NoDup_set.
Qed.

Lemma step_keeps_unique_keys (c : ImageCache) (o : op) :
  NoDup (PyDict.keys (_cache c)) -> NoDup (PyDict.keys (_cache (step c o))).
Proof.
  intros Hnd. destruct o; simpl.
  - unfold get. destruct (PyDict.get _ _) as [[ts v]|]; [|assumption].
    destruct (Qlt_bool _ _); [assumption|]. simpl. now apply PyDictFacts.NoDup_del.
  - destruct (set lat lng value params now c) eqn:E; [|assumption].
    eapply set_keeps_unique_keys; eauto.
  - unfold invalidate. destruct (PyDict.mem _ _); [|assumption].
    simpl. now apply PyDictFacts.NoDup_del.
  - constructor.
  - assumption.
  - assumption.
Qed.

(** Whatever its maximum, an instance never holds a key twice. *)
Lemma run_keeps_unique_keys (ops : list op) : forall c,
  NoDup (PyDict.keys (_cache c)) -> NoDup (PyDict.keys (_cache (run ops c))).
Proof.
  unfold run. induction ops as [|o ops IH]; intros c Hnd; simpl; [assumption|].
  apply IH. now apply step_keeps_unique_keys.
Qed.

(** [invalidate] reports whether the key was there and leaves the
    instance without it: a [get] that follows misses, the entries under
    other keys and both counters are as before, and the store is one
    entry shorter exactly when the key was there. *)
Theorem invalidate_removes_the_entry
    (ttl max_size : Z) (ops : list op)
    (lat lng : Q) (params : list (string * pyval)) (now : Q) :
  let c := run ops (init ttl max_size) in
  let key := _make_key lat lng params in
  let found := fst (invalidate lat lng params c) in
  let c' := snd (invalidate lat lng params c) in
  found = PyDict.mem key (_cache c)
  /\ PyDict.get key (_cache c') = None
  /\ (forall k, k <> key -> PyDict.get k (_cache c') = PyDict.get k (_cache c))
  /\ _hits c' = _hits c /\ _misses c' = _misses c
  /\ (found = true -> S (length (_cache c')) = length (_cache c))
  /\ (found = false -> c' = c)
  /\ get lat lng params now c' = (VNone, count_miss c').
Proof.
  intros c key found c'.
  assert (Hnd : NoDup (PyDict.keys (_cache c))).
  { apply run_keeps_unique_keys. constructor. }
  assert (Hgone : PyDict.get key (_cache c') = None).
  { subst c'. unfold invalidate. fold key.
    destruct (PyDict.mem key (_cache c)) eqn:E; simpl.
    - now apply AgentFacts.get_del_eq.
    - unfold PyDict.mem in E. now destruct (PyDict.get key (_cache c)). }
  split.
  { subst found. unfold invalidate. fold key. now destruct (PyDict.mem key (_cache c)). }
  split; [exact Hgone|]. split.
  { intros k Hk. subst c'. unfold invalidate. fold key.
    destruct (PyDict.mem key (_cache c)); simpl; [|reflexivity].
    apply PyDictFacts.get_del_ne. congruence. }
  split.
  { subst c'. unfold invalidate. now destruct (PyDict.mem _ _). }
  split.
  { subst c'. unfold invalidate. now destruct (PyDict.mem _ _). }
  split.
  { subst found c'. unfold invalidate. fold key.
    destruct (PyDict.mem key (_cache c)) eqn:E; simpl; [|discriminate].
    intros _. now apply PyDictFacts.length_del. }
  split.
  { subst found c'. unfold invalidate. fold key.
    destruct (PyDict.mem key (_cache c)); simpl; [discriminate | reflexivity]. }
  unfold get. fold key. now rewrite Hgone.
Qed.

(** [min] over the timestamps picks, among the entries with the
    smallest timestamp, the one that comes first in the dict: every
    entry before it is strictly younger, every entry after it at least
    as young. *)
Lemma oldest_from_first_minimal (d : PyDict.t (Q * pyval)) : forall best bts,
  let k := oldest_from best bts d in
  (k = best /\ forall x, In x d -> (bts <= fst (snd x))%Q)
  \/ (exists pre ts v post,
        d = (pre ++ (k, (ts, v)) :: post)%list /\ (ts < bts)%Q
        /\ (forall x, In x pre -> (ts < fst (snd x))%Q)
        /\ (forall x, In x post -> (ts <= fst (snd x))%Q)).
Proof.
  induction d as [|[k0 [t0 v0]] r IH]; intros best bts; simpl.
  - left. split; [reflexivity|]. intros x [].
  - destruct (Qlt_bool t0 bts) eqn:E.
    + apply Qlt_bool_iff in E. right.
      destruct (IH k0 t0) as [[Hk Hall] | (pre & ts & v & post & Hd & Hlt & Hpre & Hpost)].
      * exists [], t0, v0, r. rewrite Hk.
        split; [reflexivity|]. split; [exact E|]. split; [intros x []|].
        intros x Hin. exact (Hall x Hin).
      * exists ((k0, (t0, v0)) :: pre), ts, v, post.
        split; [simpl; f_equal; exact Hd|].
        split; [now apply Qlt_trans with t0|].
        split; [|exact Hpost].
        intros x [<- | Hin]; [exact Hlt | auto].
    + apply Qlt_bool_false_iff in E.
      destruct (IH best bts) as [[Hk Hall] | (pre & ts & v & post & Hd & Hlt & Hpre & Hpost)].
      * left. split; [exact Hk|]. intros x [<- | Hin]; [exact E | auto].
      * right. exists ((k0, (t0, v0)) :: pre), ts, v, post.
        split; [simpl; f_equal; exact Hd|].
        split; [exact Hlt|]. split; [|exact Hpost].
        intros x [<- | Hin]; [simpl; now apply Qlt_le_trans with bts | auto].
Qed.

Lemma del_middle {A : Type} (k : string) (x : A) (pre post : PyDict.t A) :
  ~ In k (PyDict.keys pre) ->
  PyDict.del k (pre ++ (k, x) :: post)%list = (pre ++ post)%list.
Proof.
  induction pre as [|[k' v'] pre IH]; simpl; intros Hnot.
  - now rewrite String.eqb_refl.
  - destruct (String.eqb k k') eqn:E.
    + apply String.eqb_eq in E. subst k'. tauto.
    + f_equal. apply IH. tauto.
Qed.

Lemma NoDup_keys_middle {A : Type} (k : string) (x : A) (pre post : PyDict.t A) :
  NoDup (PyDict.keys (pre ++ (k, x) :: post)%list) -> ~ In k (PyDict.keys pre).
Proof.
  unfold PyDict.keys. rewrite map_app. simpl. intros Hnd Hin.
  apply NoDup_ListNoDup in Hnd.
  apply List.NoDup_remove_2 in Hnd. apply Hnd. apply in_or_app. now left.
Qed.

(** A [set] that finds the instance at capacity evicts in the order of
    writing: of the entries with the smallest timestamp it removes the
    one that stands first in the dict, keeps all others in their order,
    and then stores the new entry.  With no entry and a maximum of zero
    or less there is nothing to evict and [set] raises. *)
Theorem set_evicts_the_first_oldest
    (ttl max_size : Z) (ops : list op)
    (lat lng : Q) (value : pyval) (params : list (string * pyval)) (now : Q) :
  let c := run ops (init ttl max_size) in
  _max_size c <= Z.of_nat (length (_cache c)) ->
  (_cache c = [] ->
     exists msg, set lat lng value params now c = Raised (ValueError msg))
  /\ (_cache c <> [] ->
      exists k pre ts v post,
        _cache c = (pre ++ (k, (ts, v)) :: post)%list
        /\ (forall x, In x pre -> (ts < fst (snd x))%Q)
        /\ (forall x, In x post -> (ts <= fst (snd x))%Q)
        /\ set lat lng value params now c
           = Returned (with_cache
                         (PyDict.set (_make_key lat lng params) (now, value)
                            (pre ++ post)%list) c)).
Proof.
  intros c Hfull.
  assert (Hnd : NoDup (PyDict.keys (_cache c))).
  { apply run_keeps_unique_keys. constructor. }
  apply Z.leb_le in Hfull. split.
  - intros Hnil. unfold set. rewrite Hfull, Hnil. eexists. reflexivity.
  - intros Hne. unfold set. rewrite Hfull.
    destruct (_cache c) as [|[k0 [t0 v0]] r] eqn:Ec; [congruence|].
    simpl oldest_key.
    destruct (oldest_from_first_minimal r k0 t0)
      as [[Hk Hall] | (pre & ts & v & post & Hd & Hlt & Hpre & Hpost)].
    + exists k0, [], t0, v0, r. rewrite Hk.
      split; [reflexivity|]. split; [intros x []|].
      split; [intros x Hin; exact (Hall x Hin)|].
      simpl. now rewrite String.eqb_refl.
    + exists (oldest_from k0 t0 r), ((k0, (t0, v0)) :: pre), ts, v, post.
      assert (Hsplit : (k0, (t0, v0)) :: r
                       = (((k0, (t0, v0)) :: pre)
                            ++ (oldest_from k0 t0 r, (ts, v)) :: post)%list)
        by (simpl; f_equal; exact Hd).
      split; [exact Hsplit|].
      split; [intros x [<- | Hin]; [exact Hlt | auto]|].
      split; [exact Hpost|].
      assert (Hdel : PyDict.del (oldest_from k0 t0 r) ((k0, (t0, v0)) :: r)
                     = (((k0, (t0, v0)) :: pre) ++ post)%list).
      { rewrite Hsplit. apply del_middle.
        apply NoDup_keys_middle with (x := (ts, v)) (post := post).
        rewrite <- Hsplit. exact Hnd. }
      rewrite Hdel. reflexivity.
Qed.

(** A [set] for a key that is already stored, made at capacity, still
    evicts: when the oldest entry is another one, the instance ends one
    entry smaller, without the oldest and with the key's entry
    replaced; when the oldest entry is the key's own, the size stays. *)
Theorem set_of_a_stored_key_at_capacity
    (ttl max_size : Z) (ops : list op)
    (lat lng : Q) (value : pyval) (params : list (string * pyval)) (now : Q) :
  let c := run ops (init ttl max_size) in
  let key := _make_key lat lng params in
  _max_size c <= Z.of_nat (length (_cache c)) ->
  PyDict.mem key (_cache c) = true ->
  exists oldest c',
    oldest_key (_cache c) = Returned oldest
    /\ set lat lng value params now c = Returned c'
    /\ PyDict.get key (_cache c') = Some (now, value)
    /\ (oldest <> key ->
          S (length (_cache c')) = length (_cache c)
          /\ PyDict.get oldest (_cache c') = None)
    /\ (oldest = key -> length (_cache c') = length (_cache c)).
Proof.
  intros c key Hfull Hmem.
  assert (Hnd : NoDup (PyDict.keys (_cache c))).
  { apply run_keeps_unique_keys. constructor. }
  assert (Hne : _cache c <> []).
  { intros Hnil. rewrite Hnil in Hmem. discriminate. }
  destruct (CacheFacts.oldest_key_spec (_cache c) Hnd Hne)
    as (oldest & ts & v & Hold & Hget & _).
  apply Z.leb_le in Hfull.
  exists oldest. eexists. split; [exact Hold|].
  split; [unfold set; rewrite Hfull, Hold; reflexivity|].
  simpl. fold key. split; [apply PyDictFacts.get_set_eq|].
  assert (Hlen : S (length (PyDict.del oldest (_cache c))) = length (_cache c)).
  { apply PyDictFacts.length_del. apply PyDictFacts.mem_true_iff. eauto. }
  split.
  - intros Hdiff. split.
    + rewrite PyDictFacts.length_set.
      assert (Hstill : PyDict.mem key (PyDict.del oldest (_cache c)) = true).
      { unfold PyDict.mem. rewrite PyDictFacts.get_del_ne by exact Hdiff.
        exact Hmem. }
      rewrite Hstill. exact Hlen.
    + rewrite PyDictFacts.get_set_ne by congruence.
      now apply AgentFacts.get_del_eq.
  - intros ->. rewrite PyDictFacts.length_set.
    assert (Hgone : PyDict.mem key (PyDict.del key (_cache c)) = false).
    { unfold PyDict.mem. now rewrite AgentFacts.get_del_eq. }
    rewrite Hgone. exact Hlen.
Qed.

(** Reads do not count for eviction or expiry: a hit leaves the store
    as it is, so the [set] that follows evicts and stores exactly what
    it would have without the read, and the entry still expires at its
    own timestamp plus the TTL. *)
Theorem reads_do_not_refresh
    (lat lng : Q) (params : list (string * pyval)) (t_read : Q) (c : ImageCache)
    (ts : Q) (v : pyval) :
  PyDict.get (_make_key lat lng params) (_cache c) = Some (ts, v) ->
  (t_read - ts < inject_Z (_ttl c))%Q ->
  let c1 := snd (get lat lng params t_read c) in
  _cache c1 = _cache c
  /\ oldest_key (_cache c1) = oldest_key (_cache c)
  /\ (forall lat' lng' value' params' now',
        match set lat' lng' value' params' now' c1,
              set lat' lng' value' params' now' c with
        | Returned a, Returned b => _cache a = _cache b
        | Raised e1, Raised e2 => e1 = e2
        | _, _ => False
        end)
  /\ (forall t_later, (inject_Z (_ttl c) <= t_later - ts)%Q ->
        fst (get lat lng params t_later c1) = VNone).
Proof.
  intros G Hfresh c1.
  assert (Hc1 : c1 = count_hit c).
  { subst c1. unfold get. rewrite G. apply Qlt_bool_iff in Hfresh.
    now rewrite Hfresh. }
  rewrite Hc1. split; [reflexivity|]. split; [reflexivity|]. split.
  - intros lat' lng' value' params' now'. unfold set. simpl.
    destruct (_max_size c <=? Z.of_nat (length (_cache c))).
    + destruct (oldest_key (_cache c)); reflexivity.
    + reflexivity.
  - intros t_later Hold. unfold get. simpl. rewrite G.
    apply Qlt_bool_false_iff in Hold. now rewrite Hold.
Qed.

Definition count_lookup (n : Z) (o : op) : Z :=
  match o with
  | OpGet _ _ _ _ => n + 1
  | OpClear => 0
  | _ => n
  end.

(** The lookups counted since the last [clear]. *)
Definition lookups_since_clear (ops : list op) : Z :=
  fold_left count_lookup ops 0.

Lemma step_counts (c : ImageCache) (o : op) :
  0 <= _hits c -> 0 <= _misses c ->
  0 <= _hits (step c o) /\ 0 <= _misses (step c o)
  /\ _hits (step c o) + _misses (step c o)
     = count_lookup (_hits c + _misses c) o.
Proof.
  intros Hh Hm. destruct o as [lat lng params now | lat lng value params now
                              | lat lng params | | | name]; simpl.
  - unfold get. destruct (PyDict.get _ (_cache c)) as [[ts v]|]; [|simpl; lia].
    destruct (Qlt_bool _ _); simpl; lia.
  - destruct (set lat lng value params now c) as [c'|e] eqn:E; [|lia].
    unfold set in E.
    destruct (_max_size c <=? Z.of_nat (length (_cache c)));
      [destruct (oldest_key (_cache c)); [|discriminate]|];
      injection E as <-; simpl; lia.
  - unfold invalidate. destruct (PyDict.mem _ (_cache c)); simpl; lia.
  - lia.
  - lia.
  - lia.
Qed.

Lemma counters_follow_lookups (ops : list op) : forall (c : ImageCache),
  0 <= _hits c -> 0 <= _misses c ->
  0 <= _hits (run ops c) /\ 0 <= _misses (run ops c)
  /\ _hits (run ops c) + _misses (run ops c)
     = fold_left count_lookup ops (_hits c + _misses c).
Proof.
  unfold run. induction ops as [|o ops IH]; intros c Hh Hm; simpl.
  - auto.
  - destruct (step_counts c o Hh Hm) as (Hh' & Hm' & Hsum).
    rewrite <- Hsum. now apply IH.
Qed.

(** Every [get] is counted exactly once, as a hit or as a miss, and
    nothing else moves the counters except [clear], which zeroes them:
    the two counters are never negative and add up to the number of
    lookups since the last [clear]. *)
Theorem every_lookup_is_counted_once (ttl max_size : Z) (ops : list op) :
  let c := run ops (init ttl max_size) in
  0 <= _hits c /\ 0 <= _misses c
  /\ _hits c + _misses c = lookups_since_clear ops.
Proof.
  apply (counters_follow_lookups ops (init ttl max_size)); simpl; lia.
Qed.

(** The rate that [stats] reports is the integer 0 as long as no lookup
    has been counted since the last [clear], and afterwards a float
    between 0 and 1: the double nearest to a number of thousandths. *)
Theorem hit_rate_is_a_fraction (ttl max_size : Z) (ops : list op) :
  let c := run ops (init ttl max_size) in
  (lookups_since_clear ops = 0 ->
     PyDict.get "hit_rate" (stats c) = Some (VInt 0))
  /\ (lookups_since_clear ops <> 0 ->
      exists (n : Z) (rate : Q),
        PyDict.get "hit_rate" (stats c) = Some (VFloat rate)
        /\ 0 <= n <= 1000
        /\ rate = Float.rd (inject_Z n / 1000)
        /\ (0 <= rate <= 1)%Q).
Proof.
  intros c.
  destruct (counters_follow_lookups ops (init ttl max_size))
    as (Hh & Hm & Hsum); [simpl; lia | simpl; lia |].
  fold c in Hh, Hm, Hsum. change (lookups_since_clear ops) with
    (fold_left count_lookup ops (_hits (init ttl max_size)
                                 + _misses (init ttl max_size))).
  rewrite <- Hsum.
  unfold stats. simpl PyDict.get.
  split; intros Hcount.
  { rewrite Hcount. reflexivity. }
  assert (Hpos : 0 < _hits c + _misses c) by lia.
  destruct (CacheFacts.hit_rate_value (_hits c) (_hits c + _misses c)
              ltac:(lia) Hpos) as (n & Hn & Hrate & _ & _ & _ & Hrange).
  apply Z.ltb_lt in Hpos. rewrite Hpos.
  exists n, (round3 (hit_ratio (_hits c) (_hits c + _misses c))).
  split; [reflexivity|]. split; [exact Hn|]. split; [exact Hrate | exact Hrange].
Qed.

End Facts.
End CacheMore.

(** ** Keyword order *)

Module KeyOrder.

Lemma ascii_compare_lt_trans (a b c : ascii) :
  Ascii.compare a b = Lt -> Ascii.compare b c = Lt -> Ascii.compare a c = Lt.
Proof.
  unfold Ascii.compare. rewrite !N.compare_lt_iff. lia.
Qed.

Lemma compare_lt_trans : forall s1 s2 s3 : string,
  String.compare s1 s2 = Lt -> String.compare s2 s3 = Lt ->
  String.compare s1 s3 = Lt.
Proof.
  induction s1 as [|c1 s1 IH]; intros [|c2 s2] [|c3 s3]; simpl;
    try discriminate; try reflexivity.
  destruct (Ascii.compare c1 c2) eqn:E12; try discriminate;
    destruct (Ascii.compare c2 c3) eqn:E23; try discriminate; intros H12 H23.
  - apply Ascii.compare_eq_iff in E12, E23. subst c2 c3.
    assert (Hrefl : Ascii.compare c1 c1 = Eq).
    { unfold Ascii.compare. apply N.compare_refl. }
    rewrite Hrefl. eauto.
  - apply Ascii.compare_eq_iff in E12. subst c2. now rewrite E23.
  - apply Ascii.compare_eq_iff in E23. subst c3. now rewrite E12.
  - now rewrite (ascii_compare_lt_trans _ _ _ E12 E23).
Qed.

Lemma ltb_trans (s1 s2 s3 : string) :
  String.ltb s1 s2 = true -> String.ltb s2 s3 = true -> String.ltb s1 s3 = true.
Proof.
  unfold String.ltb.
  destruct (String.compare s1 s2) eqn:E12; try discriminate.
  destruct (String.compare s2 s3) eqn:E23; try discriminate.
  now rewrite (compare_lt_trans _ _ _ E12 E23).
Qed.

Lemma ltb_asym (s1 s2 : string) :
  String.ltb s1 s2 = true -> String.ltb s2 s1 = false.
Proof.
  unfold String.ltb. rewrite (String.compare_antisym s1 s2).
  now destruct (String.compare s2 s1).
Qed.

Lemma ltb_total (s1 s2 : string) :
  s1 <> s2 -> String.ltb s1 s2 = true \/ String.ltb s2 s1 = true.
Proof.
  unfold String.ltb. intros Hne. rewrite (String.compare_antisym s1 s2).
  destruct (String.compare s2 s1) eqn:E; simpl; auto.
  apply String.compare_eq_iff in E. congruence.
Qed.

Section Facts.
Context {P : Platform}.
Import Cache.

(** Two items with different names can be inserted in either order. *)
Lemma insert_item_comm (x y : string * pyval) (l : list (string * pyval)) :
  fst x <> fst y ->
  insert_item x (insert_item y l) = insert_item y (insert_item x l).
Proof.
  intros Hne. induction l as [|z r IH]; simpl.
  - destruct (ltb_total _ _ Hne) as [H | H]; rewrite H, (ltb_asym _ _ H);
      reflexivity.
  - destruct (String.ltb (fst x) (fst z)) eqn:Exz;
      destruct (String.ltb (fst y) (fst z)) eqn:Eyz; simpl.
    + destruct (ltb_total _ _ Hne) as [H | H]; rewrite H, (ltb_asym _ _ H);
        rewrite ?Exz, ?Eyz; reflexivity.
    + rewrite Exz.
      destruct (String.ltb (fst y) (fst x)) eqn:Eyx.
      * rewrite (ltb_trans _ _ _ Eyx Exz) in Eyz. discriminate.
      * now rewrite Eyz.
    + rewrite Eyz.
      destruct (String.ltb (fst x) (fst y)) eqn:Exy.
      * rewrite (ltb_trans _ _ _ Exy Eyz) in Exz. discriminate.
      * now rewrite Exz.
    + rewrite Exz, Eyz. now rewrite IH.
Qed.

Lemma sorted_items_from (params params' : list (string * pyval)) :
  Permutation params params' ->
  NoDup (map fst params) ->
  forall acc,
    fold_left (fun acc x => insert_item x acc) params acc
    = fold_left (fun acc x => insert_item x acc) params' acc.
Proof.
  induction 1 as [|x l l' Hperm IH|x y l|l l' l'' H1 IH1 H2 IH2];
    intros Hnd acc; simpl.
  - reflexivity.
  - apply IH. now apply NoDup_cons_1_2 in Hnd.
  - f_equal. apply insert_item_comm.
    simpl in Hnd. apply NoDup_cons in Hnd as [Hnot _].
    intros Heq. apply Hnot. rewrite Heq. now left.
  - rewrite IH1 by exact Hnd. apply IH2.
    assert (Hp := Permutation_map fst H1). rewrite <- Hp. exact Hnd.
Qed.

(** The key does not depend on the order in which the keyword
    arguments are written: two calls whose keywords are the same
    names with the same values, each name once, use the same key, and
    so read, write and remove the same entry. *)
Theorem make_key_ignores_keyword_order
    (lat lng : Q) (params params' : list (string * pyval)) :
  NoDup (map fst params) ->
  Permutation params params' ->
  sorted_items params = sorted_items params'
  /\ _make_key lat lng params = _make_key lat lng params'
  /\ (forall now c, get lat lng params now c = get lat lng params' now c)
  /\ (forall value now c,
        set lat lng value params now c = set lat lng value params' now c)
  /\ (forall c, invalidate lat lng params c = invalidate lat lng params' c).
Proof.
  intros Hnd Hperm.
  assert (Hs : sorted_items params = sorted_items params').
  { unfold sorted_items. now apply sorted_items_from. }
  assert (Hk : _make_key lat lng params = _make_key lat lng params').
  { unfold _make_key. now rewrite Hs. }
  split; [exact Hs|]. split; [exact Hk|].
  split; [|split]; intros; unfold get, set, invalidate; now rewrite Hk.
Qed.

End Facts.
End KeyOrder.

(** ** Error classes *)

Module FetchMore.
Import Fetch.

Lemma lower_app (a b : string) : lower (a ++ b) = lower a ++ lower b.
Proof. induction a as [|c a IH]; simpl; [reflexivity | now rewrite IH]. Qed.

Lemma lower_split : forall (a s b : string),
  lower s = a ++ b ->
  exists a' b', s = a' ++ b' /\ lower a' = a /\ lower b' = b.
Proof.
  induction a as [|c a IH]; intros s b H.
  - exists EmptyString, s. auto.
  - destruct s as [|c' s]; simpl in H; [discriminate|].
    injection H as Hc Hs. destruct (IH s b Hs) as (a' & b' & -> & Ha & Hb).
    exists (String c' a'), b'. simpl. rewrite Ha, Hc. auto.
Qed.

Lemma prefix_app : forall n post : string, String.prefix n (n ++ post) = true.
Proof.
  induction n as [|c n IH]; intros post; simpl; [now destruct post|].
  destruct (ascii_dec c c); [apply IH | congruence].
Qed.

Lemma prefix_split : forall n s : string,
  String.prefix n s = true -> exists post, s = n ++ post.
Proof.
  induction n as [|c n IH]; intros s H.
  - exists s. reflexivity.
  - destruct s as [|c' s]; simpl in H; [discriminate|].
    destruct (ascii_dec c c') as [->|]; [|discriminate].
    destruct (IH s H) as (post & ->). exists post. reflexivity.
Qed.

Lemma contains_cons (n : string) (c : ascii) (s : string) :
  contains n (String c s) = String.prefix n (String c s) || contains n s.
Proof. reflexivity. Qed.

Lemma contains_app (n : string) : forall pre post : string,
  contains n (pre ++ n ++ post) = true.
Proof.
  induction pre as [|c pre IH]; intros post.
  - change (EmptyString ++ n ++ post) with (n ++ post).
    destruct (n ++ post) as [|c s] eqn:E.
    + unfold contains. rewrite <- E, prefix_app. reflexivity.
    + rewrite contains_cons, <- E, prefix_app. reflexivity.
  - change (String c pre ++ n ++ post) with (String c (pre ++ n ++ post)).
    rewrite contains_cons, IH. apply orb_true_r.
Qed.

Lemma contains_split (n : string) : forall s : string,
  contains n s = true -> exists pre post, s = pre ++ n ++ post.
Proof.
  induction s as [|c s IH]; intros H.
  - unfold contains in H. rewrite orb_false_r in H.
    destruct (prefix_split _ _ H) as (post & Hs).
    exists EmptyString, post. exact Hs.
  - rewrite contains_cons in H. apply orb_true_iff in H as [H | H].
    + destruct (prefix_split _ _ H) as (post & Hs).
      exists EmptyString, post. exact Hs.
    + destruct (IH H) as (pre & post & ->).
      exists (String c pre), post. reflexivity.
Qed.

(** The body holds the word "quota" somewhere, in any mix of upper
    and lower case. *)
Definition mentions_quota (body : string) : Prop :=
  exists pre word post, body = pre ++ word ++ post /\ lower word = "quota".

Lemma mentions_quota_iff (body : string) :
  contains "quota" (lower body) = true <-> mentions_quota body.
Proof.
  split.
  - intros H. destruct (contains_split _ _ H) as (pre & post & Hs).
    destruct (lower_split _ _ _ Hs) as (pre' & rest & -> & _ & Hrest).
    destruct (lower_split _ _ _ Hrest) as (word & post' & -> & Hword & _).
    exists pre', word, post'. auto.
  - intros (pre & word & post & -> & Hword).
    rewrite !lower_app, Hword. apply contains_app.
Qed.

Lemma categorize_429 (body : string) :
  categorize_http_error 429 body
  = RateLimitError "Rate limit exceeded. Please wait before retrying.".
Proof. reflexivity. Qed.

Lemma categorize_quota (body : string) :
  mentions_quota body ->
  categorize_http_error 403 body
  = QuotaExceededError "API quota exceeded. Check your billing.".
Proof.
  intros Hq. apply mentions_quota_iff in Hq.
  unfold categorize_http_error. simpl. now rewrite Hq.
Qed.

Lemma categorize_other (status : Z) (body : string) :
  status <> 429 -> ~ (status = 403 /\ mentions_quota body) ->
  categorize_http_error status body
  = GenericAPIError ("HTTP " ++ str_int status ++ ": " ++ body).
Proof.
  intros Hne Hnot. unfold categorize_http_error.
  destruct (status =? 429) eqn:E429; [apply Z.eqb_eq in E429; lia|].
  destruct (status =? 403) eqn:E403; [|reflexivity].
  destruct (contains "quota" (lower body)) eqn:Ec; [|reflexivity].
  exfalso. apply Hnot. split; [now apply Z.eqb_eq | now apply mentions_quota_iff].
Qed.

(** [categorize_http_error] sorts every status and body into exactly
    one of three classes: status 429 is a rate limit whatever the body
    says; status 403 is an exceeded quota exactly when the body
    mentions the word "quota" in any mix of cases; everything else,
    a 403 without that word included, is the general error whose
    message quotes the status and the body. *)
Theorem http_errors_fall_into_three_classes (status : Z) (body : string) :
  (status = 429 ->
     categorize_http_error status body
     = RateLimitError "Rate limit exceeded. Please wait before retrying.")
  /\ (status = 403 -> mentions_quota body ->
     categorize_http_error status body
     = QuotaExceededError "API quota exceeded. Check your billing.")
  /\ (status <> 429 -> ~ (status = 403 /\ mentions_quota body) ->
     categorize_http_error status body
     = GenericAPIError ("HTTP " ++ str_int status ++ ": " ++ body)).
Proof.
  split; [|split].
  - intros ->. apply categorize_429.
  - intros ->. apply categorize_quota.
  - apply categorize_other.
Qed.

(** What [_fetch_with_retry] hands on when the first reply is an HTTP
    error, and when every attempt fails for a passing reason. *)
Lemma first_reply_refused (client_get : nat -> outcome response) (resp : response) :
  client_get 1%nat = Returned resp ->
  status_code resp < 200 \/ 300 <= status_code resp ->
  _fetch_with_retry client_get
  = mkRun (Raised (HTTPStatusError (status_code resp) (text resp))) 1 [].
Proof.
  intros H1 Hcode. unfold _fetch_with_retry. simpl. rewrite H1.
  rewrite (FetchFacts.attempt_non_2xx _ Hcode). reflexivity.
Qed.

Lemma three_passing_failures (client_get : nat -> outcome response) (e1 e2 e3 : exn) :
  client_get 1%nat = Raised e1 -> is_transient e1 = true ->
  client_get 2%nat = Raised e2 -> is_transient e2 = true ->
  client_get 3%nat = Raised e3 ->
  result (_fetch_with_retry client_get) = Raised e3
  /\ attempts (_fetch_with_retry client_get) = 3%nat.
Proof.
  intros H1 T1 H2 T2 H3. unfold _fetch_with_retry. simpl.
  rewrite H1. simpl. rewrite T1. simpl. rewrite H2. simpl. rewrite T2. simpl.
  rewrite H3. simpl. destruct (is_transient e3); auto.
Qed.

End FetchMore.

(** ** The view tools and their surroundings *)

Module VisionMore.
Section Facts.
Context {P : Platform}.
Import Vision.

(** An environment variable that is missing or empty. *)
Definition unset (v : option string) : Prop := v = None \/ v = Some "".

Definition no_key_message : string :=
  "GOOGLE_MAPS_API_KEY environment variable is not set".

Lemma no_key_raises (w : world) :
  unset (getenv w "GOOGLE_MAPS_API_KEY") -> unset (getenv w "MAPS_API_KEY") ->
  get_maps_api_key w = Raised (ValueError no_key_message).
Proof.
  unfold get_maps_api_key, getenv_or.
  intros [-> | ->] [-> | ->]; reflexivity.
Qed.

(** The key is the value of [GOOGLE_MAPS_API_KEY] when that is set and
    not empty, else the value of [MAPS_API_KEY] when that is set and
    not empty; with neither, the call raises [ValueError].  A key that
    is returned is never empty. *)
Theorem api_key_comes_from_either_variable (w : world) :
  let g := getenv w "GOOGLE_MAPS_API_KEY" in
  let m := getenv w "MAPS_API_KEY" in
  (forall key, g = Some key -> key <> "" -> get_maps_api_key w = Returned key)
  /\ (forall key, unset g -> m = Some key -> key <> "" ->
        get_maps_api_key w = Returned key)
  /\ (unset g -> unset m ->
        get_maps_api_key w = Raised (ValueError no_key_message))
  /\ (forall key, get_maps_api_key w = Returned key ->
        key <> "" /\ (g = Some key \/ (unset g /\ m = Some key))).
Proof.
  intros g m. unfold get_maps_api_key, getenv_or. fold g m.
  assert (Hne : forall key : string, key <> "" -> String.eqb key "" = false).
  { intros key H. now apply String.eqb_neq. }
  split; [|split; [|split]].
  - intros key -> H. now rewrite !(Hne key H).
  - intros key [-> | ->] -> H; simpl; now rewrite (Hne key H).
  - intros [-> | ->] [-> | ->]; reflexivity.
  - intros key.
    destruct g as [gv|].
    + destruct (String.eqb gv "") eqn:Eg.
      * apply String.eqb_eq in Eg. subst gv.
        destruct m as [mv|]; [|discriminate].
        destruct (String.eqb mv "") eqn:Em; [discriminate|].
        intros [= ->]. apply String.eqb_neq in Em.
        split; [exact Em|]. right. split; [now right | reflexivity].
      * rewrite Eg. intros [= ->]. apply String.eqb_neq in Eg. auto.
    + destruct m as [mv|]; [|discriminate].
      destruct (String.eqb mv "") eqn:Em; [discriminate|].
      intros [= ->]. apply String.eqb_neq in Em.
      split; [exact Em|]. right. split; [now left | reflexivity].
Qed.

(** Without a key the two view tools raise before any request is
    prepared, while the panoramic capture does not raise: it reports
    failure, with one failed view per direction that carries the
    message of the error. *)
Theorem missing_key_raises_but_panorama_reports
    (w : world) (lat lng : Q) (zoom : Z) (map_type : string)
    (heading pitch fov : Z) (compress : bool) (elapsed_all : Q) :
  unset (getenv w "GOOGLE_MAPS_API_KEY") ->
  unset (getenv w "MAPS_API_KEY") ->
  get_overhead_view w lat lng zoom map_type compress
  = Raised (ValueError no_key_message)
  /\ get_street_view w lat lng heading pitch fov compress
     = Raised (ValueError no_key_message)
  /\ PyDict.get "success" (explore_panoramic w lat lng pitch fov elapsed_all)
     = Some (VBool false)
  /\ PyDict.get "views" (explore_panoramic w lat lng pitch fov elapsed_all)
     = Some (VList
         (map (fun direction =>
                 VDict [ ("success", VBool false);
                         ("error", VStr no_key_message);
                         ("direction", VStr direction) ])
              [ "North"; "East"; "South"; "West" ])).
Proof.
  intros Hg Hm.
  pose proof (no_key_raises w Hg Hm) as Hkey.
  assert (Hstreet : forall h c,
             get_street_view w lat lng h pitch fov c
             = Raised (ValueError no_key_message)).
  { intros h c. unfold get_street_view. now rewrite Hkey. }
  split; [unfold get_overhead_view; now rewrite Hkey|].
  split; [unfold get_street_view; now rewrite Hkey|].
  unfold explore_panoramic, tasks, headings. simpl map.
  rewrite !Hstreet. simpl. auto.
Qed.

(** The outcome of a request as the caller of a view tool sees it. *)
Definition reported (d : pydict) : Prop :=
  (PyDict.get "success" d = Some (VBool true)
   /\ PyDict.get "error" d = None
   /\ exists image, PyDict.get "image_data" d = Some (VStr image))
  \/ (PyDict.get "success" d = Some (VBool false)
      /\ PyDict.get "image_data" d = None
      /\ exists msg, d = [ ("success", VBool false); ("error", VStr msg) ]).

Lemma failure_reported (e : exn) : reported (failure e).
Proof.
  right. destruct e; simpl; eauto.
Qed.

(** With a key in place the view tools never raise: whatever the
    network does, the caller gets a dict, either a success with the
    image or a failure that holds nothing but the flag and a
    message. *)
Theorem view_tools_report_instead_of_raising
    (w : world) (lat lng : Q) (zoom : Z) (map_type : string)
    (heading pitch fov : Z) (compress : bool) (key : string) :
  get_maps_api_key w = Returned key ->
  (exists d, get_overhead_view w lat lng zoom map_type compress = Returned d
             /\ reported d)
  /\ (exists d, get_street_view w lat lng heading pitch fov compress = Returned d
                /\ reported d).
Proof.
  intros Hkey. split.
  - unfold get_overhead_view. rewrite Hkey.
    destruct (Fetch.result _) as [resp|e]; eexists; split; try reflexivity.
    + left. simpl. eauto.
    + apply failure_reported.
  - unfold get_street_view. rewrite Hkey.
    destruct (Fetch.result _) as [resp|e]; eexists; split; try reflexivity.
    + left. simpl. eauto.
    + apply failure_reported.
Qed.

(** What the caller of the street view reads when the request fails:
    a refusal by the API ends the request at once and is worded by its
    class; three failed attempts for passing reasons are worded by the
    last of them. *)
Theorem street_view_words_the_failure
    (w : world) (lat lng : Q) (heading pitch fov : Z) (compress : bool)
    (key : string) :
  get_maps_api_key w = Returned key ->
  let request :=
    client_get w street_url
      (street_params key lat lng (heading mod 360) (clamp (-90) 90 pitch)
                     (clamp 20 120 fov)) in
  let answer := get_street_view w lat lng heading pitch fov compress in
  (forall resp, request 1%nat = Returned resp ->
      Fetch.status_code resp = 429 ->
      answer = Returned
        [ ("success", VBool false);
          ("error", VStr "Rate limit exceeded. Please wait before retrying.") ])
  /\ (forall resp, request 1%nat = Returned resp ->
      Fetch.status_code resp = 403 ->
      FetchMore.mentions_quota (Fetch.text resp) ->
      answer = Returned
        [ ("success", VBool false);
          ("error", VStr "API quota exceeded. Check your billing.") ])
  /\ (forall resp, request 1%nat = Returned resp ->
      Fetch.status_code resp < 200 \/ 300 <= Fetch.status_code resp ->
      Fetch.status_code resp <> 429 ->
      ~ (Fetch.status_code resp = 403
         /\ FetchMore.mentions_quota (Fetch.text resp)) ->
      answer = Returned
        [ ("success", VBool false);
          ("error", VStr ("HTTP " ++ str_int (Fetch.status_code resp) ++ ": "
                          ++ Fetch.text resp)) ])
  /\ (forall e1 e2 e3,
      request 1%nat = Raised e1 -> Fetch.is_transient e1 = true ->
      request 2%nat = Raised e2 -> Fetch.is_transient e2 = true ->
      request 3%nat = Raised e3 -> Fetch.is_transient e3 = true ->
      answer = Returned [ ("success", VBool false);
                          ("error", VStr (Fetch.exn_str e3)) ]).
Proof.
  intros Hkey request answer.
  assert (Hans : answer
                 = match Fetch.result (Fetch._fetch_with_retry request) with
                   | Returned _ => answer
                   | Raised e => Returned (failure e)
                   end).
  { subst answer request. unfold get_street_view. rewrite Hkey.
    cbv zeta. now destruct (Fetch.result _). }
  assert (Hrefused : forall resp, request 1%nat = Returned resp ->
             Fetch.status_code resp < 200 \/ 300 <= Fetch.status_code resp ->
             answer = Returned
               [ ("success", VBool false);
                 ("error", VStr (Fetch.api_error_str
                     (Fetch.categorize_http_error (Fetch.status_code resp)
                                                  (Fetch.text resp)))) ]).
  { intros resp H1 Hcode. rewrite Hans.
    now rewrite (FetchMore.first_reply_refused request resp H1 Hcode). }
  split; [|split; [|split]].
  - intros resp H1 Hcode. rewrite (Hrefused resp H1) by lia.
    now rewrite Hcode, FetchMore.categorize_429.
  - intros resp H1 Hcode Hq. rewrite (Hrefused resp H1) by lia.
    now rewrite Hcode, (FetchMore.categorize_quota _ Hq).
  - intros resp H1 Hcode Hne Hnot. rewrite (Hrefused resp H1 Hcode).
    now rewrite (FetchMore.categorize_other _ _ Hne Hnot).
  - intros e1 e2 e3 H1 T1 H2 T2 H3 T3. rewrite Hans.
    destruct (FetchMore.three_passing_failures request _ _ _
                H1 T1 H2 T2 H3) as (Hres & _).
    rewrite Hres. now destruct e3.
Qed.

(** [get_overhead_view] keeps the zoom between 0 and 21, acts on a
    zoom outside that range exactly as on the nearest bound, and in a
    success echoes the zoom it used; the MIME type it names follows
    the [compress] flag alone. *)
Theorem overhead_view_clamps_the_zoom
    (w : world) (lat lng : Q) (zoom : Z) (map_type : string) (compress : bool) :
  let z := clamp 0 21 zoom in
  0 <= z <= 21
  /\ (0 <= zoom <= 21 -> z = zoom) /\ (zoom < 0 -> z = 0) /\ (21 < zoom -> z = 21)
  /\ get_overhead_view w lat lng zoom map_type compress
     = get_overhead_view w lat lng z map_type compress
  /\ (forall d,
        get_overhead_view w lat lng zoom map_type compress = Returned d ->
        PyDict.get "success" d = Some (VBool true) ->
        PyDict.get "parameters" d
        = Some (VDict [ ("lat", VFloat lat); ("lng", VFloat lng);
                        ("zoom", VInt z); ("map_type", VStr map_type) ])
        /\ PyDict.get "description" d
           = Some (VStr ("Overhead " ++ map_type ++ " view at (" ++ str_float lat
                         ++ ", " ++ str_float lng ++ "), zoom level " ++ str_int z))
        /\ PyDict.get "mime_type" d
           = Some (VStr (if compress then "image/jpeg" else "image/png"))).
Proof.
  intros z.
  destruct (VisionFacts.clamp_range 0 21 zoom ltac:(lia)) as (Hr & Hin & Hlo & Hhi).
  fold z in Hr, Hin, Hlo, Hhi.
  assert (Hidem : clamp 0 21 z = z) by (destruct (VisionFacts.clamp_range 0 21 z ltac:(lia)) as (_ & H & _); auto).
  split; [exact Hr|]. split; [exact Hin|]. split; [exact Hlo|]. split; [exact Hhi|].
  split.
  - unfold get_overhead_view. cbv zeta. fold z. now rewrite Hidem.
  - intros d. unfold get_overhead_view.
    destruct (get_maps_api_key w) as [key|e]; [|discriminate].
    cbv zeta. fold z.
    destruct (Fetch.result _) as [resp|e].
    + intros [= <-] _. simpl. destruct compress; auto.
    + intros [= <-]. destruct e; simpl; discriminate.
Qed.

(** The street view acts on arguments outside their ranges exactly as
    on the normalised ones, and so does the panoramic capture. *)
Theorem street_view_normalising_is_idempotent
    (w : world) (lat lng : Q) (heading pitch fov : Z) (compress : bool)
    (elapsed_all : Q) :
  get_street_view w lat lng heading pitch fov compress
  = get_street_view w lat lng (heading mod 360) (clamp (-90) 90 pitch)
                    (clamp 20 120 fov) compress
  /\ get_street_view w lat lng (heading + 360) pitch fov compress
     = get_street_view w lat lng heading pitch fov compress
  /\ explore_panoramic w lat lng pitch fov elapsed_all
     = explore_panoramic w lat lng (clamp (-90) 90 pitch) (clamp 20 120 fov)
                         elapsed_all.
Proof.
  assert (Hp : clamp (-90) 90 (clamp (-90) 90 pitch) = clamp (-90) 90 pitch)
    by (unfold clamp; lia).
  assert (Hf : clamp 20 120 (clamp 20 120 fov) = clamp 20 120 fov)
    by (unfold clamp; lia).
  assert (Hnorm : forall h c,
            get_street_view w lat lng h pitch fov c
            = get_street_view w lat lng (h mod 360) (clamp (-90) 90 pitch)
                              (clamp 20 120 fov) c).
  { intros h c. unfold get_street_view. cbv zeta.
    now rewrite Z.mod_mod, Hp, Hf by lia. }
  split; [apply Hnorm|]. split.
  - rewrite (Hnorm (heading + 360)), (Hnorm heading).
    replace ((heading + 360) mod 360) with (heading mod 360); [reflexivity|].
    rewrite <- (Z.mod_add heading 1 360) by lia. f_equal.
  - assert (Hsame : forall h c,
              get_street_view w lat lng h pitch fov c
              = get_street_view w lat lng h (clamp (-90) 90 pitch)
                                (clamp 20 120 fov) c).
    { intros h c. unfold get_street_view. cbv zeta. now rewrite Hp, Hf. }
    unfold explore_panoramic, tasks. simpl map. now rewrite !Hsame.
Qed.

End Facts.
End VisionMore.

(** ** The wrappers over time *)

Module AgentMore.
Section Facts.
Context {P : Platform}.
Import Agent.

(** The settings of a cache as cache.py creates it. *)
Definition configured (name : string) (ttl : Z) (c : Cache.ImageCache) : Prop :=
  Cache._name c = name /\ Cache._ttl c = ttl
  /\ CacheFacts.well_formed 100 c.

(** Every value in the cache is a dict object whose ["success"] entry
    is true. *)
Definition holds_successes (h : list pydict) (c : Cache.ImageCache) : Prop :=
  forall k ts v, In (k, (ts, v)) (Cache._cache c) ->
    exists l d, v = VRef l /\ h !! l = Some d /\ succeeded d = true.

Definition keeps_successes (h h' : list pydict) : Prop :=
  forall l d, h !! l = Some d -> succeeded d = true ->
    exists d', h' !! l = Some d' /\ succeeded d' = true.

Definition settled (s : state) : Prop :=
  configured "overhead" 3600 (overhead_cache s)
  /\ configured "streetview" 1800 (streetview_cache s)
  /\ holds_successes (heap s) (overhead_cache s)
  /\ holds_successes (heap s) (streetview_cache s).

(** The cache is of no use for this lookup: no entry, or one that has
    expired. *)
Definition stale (c : Cache.ImageCache) (lat lng : Q)
    (params : list (string * pyval)) (now : Q) : Prop :=
  let key := Cache._make_key lat lng params in
  PyDict.get key (Cache._cache c) = None
  \/ exists ts v, PyDict.get key (Cache._cache c) = Some (ts, v)
       /\ (inject_Z (Cache._ttl c) <= now - ts)%Q.

Lemma get_fields (lat lng : Q) (params : list (string * pyval)) (now : Q)
    (c : Cache.ImageCache) :
  let c1 := snd (Cache.get lat lng params now c) in
  Cache._name c1 = Cache._name c /\ Cache._ttl c1 = Cache._ttl c
  /\ Cache._max_size c1 = Cache._max_size c
  /\ (forall x, In x (Cache._cache c1) -> In x (Cache._cache c))
  /\ (fst (Cache.get lat lng params now c) = VNone
      \/ exists ts, In (Cache._make_key lat lng params,
                        (ts, fst (Cache.get lat lng params now c)))
                       (Cache._cache c)).
Proof.
  unfold Cache.get.
  destruct (PyDict.get _ (Cache._cache c)) as [[ts v]|] eqn:G; simpl.
  - destruct (Qlt_bool _ _); simpl;
      repeat (split; [reflexivity|]); split; auto.
    + right. exists ts. now apply PyDictFacts.get_Some_In.
    + intros x. apply AgentFacts.In_del.
  - repeat (split; [reflexivity|]). auto.
Qed.

Lemma set_fields (lat lng : Q) (value : pyval) (params : list (string * pyval))
    (now : Q) (c c' : Cache.ImageCache) :
  Cache.set lat lng value params now c = Returned c' ->
  Cache._name c' = Cache._name c /\ Cache._ttl c' = Cache._ttl c
  /\ Cache._max_size c' = Cache._max_size c
  /\ forall x, In x (Cache._cache c') ->
       x = (Cache._make_key lat lng params, (now, value))
       \/ In x (Cache._cache c).
Proof.
  unfold Cache.set.
  destruct (Cache._max_size c <=? _).
  - destruct (Cache.oldest_key (Cache._cache c)) as [k|e]; [|discriminate].
    intros [= <-]. simpl. repeat (split; [reflexivity|]).
    intros x Hin. apply AgentFacts.In_set in Hin as [-> | Hin]; [now left|].
    right. eapply AgentFacts.In_del. exact Hin.
  - intros [= <-]. simpl. repeat (split; [reflexivity|]).
    intros x Hin. apply AgentFacts.In_set in Hin as [-> | Hin]; auto.
Qed.

Lemma succeeded_mark (d : pydict) (v : pyval) :
  succeeded (PyDict.set "from_cache" v d) = succeeded d.
Proof.
  unfold succeeded, get_or. now rewrite PyDictFacts.get_set_ne.
Qed.

Lemma keeps_successes_alloc (h : list pydict) (d : pydict) :
  keeps_successes h (h ++ [d]).
Proof.
  intros l d0 Hl Hs. exists d0. split; [|exact Hs].
  rewrite lookup_app_l; [exact Hl|]. now apply lookup_lt_Some in Hl.
Qed.

Lemma keeps_successes_mark (h : list pydict) (l : loc) (d : pydict) (v : pyval) :
  h !! l = Some d ->
  keeps_successes h (<[ l := PyDict.set "from_cache" v d ]> h).
Proof.
  intros Hl l' d' Hl' Hs. destruct (decide (l' = l)) as [->|Hne].
  - exists (PyDict.set "from_cache" v d). split.
    + apply list_lookup_insert_eq. now apply lookup_lt_Some in Hl.
    + rewrite succeeded_mark.
      assert (Hsame : Some d' = Some d)
        by (transitivity (h !! l); [symmetry; exact Hl' | exact Hl]).
      injection Hsame as <-. exact Hs.
  - exists d'. split; [|exact Hs]. now rewrite list_lookup_insert_ne.
Qed.

Lemma holds_successes_heap (h h' : list pydict) (c : Cache.ImageCache) :
  keeps_successes h h' -> holds_successes h c -> holds_successes h' c.
Proof.
  intros Hk Hc k ts v Hin. destruct (Hc k ts v Hin) as (l & d & -> & Hl & Hs).
  destruct (Hk l d Hl Hs) as (d' & Hl' & Hs'). eauto.
Qed.

(** What one pass through the body of a wrapper keeps, and what a pass
    that did not fetch hands back. *)
Lemma cached_call_keeps
    (c : Cache.ImageCache) (h : list pydict)
    (lat lng : Q) (params : list (string * pyval)) (t_get t_set : Q)
    (tool : outcome pydict)
    (r : outcome pyval) (c' : Cache.ImageCache) (h' : list pydict) (fetched : bool) :
  cached_call c h lat lng params t_get t_set tool = (r, c', h', fetched) ->
  holds_successes h c ->
  (forall name ttl, configured name ttl c -> configured name ttl c')
  /\ keeps_successes h h'
  /\ holds_successes h' c'
  /\ (fetched = false ->
      exists l d, r = Returned (VRef l) /\ h !! l = Some d
        /\ succeeded d = true
        /\ h' = <[ l := PyDict.set "from_cache" (VBool true) d ]> h).
Proof.
  intros E Hc. unfold cached_call in E.
  destruct (get_fields lat lng params t_get c) as (Hn & Ht & Hm & Hsub & Hval).
  assert (Hwf1 : forall name ttl, configured name ttl c ->
             configured name ttl (snd (Cache.get lat lng params t_get c))).
  { intros name ttl (Hname & Httl & Hwf). split; [congruence|].
    split; [congruence|]. now apply CacheFacts.get_well_formed. }
  assert (Hc1 : holds_successes h (snd (Cache.get lat lng params t_get c))).
  { intros k ts v Hin. eapply Hc. apply Hsub. exact Hin. }
  destruct (Cache.get lat lng params t_get c) as [cached c1] eqn:Hget.
  simpl in Hn, Ht, Hm, Hsub, Hval, Hwf1, Hc1.
  destruct (truthy h cached) eqn:Etruthy.
  - destruct Hval as [-> | (ts & Hin)]; [discriminate|].
    destruct (Hc _ _ _ Hin) as (l & d & -> & Hl & Hs).
    simpl in E. unfold pydict, PyDict.t in *. rewrite Hl in E.
    injection E as <- <- <- <-.
    split; [exact Hwf1|].
    split; [now apply keeps_successes_mark|].
    split; [eapply holds_successes_heap; [now apply keeps_successes_mark | exact Hc1]|].
    intros _. exists l, d. auto.
  - destruct tool as [d|e].
    + unfold alloc in E. destruct (succeeded d) eqn:Hs.
      * destruct (Cache.set lat lng (VRef (length h)) params t_set c1)
          as [c2|e] eqn:Eset; injection E as <- <- <- <-.
        -- destruct (set_fields _ _ _ _ _ _ _ Eset) as (Hn2 & Ht2 & Hm2 & Hsub2).
           split.
           { intros name ttl Hconf. destruct (Hwf1 name ttl Hconf) as (Hname & Httl & Hwf).
             split; [congruence|]. split; [congruence|].
             eapply CacheFacts.set_well_formed; [|exact Hwf|exact Eset]. lia. }
           split; [apply keeps_successes_alloc|].
           split; [|discriminate].
           intros k ts v Hin. apply Hsub2 in Hin as [[= -> -> ->] | Hin].
           ++ exists (length h), d. split; [reflexivity|].
              split; [now apply list_lookup_middle | exact Hs].
           ++ eapply holds_successes_heap;
                [apply keeps_successes_alloc | exact Hc1 | exact Hin].
        -- split; [exact Hwf1|]. split; [apply keeps_successes_alloc|].
           split; [|discriminate].
           eapply holds_successes_heap; [apply keeps_successes_alloc | exact Hc1].
      * injection E as <- <- <- <-.
        split; [exact Hwf1|]. split; [apply keeps_successes_alloc|].
        split; [|discriminate].
        eapply holds_successes_heap; [apply keeps_successes_alloc | exact Hc1].
    + injection E as <- <- <- <-.
      split; [exact Hwf1|]. split; [intros l d; eauto|].
      split; [exact Hc1 | discriminate].
Qed.

Lemma log_unchanged (fetched : bool) (call : fetch_call) (l : list fetch_call) :
  log fetched call l = l -> fetched = false.
Proof.
  destruct fetched; [|reflexivity]. unfold log. intros H.
  apply (f_equal (@length _)) in H. rewrite length_app in H. simpl in H. lia.
Qed.

Lemma overhead_keeps (w : world) (t_get t_set lat lng : Q) (zoom : Z)
    (map_type : string) (s : state) :
  settled s ->
  let r := cached_get_overhead_view w t_get t_set lat lng zoom map_type s in
  settled (snd r)
  /\ (fetches (snd r) = fetches s ->
      exists l d, fst r = Returned (VRef l) /\ heap s !! l = Some d
        /\ succeeded d = true
        /\ heap (snd r) = <[ l := PyDict.set "from_cache" (VBool true) d ]> (heap s)).
Proof.
  intros (Ho & Hs & HoS & HsS) r. subst r. unfold cached_get_overhead_view.
  destruct (cached_call _ _ _ _ _ _ _ _) as [[[r c'] h'] fetched] eqn:E.
  destruct (cached_call_keeps _ _ _ _ _ _ _ _ _ _ _ _ E HoS)
    as (Hconf & Hkeep & Hsucc & Hhit).
  simpl. split.
  - split; [now apply Hconf|]. split; [exact Hs|]. split; [exact Hsucc|].
    eapply holds_successes_heap; eauto.
  - intros Hlog. apply log_unchanged in Hlog. auto.
Qed.

Lemma street_keeps (w : world) (t_get t_set lat lng : Q) (heading pitch fov : Z)
    (s : state) :
  settled s ->
  let r := cached_get_street_view w t_get t_set lat lng heading pitch fov s in
  settled (snd r)
  /\ (fetches (snd r) = fetches s ->
      exists l d, fst r = Returned (VRef l) /\ heap s !! l = Some d
        /\ succeeded d = true
        /\ heap (snd r) = <[ l := PyDict.set "from_cache" (VBool true) d ]> (heap s)).
Proof.
  intros (Ho & Hs & HoS & HsS) r. subst r. unfold cached_get_street_view.
  destruct (cached_call _ _ _ _ _ _ _ _) as [[[r c'] h'] fetched] eqn:E.
  destruct (cached_call_keeps _ _ _ _ _ _ _ _ _ _ _ _ E HsS)
    as (Hconf & Hkeep & Hsucc & Hhit).
  simpl. split.
  - split; [exact Ho|]. split; [now apply Hconf|].
    split; [eapply holds_successes_heap; eauto | exact Hsucc].
  - intros Hlog. apply log_unchanged in Hlog. auto.
Qed.

Lemma clear_configured (name : string) (ttl : Z) (c : Cache.ImageCache) :
  configured name ttl c -> configured name ttl (Cache.clear c).
Proof.
  intros (Hn & Ht & Hm & _ & _). repeat split; simpl; auto; [constructor | lia].
Qed.

Lemma reachable_settled (s : state) : reachable s -> settled s.
Proof.
  induction 1 as [|w t_get t_set lat lng zoom map_type s _ IH
                  |w t_get t_set lat lng heading pitch fov s _ IH
                  |s _ IH].
  - repeat split; simpl; try constructor; try lia; intros k ts v [].
  - now apply overhead_keeps.
  - now apply street_keeps.
  - destruct IH as (Ho & Hs & _ & _).
    split; [now apply clear_configured|]. split; [now apply clear_configured|].
    split; intros k ts v [].
Qed.

(** In every state the process can reach, the two caches still carry
    the names, lifetimes and capacity that cache.py gave them, hold
    100 entries at most, and [get_all_cache_stats] says so. *)
Theorem global_caches_keep_their_settings (s : state) :
  reachable s ->
  exists o v size_o size_v,
    get_all_cache_stats s = [ ("overhead", VDict o); ("streetview", VDict v) ]
    /\ PyDict.get "name" o = Some (VStr "overhead")
    /\ PyDict.get "ttl_seconds" o = Some (VInt 3600)
    /\ PyDict.get "max_size" o = Some (VInt 100)
    /\ PyDict.get "size" o = Some (VInt size_o) /\ 0 <= size_o <= 100
    /\ PyDict.get "name" v = Some (VStr "streetview")
    /\ PyDict.get "ttl_seconds" v = Some (VInt 1800)
    /\ PyDict.get "max_size" v = Some (VInt 100)
    /\ PyDict.get "size" v = Some (VInt size_v) /\ 0 <= size_v <= 100.
Proof.
  intros Hr. destruct (reachable_settled s Hr)
    as ((Hno & Hto & Hmo & _ & Hlo) & (Hnv & Htv & Hmv & _ & Hlv) & _).
  exists (Cache.stats (overhead_cache s)), (Cache.stats (streetview_cache s)),
    (Z.of_nat (length (Cache._cache (overhead_cache s)))),
    (Z.of_nat (length (Cache._cache (streetview_cache s)))).
  unfold get_all_cache_stats, Cache.stats. simpl.
  rewrite Hno, Hto, Hmo, Hnv, Htv, Hmv.
  repeat (split; [reflexivity || lia|]). lia.
Qed.

(** [clear_all_caches] empties both caches and zeroes their counters,
    leaves their settings and the dicts already handed out alone, and
    makes the next call of either wrapper fetch, whatever was cached
    before. *)
Theorem clear_all_caches_starts_afresh
    (s : state) (w : world) (t_get t_set lat lng : Q)
    (zoom : Z) (map_type : string) (heading pitch fov : Z) :
  let s' := clear_all_caches s in
  (forall c, c = overhead_cache \/ c = streetview_cache ->
     PyDict.get "size" (Cache.stats (c s')) = Some (VInt 0)
     /\ PyDict.get "hits" (Cache.stats (c s')) = Some (VInt 0)
     /\ PyDict.get "misses" (Cache.stats (c s')) = Some (VInt 0)
     /\ PyDict.get "hit_rate" (Cache.stats (c s')) = Some (VInt 0)
     /\ Cache._name (c s') = Cache._name (c s)
     /\ Cache._ttl (c s') = Cache._ttl (c s)
     /\ Cache._max_size (c s') = Cache._max_size (c s))
  /\ heap s' = heap s
  /\ fetches (snd (cached_get_overhead_view w t_get t_set lat lng zoom map_type s'))
     = (fetches s ++ [FetchOverhead lat lng zoom map_type])%list
  /\ fetches (snd (cached_get_street_view w t_get t_set lat lng heading pitch fov s'))
     = (fetches s ++ [FetchStreet lat lng heading pitch fov])%list.
Proof.
  intros s'. split; [|split; [reflexivity|]].
  - intros c [-> | ->]; simpl; auto 10.
  - split.
    + unfold cached_get_overhead_view, cached_call. simpl.
      destruct (Vision.get_overhead_view _ _ _ _ _ _) as [d|e]; [|reflexivity].
      destruct (succeeded d); [|reflexivity].
      now destruct (Cache.set _ _ _ _ _ _).
    + unfold cached_get_street_view, cached_call. simpl.
      destruct (Vision.get_street_view _ _ _ _ _ _ _) as [d|e]; [|reflexivity].
      destruct (succeeded d); [|reflexivity].
      now destruct (Cache.set _ _ _ _ _ _).
Qed.

Lemma serves_repeat
    (c : Cache.ImageCache) (h : list pydict) (log : list fetch_call)
    (lat lng : Q) (params : list (string * pyval)) (t_get t_set t_get' t_set' : Q)
    (tool tool' : outcome pydict) (call : fetch_call) (d : pydict) (ttl : Z)
    (r1 r2 : outcome pyval) (c1 c2 : Cache.ImageCache) (h1 h2 : list pydict)
    (log1 log2 : list fetch_call) :
  AgentFacts.serves c h log lat lng params t_get t_set tool call r1 c1 h1 log1 ->
  AgentFacts.serves c1 h1 log1 lat lng params t_get' t_set' tool' call r2 c2 h2 log2 ->
  stale c lat lng params t_get ->
  tool = Returned d -> succeeded d = true ->
  Cache._ttl c1 = ttl -> (t_get' - t_set < inject_Z ttl)%Q ->
  r1 = Returned (VRef (length h)) /\ r2 = r1
  /\ log2 = (log ++ [call])%list
  /\ h2 !! length h = Some (PyDict.set "from_cache" (VBool true) d)
  /\ Cache._hits c2 = Cache._hits c1 + 1.
Proof.
  intros (_ & Hmiss) (Hhit & _) Hstale -> Hs Httl Hfresh.
  destruct (Hmiss Hstale) as (Hlog & Hr1 & Hh1 & Hcached & _).
  destruct (Hcached Hs) as (_ & Hget).
  rewrite <- Httl in Hfresh.
  destruct (Hhit _ _ Hget Hfresh) as (Hr2 & Hlog2 & Hc2 & l & d0 & [= <-] & Hl & Hh2).
  assert (Hd : h1 !! length h = Some d) by (rewrite Hh1; now apply list_lookup_middle).
  assert (Hsame : Some d0 = Some d)
    by (transitivity (h1 !! length h); [symmetry; exact Hl | exact Hd]).
  injection Hsame as ->.
  split; [exact Hr1|]. split; [congruence|]. split; [congruence|].
  split.
  - rewrite Hh2. apply list_lookup_insert_eq. now apply lookup_lt_Some in Hd.
  - rewrite Hc2. reflexivity.
Qed.

(** Once a wrapper has fetched a view with success, the same request
    made again before the lifetime of the cache has passed, one hour
    for overhead views and half an hour for street views, is served
    without a fetch, whatever the surroundings then are: the caller
    gets the very dict object of the first call, now marked
    [from_cache], and the hit is counted. *)
Theorem repeat_within_ttl_is_served_from_cache
    (s : state) (w w' : world) (t_get t_set t_get' t_set' lat lng : Q)
    (zoom : Z) (map_type : string) (heading pitch fov : Z) :
  reachable s ->
  (forall d,
     stale (overhead_cache s) lat lng (overhead_key_params zoom map_type) t_get ->
     Vision.get_overhead_view w lat lng zoom map_type true = Returned d ->
     succeeded d = true ->
     (t_get' - t_set < 3600)%Q ->
     let r1 := cached_get_overhead_view w t_get t_set lat lng zoom map_type s in
     let r2 := cached_get_overhead_view w' t_get' t_set' lat lng zoom map_type
                 (snd r1) in
     fst r1 = Returned (VRef (length (heap s))) /\ fst r2 = fst r1
     /\ fetches (snd r2) = (fetches s ++ [FetchOverhead lat lng zoom map_type])%list
     /\ heap (snd r2) !! length (heap s)
        = Some (PyDict.set "from_cache" (VBool true) d)
     /\ Cache._hits (overhead_cache (snd r2))
        = Cache._hits (overhead_cache (snd r1)) + 1)
  /\ (forall d,
     stale (streetview_cache s) lat lng (street_key_params heading pitch fov) t_get ->
     Vision.get_street_view w lat lng heading pitch fov true = Returned d ->
     succeeded d = true ->
     (t_get' - t_set < 1800)%Q ->
     let r1 := cached_get_street_view w t_get t_set lat lng heading pitch fov s in
     let r2 := cached_get_street_view w' t_get' t_set' lat lng heading pitch fov
                 (snd r1) in
     fst r1 = Returned (VRef (length (heap s))) /\ fst r2 = fst r1
     /\ fetches (snd r2) = (fetches s ++ [FetchStreet lat lng heading pitch fov])%list
     /\ heap (snd r2) !! length (heap s)
        = Some (PyDict.set "from_cache" (VBool true) d)
     /\ Cache._hits (streetview_cache (snd r2))
        = Cache._hits (streetview_cache (snd r1)) + 1).
Proof.
  intros Hr. pose proof (AgentFacts.reachable_ok s Hr) as Hok. split.
  - intros d Hstale Htool Hs Hfresh r1 r2.
    destruct (AgentFacts.overhead_step w t_get t_set lat lng zoom map_type s Hok)
      as (H1 & _ & Hok1). fold r1 in H1, Hok1.
    destruct (AgentFacts.overhead_step w' t_get' t_set' lat lng zoom map_type
                (snd r1) Hok1) as (H2 & _ & _). fold r2 in H2.
    assert (Httl : Cache._ttl (overhead_cache (snd r1)) = 3600).
    { destruct (reachable_settled (snd r1)) as ((_ & Ht & _) & _); [|exact Ht].
      subst r1. now constructor. }
    exact (serves_repeat _ _ _ _ _ _ _ _ _ _ _ _ _ d 3600 _ _ _ _ _ _ _ _
             H1 H2 Hstale Htool Hs Httl Hfresh).
  - intros d Hstale Htool Hs Hfresh r1 r2.
    destruct (AgentFacts.street_step w t_get t_set lat lng heading pitch fov s Hok)
      as (H1 & _ & Hok1). fold r1 in H1, Hok1.
    destruct (AgentFacts.street_step w' t_get' t_set' lat lng heading pitch fov
                (snd r1) Hok1) as (H2 & _ & _). fold r2 in H2.
    assert (Httl : Cache._ttl (streetview_cache (snd r1)) = 1800).
    { destruct (reachable_settled (snd r1)) as (_ & (_ & Ht & _) & _); [|exact Ht].
      subst r1. now constructor. }
    exact (serves_repeat _ _ _ _ _ _ _ _ _ _ _ _ _ d 1800 _ _ _ _ _ _ _ _
             H1 H2 Hstale Htool Hs Httl Hfresh).
Qed.

(** The tool did not deliver: it raised, or returned a dict whose
    ["success"] entry is not true. *)
Definition failed (tool : outcome pydict) : Prop :=
  match tool with
  | Returned d => succeeded d = false
  | Raised _ => True
  end.

Lemma serves_refetch
    (c : Cache.ImageCache) (h : list pydict) (log : list fetch_call)
    (lat lng : Q) (params : list (string * pyval)) (t_get t_set t_get' t_set' : Q)
    (tool tool' : outcome pydict) (call : fetch_call)
    (r1 r2 : outcome pyval) (c1 c2 : Cache.ImageCache) (h1 h2 : list pydict)
    (log1 log2 : list fetch_call) :
  AgentFacts.serves c h log lat lng params t_get t_set tool call r1 c1 h1 log1 ->
  AgentFacts.serves c1 h1 log1 lat lng params t_get' t_set' tool' call r2 c2 h2 log2 ->
  stale c lat lng params t_get ->
  failed tool ->
  r1 = match tool with
       | Returned _ => Returned (VRef (length h))
       | Raised e => Raised e
       end
  /\ PyDict.get (Cache._make_key lat lng params) (Cache._cache c1) = None
  /\ (length (Cache._cache c1) <= length (Cache._cache c))%nat
  /\ log2 = (log ++ [call; call])%list.
Proof.
  intros (_ & Hmiss) (_ & Hmiss') Hstale Hfailed.
  destruct (Hmiss Hstale) as (Hlog & Hcase).
  assert (Hnone : PyDict.get (Cache._make_key lat lng params) (Cache._cache c1) = None
                  /\ c1 = snd (Cache.get lat lng params t_get c)
                  /\ r1 = match tool with
                          | Returned _ => Returned (VRef (length h))
                          | Raised e => Raised e
                          end).
  { destruct tool as [d|e].
    - destruct Hcase as (Hr1 & _ & _ & Hnot). destruct (Hnot Hfailed). auto.
    - destruct Hcase as (Hr1 & _ & Hc1 & Hget). auto. }
  destruct Hnone as (Hnone & Hc1 & Hr1).
  destruct (Hmiss' (or_introl Hnone)) as (Hlog' & _).
  split; [exact Hr1|]. split; [exact Hnone|]. split.
  - rewrite Hc1. unfold Cache.get.
    destruct (PyDict.get _ (Cache._cache c)) as [[ts v]|]; [|simpl; lia].
    destruct (Qlt_bool _ _); simpl; [lia|]. apply PyDictFacts.length_del_le.
  - rewrite Hlog', Hlog, <- app_assoc. reflexivity.
Qed.

(** Failures are not cached: when the tool raises or reports a
    failure, the wrapper hands that on, stores nothing for the
    request, and the same request made again, at whatever time,
    fetches again. *)
Theorem failed_results_are_fetched_again
    (s : state) (w w' : world) (t_get t_set t_get' t_set' lat lng : Q)
    (zoom : Z) (map_type : string) (heading pitch fov : Z) :
  reachable s ->
  (let tool := Vision.get_overhead_view w lat lng zoom map_type true in
   let r1 := cached_get_overhead_view w t_get t_set lat lng zoom map_type s in
   let r2 := cached_get_overhead_view w' t_get' t_set' lat lng zoom map_type
               (snd r1) in
   stale (overhead_cache s) lat lng (overhead_key_params zoom map_type) t_get ->
   failed tool ->
   fst r1 = match tool with
            | Returned _ => Returned (VRef (length (heap s)))
            | Raised e => Raised e
            end
   /\ PyDict.get (Cache._make_key lat lng (overhead_key_params zoom map_type))
                 (Cache._cache (overhead_cache (snd r1))) = None
   /\ fetches (snd r2)
      = (fetches s ++ [ FetchOverhead lat lng zoom map_type;
                        FetchOverhead lat lng zoom map_type ])%list)
  /\ (let tool := Vision.get_street_view w lat lng heading pitch fov true in
      let r1 := cached_get_street_view w t_get t_set lat lng heading pitch fov s in
      let r2 := cached_get_street_view w' t_get' t_set' lat lng heading pitch fov
                  (snd r1) in
      stale (streetview_cache s) lat lng (street_key_params heading pitch fov) t_get ->
      failed tool ->
      fst r1 = match tool with
               | Returned _ => Returned (VRef (length (heap s)))
               | Raised e => Raised e
               end
      /\ PyDict.get (Cache._make_key lat lng (street_key_params heading pitch fov))
                    (Cache._cache (streetview_cache (snd r1))) = None
      /\ fetches (snd r2)
         = (fetches s ++ [ FetchStreet lat lng heading pitch fov;
                           FetchStreet lat lng heading pitch fov ])%list).
Proof.
  intros Hr. pose proof (AgentFacts.reachable_ok s Hr) as Hok. split.
  - intros tool r1 r2 Hstale Hfailed.
    destruct (AgentFacts.overhead_step w t_get t_set lat lng zoom map_type s Hok)
      as (H1 & _ & Hok1). fold r1 in H1, Hok1.
    destruct (AgentFacts.overhead_step w' t_get' t_set' lat lng zoom map_type
                (snd r1) Hok1) as (H2 & _ & _). fold r2 in H2.
    destruct (serves_refetch _ _ _ _ _ _ _ _ _ _ _ _ _ _ _ _ _ _ _ _ _
                H1 H2 Hstale Hfailed) as (Hr1 & Hnone & _ & Hlog).
    auto.
  - intros tool r1 r2 Hstale Hfailed.
    destruct (AgentFacts.street_step w t_get t_set lat lng heading pitch fov s Hok)
      as (H1 & _ & Hok1). fold r1 in H1, Hok1.
    destruct (AgentFacts.street_step w' t_get' t_set' lat lng heading pitch fov
                (snd r1) Hok1) as (H2 & _ & _). fold r2 in H2.
    destruct (serves_refetch _ _ _ _ _ _ _ _ _ _ _ _ _ _ _ _ _ _ _ _ _
                H1 H2 Hstale Hfailed) as (Hr1 & Hnone & _ & Hlog).
    auto.
Qed.

(** What a wrapper serves without fetching is always a result that an
    earlier fetch delivered with success: the caller gets a dict
    object whose ["success"] entry is true and whose ["from_cache"]
    entry is [True], never an error and never a failure. *)
Theorem cache_hits_are_earlier_successes
    (s : state) (w : world) (t_get t_set lat lng : Q)
    (zoom : Z) (map_type : string) (heading pitch fov : Z) :
  reachable s ->
  (let r := cached_get_overhead_view w t_get t_set lat lng zoom map_type s in
   fetches (snd r) = fetches s ->
   exists l d, fst r = Returned (VRef l) /\ heap (snd r) !! l = Some d
     /\ succeeded d = true
     /\ PyDict.get "from_cache" d = Some (VBool true))
  /\ (let r := cached_get_street_view w t_get t_set lat lng heading pitch fov s in
      fetches (snd r) = fetches s ->
      exists l d, fst r = Returned (VRef l) /\ heap (snd r) !! l = Some d
        /\ succeeded d = true
        /\ PyDict.get "from_cache" d = Some (VBool true)).
Proof.
  intros Hr. pose proof (reachable_settled s Hr) as Hset.
  assert (Hmarked : forall (h h' : list pydict) l d,
             h !! l = Some d -> succeeded d = true ->
             h' = <[ l := PyDict.set "from_cache" (VBool true) d ]> h ->
             exists d', h' !! l = Some d' /\ succeeded d' = true
               /\ PyDict.get "from_cache" d' = Some (VBool true)).
  { intros h h' l d Hl Hs ->. exists (PyDict.set "from_cache" (VBool true) d).
    split; [apply list_lookup_insert_eq; now apply lookup_lt_Some in Hl|].
    split; [now rewrite succeeded_mark | apply PyDictFacts.get_set_eq]. }
  split.
  - intros r Hlog.
    destruct (overhead_keeps w t_get t_set lat lng zoom map_type s Hset) as (_ & Hhit).
    destruct (Hhit Hlog) as (l & d & Hres & Hl & Hs & Hh).
    destruct (Hmarked _ _ _ _ Hl Hs Hh) as (d' & Hl' & Hs' & Hf).
    exists l, d'. auto.
  - intros r Hlog.
    destruct (street_keeps w t_get t_set lat lng heading pitch fov s Hset) as (_ & Hhit).
    destruct (Hhit Hlog) as (l & d & Hres & Hl & Hs & Hh).
    destruct (Hmarked _ _ _ _ Hl Hs Hh) as (d' & Hl' & Hs' & Hf).
    exists l, d'. auto.
Qed.

End Facts.
End AgentMore.

(** ** The shared HTTP client *)

Module PoolFacts.
Import Pool.

Lemma is_closed_cons (p : state) (c c' : nat) (cur : option nat) :
  is_closed (mkPool cur (c' :: closed p) (created p)) c
  = Nat.eqb c c' || is_closed p c.
Proof. reflexivity. Qed.

Lemma step_tidy (p : state) (o : op) : tidy p -> tidy (step p o).
Proof.
  intros (Hcur & Hcl & Hrest).
  assert (Hnew : (forall c, _http_client p = Some c -> is_closed p c = true) ->
                 tidy (snd (new_client p))).
  { intros Hgone. unfold new_client, tidy. simpl. split; [|split].
    - intros c [= <-]. lia.
    - intros c Hc. apply Hcl in Hc. lia.
    - intros c Hlt Hne. change (is_closed p c = true).
      destruct (_http_client p) as [c0|] eqn:E.
      + destruct (Nat.eq_dec c c0) as [-> | Hdiff]; [now apply Hgone|].
        apply Hrest; [|congruence].
        assert (c <> created p) by congruence. lia.
      + apply Hrest; [|discriminate].
        assert (c <> created p) by congruence. lia. }
  destruct o as [| |c0]; simpl.
  - unfold get_http_client. destruct (_http_client p) as [c|] eqn:E;
      [|apply Hnew; intros c' Hc'; congruence].
    destruct (is_closed p c) eqn:Ec;
      [apply Hnew; intros c' Hc'; congruence|].
    simpl. unfold tidy. rewrite E. auto.
  - unfold close_http_client. destruct (_http_client p) as [c|] eqn:E.
    + unfold tidy. simpl. split; [discriminate|]. split.
      * intros c'. rewrite is_closed_cons. intros H.
        apply orb_true_iff in H as [H | H]; [|now apply Hcl].
        apply Nat.eqb_eq in H. subst c'. now apply Hcur.
      * intros c' Hlt _. rewrite is_closed_cons.
        destruct (Nat.eqb c' c) eqn:Eq; [reflexivity|]. simpl.
        apply Hrest; [exact Hlt|]. apply Nat.eqb_neq in Eq. congruence.
    + unfold tidy. rewrite E. auto.
  - unfold aclose. destruct (c0 <? created p)%nat eqn:Elt.
    + apply Nat.ltb_lt in Elt. unfold tidy. simpl. split; [exact Hcur|]. split.
      * intros c'. rewrite is_closed_cons. intros H.
        apply orb_true_iff in H as [H | H]; [|now apply Hcl].
        apply Nat.eqb_eq in H. now subst c'.
      * intros c' Hlt Hne. rewrite is_closed_cons.
        rewrite (Hrest c' Hlt Hne). apply orb_true_r.
    + unfold tidy. auto.
Qed.

Lemma run_tidy (ops : list op) : tidy (run ops).
Proof.
  unfold run.
  assert (H : forall p, tidy p -> tidy (fold_left step ops p)).
  { induction ops as [|o ops IH]; intros p Hp; simpl; [exact Hp|].
    apply IH. now apply step_tidy. }
  apply H. unfold tidy, start, is_closed. simpl.
  split; [discriminate|]. split; [discriminate|]. intros c Hc. lia.
Qed.

(** Whatever was asked of the pool before, [get_http_client] hands out
    a client that is open, and keeps handing out that same client
    until it is closed; every other client that was ever made is
    closed by then, so no connection pool is left behind open.
    [close_http_client] closes the client and forgets it, and the next
    call makes a new one. *)
Theorem pool_hands_out_one_open_client (ops : list op) :
  let p := run ops in
  let c := fst (get_http_client p) in
  let p' := snd (get_http_client p) in
  is_closed p' c = false
  /\ _http_client p' = Some c
  /\ (forall c', (c' < created p')%nat -> c' <> c -> is_closed p' c' = true)
  /\ get_http_client p' = (c, p')
  /\ is_closed (close_http_client p') c = true
  /\ _http_client (close_http_client p') = None
  /\ fst (get_http_client (close_http_client p')) = created p'
  /\ (created p' <> c)%nat.
Proof.
  intros p c p'.
  pose proof (run_tidy ops) as Hp. fold p in Hp.
  pose proof (step_tidy p Get Hp) as Hp'. simpl in Hp'. fold p' in Hp'.
  assert (Hcur : _http_client p' = Some c /\ is_closed p' c = false).
  { subst c p'. unfold get_http_client.
    destruct Hp as (_ & Hcl & _).
    assert (Hfresh : is_closed p (created p) = false).
    { destruct (is_closed p (created p)) eqn:E; [|reflexivity].
      apply Hcl in E. lia. }
    destruct (_http_client p) as [c|] eqn:E; [|now simpl].
    destruct (is_closed p c) eqn:Ec; [now simpl|]. simpl. auto. }
  destruct Hcur as (Hcur & Hopen).
  destruct Hp' as (Hlt & _ & Hrest).
  split; [exact Hopen|]. split; [exact Hcur|]. split.
  { intros c' Hc' Hne. apply Hrest; [exact Hc'|]. congruence. }
  split.
  { unfold get_http_client. now rewrite Hcur, Hopen. }
  unfold close_http_client. rewrite Hcur. simpl.
  split; [unfold is_closed; simpl; now rewrite Nat.eqb_refl|].
  split; [reflexivity|]. split; [reflexivity|].
  apply Hlt in Hcur. lia.
Qed.

End PoolFacts.

(** ** The environment of the Maps server *)

Module McpEnvFacts.
Import McpEnv.

(** The value of a variable that is set and not empty. *)
Definition nonempty (value : option string) : option string :=
  match value with
  | Some v => if String.eqb v "" then None else Some v
  | None => None
  end.

Lemma pass_nonempty (name : string) (value : option string) (env : PyDict.t string) :
  pass name value env
  = match nonempty value with
    | Some v => PyDict.set name v env
    | None => env
    end.
Proof.
  unfold pass, nonempty. destruct value as [v|]; [|reflexivity].
  now destruct (String.eqb v "").
Qed.

Lemma nonempty_Some (value : option string) (v : string) :
  nonempty value = Some v <-> value = Some v /\ v <> "".
Proof.
  unfold nonempty. destruct value as [v0|].
  - destruct (String.eqb v0 "") eqn:E.
    + apply String.eqb_eq in E. subst v0. split; [discriminate|].
      intros [[= <-] H]. congruence.
    + apply String.eqb_neq in E. split.
      * intros [= <-]. auto.
      * intros [[= <-] _]. reflexivity.
  - split; [discriminate | intros [H _]; discriminate].
Qed.

(** [get_mcp_env] passes on the API key and the project exactly when
    they are set and not empty: no entry is ever empty, the project
    goes out under both of its names or under neither, and nothing
    else is passed, the fallback variable [MAPS_API_KEY] included. *)
Theorem mcp_env_passes_on_what_is_set (w : world) :
  let env := get_mcp_env w in
  (forall name value, PyDict.get name env = Some value ->
     value <> ""
     /\ ((name = "GOOGLE_MAPS_API_KEY"
          /\ getenv w "GOOGLE_MAPS_API_KEY" = Some value)
         \/ ((name = "GOOGLE_CLOUD_PROJECT" \/ name = "GCLOUD_PROJECT")
             /\ getenv w "GOOGLE_CLOUD_PROJECT" = Some value)))
  /\ (forall value, value <> "" ->
        getenv w "GOOGLE_MAPS_API_KEY" = Some value ->
        PyDict.get "GOOGLE_MAPS_API_KEY" env = Some value)
  /\ (forall value, value <> "" ->
        getenv w "GOOGLE_CLOUD_PROJECT" = Some value ->
        PyDict.get "GOOGLE_CLOUD_PROJECT" env = Some value
        /\ PyDict.get "GCLOUD_PROJECT" env = Some value)
  /\ PyDict.get "GCLOUD_PROJECT" env = PyDict.get "GOOGLE_CLOUD_PROJECT" env
  /\ PyDict.get "MAPS_API_KEY" env = None.
Proof.
  intros env. subst env. unfold get_mcp_env. cbv zeta.
  rewrite !pass_nonempty.
  assert (Hk : forall value, value <> "" ->
             getenv w "GOOGLE_MAPS_API_KEY" = Some value ->
             nonempty (getenv w "GOOGLE_MAPS_API_KEY") = Some value).
  { intros value Hne Hg. apply nonempty_Some. auto. }
  assert (Hp : forall value, value <> "" ->
             getenv w "GOOGLE_CLOUD_PROJECT" = Some value ->
             nonempty (getenv w "GOOGLE_CLOUD_PROJECT") = Some value).
  { intros value Hne Hg. apply nonempty_Some. auto. }
  destruct (nonempty (getenv w "GOOGLE_MAPS_API_KEY")) as [k|] eqn:Ek;
    destruct (nonempty (getenv w "GOOGLE_CLOUD_PROJECT")) as [p|] eqn:Ep;
    try (apply nonempty_Some in Ek as [Ek Hkne]);
    try (apply nonempty_Some in Ep as [Ep Hpne]);
    (split; [|split; [|split; [|split; reflexivity]]]).
  all: try (intros value Hne Hg; specialize (Hk value Hne Hg);
            injection Hk as <-; reflexivity).
  all: try (intros value Hne Hg; specialize (Hk value Hne Hg); discriminate).
  all: try (intros value Hne Hg; specialize (Hp value Hne Hg);
            injection Hp as <-; split; reflexivity).
  all: try (intros value Hne Hg; specialize (Hp value Hne Hg); discriminate).
  all: intros name value; simpl;
    repeat match goal with
           | |- context [String.eqb name ?s] =>
               let E := fresh "E" in
               destruct (String.eqb name s) eqn:E;
               [apply String.eqb_eq in E; subst name|]
           end;
    try discriminate; intros [= <-]; auto 6.
Qed.

End McpEnvFacts.

(** * Further worked instances *)

(** Two entries written at the same time fill a cache of two; the
    third write evicts one of them. *)
Lemma set_evicts_the_first_oldest_witness :
  let c := Cache.run (P := plain_platform)
             [ Cache.OpSet 1 0 (VStr "A") [] 5; Cache.OpSet 2 0 (VStr "B") [] 5 ]
             (Cache.init 3600 2) in
  Cache._max_size c <= Z.of_nat (length (Cache._cache c))
  /\ exists k pre ts v post,
       Cache._cache c = (pre ++ (k, (ts, v)) :: post)%list
       /\ Cache.set (P := plain_platform) 3 0 (VStr "C") [] 6 c
          = Returned (Cache.with_cache
                        (PyDict.set (Cache._make_key (P := plain_platform) 3 0 [])
                                    (6%Q, VStr "C") (pre ++ post)%list) c).
Proof.
  intros c.
  assert (Hfull : Cache._max_size c <= Z.of_nat (length (Cache._cache c)))
    by (vm_compute; discriminate).
  split; [exact Hfull|].
  destruct (CacheMore.set_evicts_the_first_oldest (P := plain_platform) 3600 2
              [ Cache.OpSet 1 0 (VStr "A") [] 5; Cache.OpSet 2 0 (VStr "B") [] 5 ]
              3 0 (VStr "C") [] 6 Hfull) as (_ & Hevict).
  destruct Hevict as (k & pre & ts & v & post & Hd & _ & _ & Hset).
  - intros H. vm_compute in H. discriminate H.
  - exists k, pre, ts, v, post. split; [exact Hd | exact Hset].
Defined.

(** A full cache of two, written to again under its second key. *)
Lemma set_of_a_stored_key_at_capacity_witness :
  let c := Cache.run (P := plain_platform)
             [ Cache.OpSet 1 0 (VStr "A") [] 5; Cache.OpSet 2 0 (VStr "B") [] 7 ]
             (Cache.init 3600 2) in
  let key := Cache._make_key (P := plain_platform) 2 0 [] in
  Cache._max_size c <= Z.of_nat (length (Cache._cache c))
  /\ PyDict.mem key (Cache._cache c) = true
  /\ exists oldest c',
       Cache.oldest_key (Cache._cache c) = Returned oldest
       /\ Cache.set (P := plain_platform) 2 0 (VStr "B2") [] 9 c = Returned c'
       /\ PyDict.get key (Cache._cache c') = Some (9%Q, VStr "B2").
Proof.
  intros c key.
  assert (Hfull : Cache._max_size c <= Z.of_nat (length (Cache._cache c)))
    by (vm_compute; discriminate).
  assert (Hmem : PyDict.mem key (Cache._cache c) = true) by (vm_compute; reflexivity).
  split; [exact Hfull|]. split; [exact Hmem|].
  destruct (CacheMore.set_of_a_stored_key_at_capacity (P := plain_platform) 3600 2
              [ Cache.OpSet 1 0 (VStr "A") [] 5; Cache.OpSet 2 0 (VStr "B") [] 7 ]
              2 0 (VStr "B2") [] 9 Hfull Hmem)
    as (oldest & c' & Hold & Hset & Hget & _).
  exists oldest, c'. split; [exact Hold|]. split; [exact Hset | exact Hget].
Defined.

(** A read at time 200 of an entry written at time 100. *)
Lemma reads_do_not_refresh_witness :
  let c := Cache.run (P := plain_platform)
             [ Cache.OpSet 1 2 (VStr "payload") [] 100 ] (Cache.init 3600 10) in
  PyDict.get (Cache._make_key (P := plain_platform) 1 2 []) (Cache._cache c)
  = Some (100%Q, VStr "payload")
  /\ (200 - 100 < inject_Z (Cache._ttl c))%Q
  /\ Cache._cache (snd (Cache.get (P := plain_platform) 1 2 [] 200 c))
     = Cache._cache c.
Proof.
  intros c.
  assert (G : PyDict.get (Cache._make_key (P := plain_platform) 1 2 [])
                         (Cache._cache c) = Some (100%Q, VStr "payload"))
    by reflexivity.
  assert (Hfresh : (200 - 100 < inject_Z (Cache._ttl c))%Q)
    by (vm_compute; reflexivity).
  split; [exact G|]. split; [exact Hfresh|].
  exact (proj1 (CacheMore.reads_do_not_refresh (P := plain_platform)
                  1 2 [] 200 c 100 (VStr "payload") G Hfresh)).
Defined.

(** The keywords of the overhead wrapper, written in both orders. *)
Lemma make_key_ignores_keyword_order_witness :
  let params := [ ("zoom", VInt 18); ("map_type", VStr "satellite") ] in
  let params' := [ ("map_type", VStr "satellite"); ("zoom", VInt 18) ] in
  NoDup (map fst params)
  /\ Permutation params params'
  /\ Cache._make_key (P := plain_platform) 1 2 params
     = Cache._make_key (P := plain_platform) 1 2 params'.
Proof.
  intros params params'.
  assert (Hnd : NoDup (map fst params))
    by (apply (bool_decide_unpack _); vm_compute; exact I).
  assert (Hperm : Permutation params params') by apply perm_swap.
  split; [exact Hnd|]. split; [exact Hperm|].
  exact (proj1 (proj2 (KeyOrder.make_key_ignores_keyword_order (P := plain_platform)
                         1 2 params params' Hnd Hperm))).
Defined.

(** The tools in surroundings without a key. *)
Lemma missing_key_raises_but_panorama_reports_witness :
  VisionMore.unset (getenv keyless_world "GOOGLE_MAPS_API_KEY")
  /\ VisionMore.unset (getenv keyless_world "MAPS_API_KEY")
  /\ Vision.get_overhead_view (P := plain_platform) keyless_world 1 2 18
       "satellite" true
     = Raised (ValueError VisionMore.no_key_message)
  /\ PyDict.get "success"
       (Vision.explore_panoramic (P := plain_platform) keyless_world 1 2 0 90 3)
     = Some (VBool false).
Proof.
  assert (Hg : VisionMore.unset (getenv keyless_world "GOOGLE_MAPS_API_KEY"))
    by (left; reflexivity).
  assert (Hm : VisionMore.unset (getenv keyless_world "MAPS_API_KEY"))
    by (left; reflexivity).
  split; [exact Hg|]. split; [exact Hm|].
  destruct (VisionMore.missing_key_raises_but_panorama_reports (P := plain_platform)
              keyless_world 1 2 18 "satellite" 0 0 90 true 3 Hg Hm)
    as (Hover & _ & Hpan & _).
  split; [exact Hover | exact Hpan].
Defined.

(** The overhead view in surroundings where every request times out. *)
Lemma view_tools_report_instead_of_raising_witness :
  Vision.get_maps_api_key offline_world = Returned "test-key"
  /\ exists d,
       Vision.get_overhead_view (P := plain_platform) offline_world 1 2 18
         "satellite" true = Returned d
       /\ VisionMore.reported d.
Proof.
  split; [reflexivity|].
  exact (proj1 (VisionMore.view_tools_report_instead_of_raising (P := plain_platform)
                  offline_world 1 2 18 "satellite" 0 0 90 true "test-key"
                  eq_refl)).
Defined.

(** The street view against an API that answers 429. *)
Lemma street_view_words_the_failure_witness :
  Vision.get_maps_api_key throttled_world = Returned "test-key"
  /\ Vision.get_street_view (P := plain_platform) throttled_world 1 2 370 0 90 true
     = Returned
         [ ("success", VBool false);
           ("error", VStr "Rate limit exceeded. Please wait before retrying.") ].
Proof.
  split; [reflexivity|].
  destruct (VisionMore.street_view_words_the_failure (P := plain_platform)
              throttled_world 1 2 370 0 90 true "test-key" eq_refl)
    as (H429 & _).
  exact (H429 {| Fetch.status_code := 429; Fetch.text := "slow down";
                 Fetch.content := "" |} eq_refl eq_refl).
Defined.

(** The statistics after one overhead view was fetched. *)
Lemma global_caches_keep_their_settings_witness :
  let s := snd (Agent.cached_get_overhead_view (P := plain_platform)
                  online_world 10 11 (1 # 2) (1 # 3) 18 "satellite" Agent.initial) in
  Agent.reachable (P := plain_platform) s
  /\ exists o size_o,
       PyDict.get "overhead" (get_all_cache_stats s) = Some (VDict o)
       /\ PyDict.get "max_size" o = Some (VInt 100)
       /\ PyDict.get "size" o = Some (VInt size_o) /\ 0 <= size_o <= 100.
Proof.
  intros s.
  assert (Hr : Agent.reachable (P := plain_platform) s)
    by (apply Agent.reach_overhead, Agent.reach_initial).
  split; [exact Hr|].
  destruct (AgentMore.global_caches_keep_their_settings (P := plain_platform) s Hr)
    as (o & v & size_o & size_v & Hstats & _ & _ & Hmax & Hsize & Hrange & _).
  exists o, size_o. rewrite Hstats.
  split; [reflexivity|]. split; [exact Hmax|]. split; [exact Hsize | exact Hrange].
Defined.

(** An overhead view fetched while online and asked for again, ninety
    seconds later, while every request times out. *)
Lemma repeat_within_ttl_is_served_from_cache_witness :
  let r1 := Agent.cached_get_overhead_view (P := plain_platform)
              online_world 10 11 (1 # 2) (1 # 3) 18 "satellite" Agent.initial in
  let r2 := Agent.cached_get_overhead_view (P := plain_platform)
              offline_world 100 101 (1 # 2) (1 # 3) 18 "satellite" (snd r1) in
  Agent.reachable (P := plain_platform) Agent.initial
  /\ fst r2 = fst r1
  /\ Agent.fetches (snd r2) = [ Agent.FetchOverhead (1 # 2) (1 # 3) 18 "satellite" ].
Proof.
  intros r1 r2. split; [apply Agent.reach_initial|].
  destruct (AgentMore.repeat_within_ttl_is_served_from_cache (P := plain_platform)
              Agent.initial online_world offline_world 10 11 100 101 (1 # 2) (1 # 3)
              18 "satellite" 0 0 90 Agent.reach_initial) as (Hover & _).
  edestruct Hover as (_ & Hsame & Hlog & _).
  - left. reflexivity.
  - reflexivity.
  - reflexivity.
  - vm_compute. reflexivity.
  - split; [exact Hsame | exact Hlog].
Defined.

(** The same overhead view asked for twice while every request times
    out. *)
Lemma failed_results_are_fetched_again_witness :
  let r1 := Agent.cached_get_overhead_view (P := plain_platform)
              offline_world 10 11 (1 # 2) (1 # 3) 18 "satellite" Agent.initial in
  let r2 := Agent.cached_get_overhead_view (P := plain_platform)
              offline_world 12 13 (1 # 2) (1 # 3) 18 "satellite" (snd r1) in
  Agent.reachable (P := plain_platform) Agent.initial
  /\ Agent.fetches (snd r2)
     = [ Agent.FetchOverhead (1 # 2) (1 # 3) 18 "satellite";
         Agent.FetchOverhead (1 # 2) (1 # 3) 18 "satellite" ].
Proof.
  intros r1 r2. split; [apply Agent.reach_initial|].
  destruct (AgentMore.failed_results_are_fetched_again (P := plain_platform)
              Agent.initial offline_world offline_world 10 11 12 13 (1 # 2) (1 # 3)
              18 "satellite" 0 0 90 Agent.reach_initial) as (Hover & _).
  destruct Hover as (_ & _ & Hlog).
  - left. reflexivity.
  - vm_compute. reflexivity.
  - exact Hlog.
Defined.

(** The second of two calls for the same overhead view. *)
Lemma cache_hits_are_earlier_successes_witness :
  let s := snd (Agent.cached_get_overhead_view (P := plain_platform)
                  online_world 10 11 (1 # 2) (1 # 3) 18 "satellite" Agent.initial) in
  let r := Agent.cached_get_overhead_view (P := plain_platform)
             offline_world 100 101 (1 # 2) (1 # 3) 18 "satellite" s in
  Agent.reachable (P := plain_platform) s
  /\ Agent.fetches (snd r) = Agent.fetches s
  /\ exists l d,
       fst r = Returned (VRef l) /\ Agent.heap (snd r) !! l = Some d
       /\ Agent.succeeded d = true
       /\ PyDict.get "from_cache" d = Some (VBool true).
Proof.
  intros s r.
  assert (Hr : Agent.reachable (P := plain_platform) s)
    by (apply Agent.reach_overhead, Agent.reach_initial).
  assert (Hlog : Agent.fetches (snd r) = Agent.fetches s)
    by (vm_compute; reflexivity).
  split; [exact Hr|]. split; [exact Hlog|].
  destruct (AgentMore.cache_hits_are_earlier_successes (P := plain_platform)
              s offline_world 100 101 (1 # 2) (1 # 3) 18 "satellite" 0 0 90 Hr)
    as (Hover & _).
  exact (Hover Hlog).
Defined.
